(** * aquamark-email-gateway: the webhook-to-relay pipeline

    A shallow embedding of the three versions of the Express handler
    [app.post('/webhook/inbound', ...)]:

    - [Inline]     : src/index.js          (one call per attachment, inline content)
    - [Staging]    : src/unnamed/part_001  (one call per PDF, staged in object storage)
    - [AsyncBatch] : src/unnamed/part_002  (one batch job, polled, result unzipped)

    The handler is sequential code over external collaborators (Supabase
    directory and storage, the watermarking API reached through [fetch],
    Postmark).  Collaborators are oracles collected in a [World]; every call
    made to one of them is appended to a trace.  JavaScript exceptions and
    the early [return res.status(..).json(..)] are outcomes of a small
    state-and-exception monad.

    A [string] holds the UTF-8 bytes of a JavaScript string; a [Buffer] is
    a string of bytes. *)

From Stdlib Require Import List String Ascii Bool Arith NArith Lia.
From Stdlib Require Import DecimalString.
Import ListNotations.
Open Scope string_scope.
Open Scope list_scope.

Set Implicit Arguments.

(** ** JavaScript strings *)

Module Js.

(** [s.split(sep)] for a one-character separator. *)
Fixpoint split (sep : ascii) (s : string) : list string :=
  match s with
  | EmptyString => [EmptyString]
  | String c r =>
      if Ascii.eqb c sep then EmptyString :: split sep r
      else match split sep r with
           | h :: t => String c h :: t
           | [] => [String c EmptyString]
           end
  end.

(** [s.toLowerCase()] on the ASCII letters; the only use in the source is
    followed by [endsWith('.pdf')], which no other letter can affect. *)
Definition lower (c : ascii) : ascii :=
  let n := nat_of_ascii c in
  if ((65 <=? n) && (n <=? 90))%nat then ascii_of_nat (n + 32) else c.

Fixpoint toLowerCase (s : string) : string :=
  match s with
  | EmptyString => EmptyString
  | String c r => String (lower c) (toLowerCase r)
  end.

Definition endsWith (s suffix : string) : bool :=
  let n := String.length s in
  let m := String.length suffix in
  (m <=? n)%nat && String.eqb (substring (n - m) m s) suffix.

Definition startsWith (s p : string) : bool := String.prefix p s.

(** [s.replace(pat, repl)] with a string pattern: the first occurrence only. *)
Definition replace (pat repl s : string) : string :=
  match String.index 0 pat s with
  | Some i =>
      (substring 0 i s ++ repl
         ++ substring (i + String.length pat)
                      (String.length s - (i + String.length pat)) s)%string
  | None => s
  end.

(** A possibly [undefined] string, as property reads produce them. *)
Definition truthy (v : option string) : bool :=
  match v with
  | Some (String _ _) => true
  | _ => false
  end.

(** [a || b] *)
Definition or (a b : option string) : option string :=
  if truthy a then a else b.

(** [`${v}`] *)
Definition str (v : option string) : string :=
  match v with
  | Some s => s
  | None => "undefined"
  end.

Definition num (n : N) : string := NilZero.string_of_uint (N.to_uint n).

(** The six payload bits of a continuation byte [10xxxxxx]. *)
Definition continuation (c : ascii) : N := (N_of_ascii c mod 64)%N.

(** The UTF-16 code units of a string, decoded from its UTF-8 bytes: one
    unit for a sequence of one, two or three bytes, a surrogate pair for a
    sequence of four.  A byte that starts no complete sequence counts as
    the code unit of its own value. *)
Fixpoint code_units (s : string) : list N :=
  match s with
  | EmptyString => []
  | String c r =>
      let n := N_of_ascii c in
      if (n <? 192)%N then n :: code_units r
      else if (n <? 224)%N then
        match r with
        | String c1 r1 => ((n mod 32) * 64 + continuation c1)%N :: code_units r1
        | _ => n :: code_units r
        end
      else if (n <? 240)%N then
        match r with
        | String c1 (String c2 r2) =>
            ((n mod 16) * 4096 + continuation c1 * 64 + continuation c2)%N
              :: code_units r2
        | _ => n :: code_units r
        end
      else
        match r with
        | String c1 (String c2 (String c3 r3)) =>
            let point := ((n mod 8) * 262144 + continuation c1 * 4096
                          + continuation c2 * 64 + continuation c3)%N in
            (55296 + (point - 65536) / 1024)%N
              :: (56320 + (point - 65536) mod 1024)%N
              :: code_units r3
        | _ => n :: code_units r
        end
  end.

End Js.

(** ** Buffers and base64

    A [Buffer] is a byte string.  [Buffer.from(s, 'base64')] is Node's
    lenient decoder: it looks at the low byte of each UTF-16 code unit of
    [s]; bytes outside the alphabet are skipped, both the standard and the
    URL-safe alphabet are accepted, decoding stops at the first [=]. *)

Module Buffer.

Definition unbase64 (c : ascii) : option N :=
  let n := N_of_ascii c in
  if ((65 <=? n) && (n <=? 90))%N then Some (n - 65)%N
  else if ((97 <=? n) && (n <=? 122))%N then Some (n - 71)%N
  else if ((48 <=? n) && (n <=? 57))%N then Some (n + 4)%N
  else if ((n =? 43) || (n =? 45))%N then Some 62%N
  else if ((n =? 47) || (n =? 95))%N then Some 63%N
  else None.

Fixpoint sextets (s : string) : list N :=
  match s with
  | EmptyString => []
  | String c r =>
      if Ascii.eqb c "="%char then []
      else match unbase64 c with
           | Some v => v :: sextets r
           | None => sextets r
           end
  end.

Definition byte (n : N) : ascii := ascii_of_N (n mod 256).

Fixpoint pack (l : list N) : string :=
  match l with
  | a :: b :: c :: d :: r =>
      String (byte (a * 4 + b / 16))
        (String (byte (b * 16 + c / 4))
           (String (byte (c * 64 + d)) (pack r)))
  | [a; b; c] =>
      String (byte (a * 4 + b / 16)) (String (byte (b * 16 + c / 4)) EmptyString)
  | [a; b] => String (byte (a * 4 + b / 16)) EmptyString
  | _ => EmptyString
  end%N.

(** What the decoder reads of a string: the low byte of each code unit. *)
Definition low_bytes (s : string) : string :=
  string_of_list_ascii (map byte (Js.code_units s)).

Definition from_base64 (s : string) : string := pack (sextets (low_bytes s)).

Definition alphabet : string :=
  "ABCDEFGHIJKLMNOPQRSTUVWXYZabcdefghijklmnopqrstuvwxyz0123456789+/".

Definition digit (n : N) : ascii :=
  match String.get (N.to_nat (n mod 64)) alphabet with
  | Some c => c
  | None => "="%char
  end.

Fixpoint encode (l : list N) : string :=
  match l with
  | a :: b :: c :: r =>
      String (digit (a / 4))
        (String (digit (a * 16 + b / 16))
           (String (digit (b * 4 + c / 64))
              (String (digit c) (encode r))))
  | [a; b] =>
      String (digit (a / 4))
        (String (digit (a * 16 + b / 16)) (String (digit (b * 4)) "="))
  | [a] => String (digit (a / 4)) (String (digit (a * 16)) "==")
  | [] => EmptyString
  end%N.

(** [buf.toString('base64')] *)
Definition to_base64 (buf : string) : string :=
  encode (map N_of_ascii (list_ascii_of_string buf)).

End Buffer.

(** ** Data of the webhook *)

Record FullAddress := { Email : option string; FullName : option string }.

(** One attachment of [emailData.Attachments] (Postmark's inbound schema). *)
Record RawAttachment := {
  Name : string;
  Content : string;
  ContentType : string
}.

(** The elements of the array [emailData.Attachments].  Postmark sends
    attachments; [express.json()] accepts any JSON, so an element can also
    be [null].  [object x] is the attachment a property read on [x] finds,
    [None] when [x] is [null] and the read throws. *)
Class Element (E : Type) := object : E -> option RawAttachment.

(** The elements of a body that follows the schema. *)
#[export] Instance attachment_element : Element RawAttachment :=
  fun attachment => Some attachment.

(** The elements of any JSON body: an attachment or [null]. *)
#[export] Instance json_element : Element (option RawAttachment) :=
  fun element => element.

(** The elements that are attachments. *)
Definition objects {E} `{Element E} (l : list E) : list RawAttachment :=
  flat_map (fun x => match object x with
                     | Some attachment => [attachment]
                     | None => []
                     end) l.

(** [req.body], with [E] the type of the elements of [Attachments].  A
    field read through [||] or [?.] in the source is optional here;
    [ToFull] and [Attachments] are lists, an absent array behaving like an
    empty one at every use ([?.[0]], [|| []]). *)
Record Inbound (E : Type) := {
  ToFull : list FullAddress;
  To : option string;
  From : option string;
  FromName : option string;
  FromFull : option FullAddress;
  Subject : option string;
  TextBody : option string;
  HtmlBody : option string;
  Attachments : list E
}.

(** The body as Postmark's schema types it: every element of
    [Attachments] is an attachment. *)
Definition emailData : Type := Inbound RawAttachment.

(** The body as the JSON parser can hand it over. *)
Definition jsonData : Type := Inbound (option RawAttachment).

(** A row of the table [email_gateway_funders]. *)
Record Funder := {
  funder_id : string;
  active : bool;
  destination_email : string;
  company_name : string;
  user_email : string;
  logo_storage_path : string
}.

(** An element of the [Attachments] array handed to Postmark. *)
Record ProcessedAttachment := {
  out_Name : string;
  out_Content : string;
  out_ContentType : string
}.

(** The argument of [postmarkClient.sendEmail]. *)
Record OutboundMessage := {
  msg_From : string;
  msg_ReplyTo : option string;
  msg_To : string;
  msg_Subject : string;
  msg_TextBody : string;
  msg_Attachments : list ProcessedAttachment
}.

Inductive Exn :=
| Error (message : string)
| TypeError (message : string).

Definition message (e : Exn) : string :=
  match e with
  | Error m => m
  | TypeError m => m
  end.

(** The JSON bodies the handler writes. *)
Inductive Body :=
| Body_error (error : string)
| Body_message (msg : string)
| Body_success (msg : string) (counter : string) (n : nat).

Record Response := { status : N; body : Body }.

(** The body of the POST to [FUNDER_API_URL], one shape per version. *)
Inductive WatermarkPayload :=
| Payload_inline (funderId logoUrl : string) (brokerDomain : option string)
                 (fileName fileContent : string)
| Payload_url (user_email file_url broker_name : string)
| Payload_files (user_email : string) (broker_name : option string)
                (files : list (string * string)).

(** ** Collaborators *)

Record FetchResponse (J : Type) := {
  ok : bool;
  http_status : N;
  statusText : string;
  text : string;
  json : Exn + J;
  arrayBuffer : string
}.

Inductive Fetched (J : Type) :=
| Rejected (e : Exn)
| Resolved (r : FetchResponse J).

Arguments Rejected {J} e.

Inductive UploadResult :=
| Upload_ok
| Upload_error (message : string)
| Upload_throws (e : Exn).

(** [GET .../job-status/<id>] answers [{status, download_url?, error_message?}]. *)
Record JobStatus := {
  job_status : string;
  download_url : option string;
  error_message : option string
}.

Record ZipEntry := {
  entryName : string;
  isDirectory : bool;
  getData : string
}.

(** Every call to a collaborator, in the order the handler makes them. *)
Inductive Event :=
| Directory_query (funderId : string)
| Storage_getPublicUrl (bucket path : string)
| Storage_upload (bucket path buffer contentType : string) (result : UploadResult)
| Storage_remove (bucket path : string)
| Fetch_watermark (url : string) (payload : WatermarkPayload)
| Fetch_job_status (url : string)
| Fetch_download (url : string)
| Set_timeout (ms : N)
| Send_email (m : OutboundMessage).

(** The oracles.  A collaborator called once per loop iteration takes the
    iteration's index, so that any sequence of answers can be described. *)
Record World := {
  SUPABASE_URL : string;
  FUNDER_API_URL : string;
  email_gateway_funders : list Funder;
  directory_error : bool;
  Date_now : nat -> N;
  getPublicUrl : string -> string -> string;
  storage_upload : nat -> string -> string -> UploadResult;
  storage_remove : string -> option Exn;
  watermark_inline : nat -> WatermarkPayload -> Fetched string;
  watermark_url : nat -> WatermarkPayload -> Fetched string;
  watermark_files : WatermarkPayload -> Fetched (option string);
  job_status_poll : nat -> string -> Fetched JobStatus;
  download : nat -> string -> Fetched unit;
  AdmZip : string -> Exn + list ZipEntry;
  sendEmail : OutboundMessage -> option Exn
}.

(** ** The handler monad *)

Record State := {
  trace : list Event;
  watermarkedAttachments : list ProcessedAttachment;
  tempFiles : list string
}.

Definition initial : State :=
  {| trace := []; watermarkedAttachments := []; tempFiles := [] |}.

Inductive Outcome (A : Type) :=
| Val (a : A)
| Throw (e : Exn)
| Return (r : Response).

Arguments Throw {A} e.
Arguments Return {A} r.

Definition M (A : Type) := State -> Outcome A * State.

Definition ret {A} (a : A) : M A := fun s => (Val a, s).

Definition bind {A B} (m : M A) (k : A -> M B) : M B :=
  fun s =>
    match m s with
    | (Val a, s') => k a s'
    | (Throw e, s') => (Throw e, s')
    | (Return r, s') => (Return r, s')
    end.

Notation "x <- m ;; k" := (bind m (fun x => k))
  (at level 61, m at next level, right associativity).
Notation "m ;;; k" := (bind m (fun _ => k))
  (at level 61, right associativity).

Definition throw {A} (e : Exn) : M A := fun s => (Throw e, s).

(** [return res.status(n).json(b)] *)
Definition respond {A} (n : N) (b : Body) : M A :=
  fun s => (Return {| status := n; body := b |}, s).

Definition try_catch {A} (m : M A) (h : Exn -> M A) : M A :=
  fun s =>
    match m s with
    | (Throw e, s') => h e s'
    | r => r
    end.

Definition emit (e : Event) : M unit :=
  fun s =>
    (Val tt, {| trace := trace s ++ [e];
                watermarkedAttachments := watermarkedAttachments s;
                tempFiles := tempFiles s |}).

Definition push_watermarked (a : ProcessedAttachment) : M unit :=
  fun s =>
    (Val tt, {| trace := trace s;
                watermarkedAttachments := watermarkedAttachments s ++ [a];
                tempFiles := tempFiles s |}).

Definition push_temp (p : string) : M unit :=
  fun s =>
    (Val tt, {| trace := trace s;
                watermarkedAttachments := watermarkedAttachments s;
                tempFiles := tempFiles s ++ [p] |}).

Definition get_watermarked : M (list ProcessedAttachment) :=
  fun s => (Val (watermarkedAttachments s), s).

Definition get_temp : M (list string) :=
  fun s => (Val (tempFiles s), s).

(** [await p] for a promise that may reject. *)
Definition await {J} (f : Fetched J) : M (FetchResponse J) :=
  match f with
  | Rejected e => throw e
  | Resolved r => ret r
  end.

Definition settle {A} (r : Exn + A) : M A :=
  match r with
  | inl e => throw e
  | inr a => ret a
  end.

(** A property read on an element of the array, [attachment.Name]: a
    [TypeError] when the element is [null]. *)
Definition read {E} `{Element E} (attachment : E) : M RawAttachment :=
  match object attachment with
  | Some file => ret file
  | None => throw (TypeError "Cannot read properties of null (reading 'Name')")
  end.

(** [for (const x of l) body], the index counting the iterations. *)
Fixpoint for_of {A} (body : nat -> A -> M unit) (i : nat) (l : list A) : M unit :=
  match l with
  | [] => ret tt
  | x :: r => body i x ;;; for_of body (S i) r
  end.

(** The [try { ... } catch (error) { res.status(500)... }] around the whole
    handler: the response and the final state. *)
Definition answer (r : Outcome Response * State) : Response * State :=
  match r with
  | (Val r, s) => (r, s)
  | (Return r, s) => (r, s)
  | (Throw _, s) =>
      ({| status := 500; body := Body_error "Internal server error" |}, s)
  end.

Definition run (m : M Response) : Response * State := answer (m initial).

(** ** What the three versions share *)

Section Common.

Context {E : Type}.

Variable w : World.
Variable req : Inbound E.

(** [emailData.ToFull?.[0]?.Email || emailData.To] *)
Definition recipientEmail : option string :=
  Js.or (match ToFull req with
         | a :: _ => Email a
         | [] => None
         end) (To req).

(** [recipientEmail.split('@')[0]] *)
Definition funderId (recipient : string) : string :=
  nth 0 (Js.split "@" recipient) "".

Definition undefined_split {A} : M A :=
  throw (TypeError "Cannot read properties of undefined (reading 'split')").

Definition read_funderId : M string :=
  match recipientEmail with
  | Some r => ret (funderId r)
  | None => undefined_split
  end.

(** [.eq('funder_id', id).eq('active', true).single()]: the data is the
    row when exactly one row matches, otherwise there is an error. *)
Definition single {A} (rows : list A) : option A :=
  match rows with
  | [r] => Some r
  | _ => None
  end.

Definition select_funder (id : string) : option Funder :=
  if directory_error w then None
  else single (filter (fun f => String.eqb (funder_id f) id && active f)
                      (email_gateway_funders w)).

Definition lookup_funder (id : string) : M Funder :=
  emit (Directory_query id) ;;;
  match select_funder id with
  | Some funder => ret funder
  | None => respond 404 (Body_error "Funder not found")
  end.

(** [emailData.From || emailData.FromFull?.Email] *)
Definition senderEmail : option string :=
  Js.or (From req) (match FromFull req with
                    | Some a => Email a
                    | None => None
                    end).

(** [senderEmail.split('@')[1]] *)
Definition read_brokerDomain : M (string * option string) :=
  match senderEmail with
  | Some s => ret (s, nth_error (Js.split "@" s) 1)
  | None => undefined_split
  end.

Definition is_pdf (name : string) : bool :=
  Js.endsWith (Js.toLowerCase name) ".pdf".

Definition no_attachments : M unit :=
  match Attachments req with
  | [] => respond 200 (Body_message "No attachments to process")
  | _ => ret tt
  end.

Definition send (m : OutboundMessage) : M unit :=
  emit (Send_email m) ;;;
  match sendEmail w m with
  | Some e => throw e
  | None => ret tt
  end.

End Common.

(** The answers and errors of the pipeline by name, for the statements;
    the handlers below spell every text out as the source does. *)

Definition TenantNotFound : Response :=
  {| status := 404; body := Body_error "Funder not found" |}.

Definition InternalError : Response :=
  {| status := 500; body := Body_error "Internal server error" |}.

Definition AllWatermarksFailed : Response :=
  {| status := 500; body := Body_error "Watermarking failed for all attachments" |}.

Definition WatermarkJobFailed (error_message : option string) : Exn :=
  Error ("Watermarking job failed: " ++ Js.str error_message)%string.

Definition WatermarkJobTimeout : Exn := Error "Watermarking job timed out".

Definition EmptyArchiveResult : Exn := Error "No PDF files found in watermarked ZIP".

Definition success (counter : string) (n : nat) : Response :=
  {| status := 200;
     body := Body_success "Email processed and forwarded" counter n |}.

(** ** src/index.js *)

Module Inline.

Section Handler.

Context {E : Type} {element : Element E}.

Variable w : World.
Variable req : Inbound E.

(** The body of [for (const attachment of attachments)].  The [catch]
    block logs [attachment.Name] (lines 149-152): on a [null] element this
    read throws again, out of the loop. *)
Definition attempt (funder : Funder) (id : string) (brokerDomain : option string)
    (i : nat) (attachment : E) : M unit :=
  try_catch
    (emit (Storage_getPublicUrl "gateway-logos" (logo_storage_path funder)) ;;;
     let logoUrl := getPublicUrl w "gateway-logos" (logo_storage_path funder) in
     file <- read attachment ;;
     let watermarkPayload :=
       Payload_inline id logoUrl brokerDomain (Name file) (Content file) in
     emit (Fetch_watermark (FUNDER_API_URL w) watermarkPayload) ;;;
     watermarkResponse <- await (watermark_inline w i watermarkPayload) ;;
     (if ok watermarkResponse then ret tt
      else throw (Error ("Watermarking failed: " ++ statusText watermarkResponse)%string)) ;;;
     content <- settle (json watermarkResponse) ;;
     push_watermarked {| out_Name := Name file;
                         out_Content := content;
                         out_ContentType := ContentType file |})
    (fun _ => read attachment ;;; ret tt).

(** Lines 155-177: the mail, once the loop is over. *)
Definition relay (funder : Funder) (sender : string) : M Response :=
  watermarked <- get_watermarked ;;
  match watermarked with
  | [] => respond 500 (Body_error "Watermarking failed for all attachments")
  | _ =>
      send w {| msg_From := sender;
                msg_ReplyTo := None;
                msg_To := destination_email funder;
                msg_Subject := "New Submission";
                msg_TextBody := "";
                msg_Attachments := watermarked |} ;;;
      ret {| status := 200;
             body := Body_success "Email processed and forwarded"
                                  "attachments" (List.length watermarked) |}
  end.

(** The handler once the funder is found. *)
Definition process (id : string) (funder : Funder) : M Response :=
  sender <- read_brokerDomain req ;;
  no_attachments req ;;;
  for_of (attempt funder id (snd sender)) 0 (Attachments req) ;;;
  relay funder (fst sender).

Definition webhook_inbound : M Response :=
  id <- read_funderId req ;;
  funder <- lookup_funder w id ;;
  process id funder.

Definition handle : Response * State := run webhook_inbound.

End Handler.

End Inline.

(** ** src/unnamed/part_001 *)

Module Staging.

Section Handler.

Context {E : Type} {element : Element E}.

Variable w : World.
Variable req : Inbound E.

(** [emailData.FromName || emailData.FromFull?.Name || senderEmail.split('@')[0]] *)
Definition read_senderName : M string :=
  match Js.or (FromName req) (match FromFull req with
                              | Some a => FullName a
                              | None => None
                              end) with
  | Some (String c r) => ret (String c r)
  | _ =>
      match senderEmail req with
      | Some s => ret (funderId s)
      | None => undefined_split
      end
  end.

Definition tempFileName (i : nat) (attachment : RawAttachment) : string :=
  ("temp/" ++ Js.num (Date_now w i) ++ "-" ++ Name attachment)%string.

Definition fileUrl (path : string) : string :=
  let publicUrl := getPublicUrl w "funder-logos" path in
  if Js.startsWith publicUrl "http" then publicUrl
  else (SUPABASE_URL w ++ "/storage/v1/object/public/funder-logos/" ++ path)%string.

(** The body of [for (const attachment of attachments)].  The [catch]
    block logs [attachment.Name] (lines 185-188): on a [null] element this
    read throws again, out of the loop and past the clean-up. *)
Definition attempt (funder : Funder) (senderName : string)
    (i : nat) (attachment : E) : M unit :=
  try_catch
    (file <- read attachment ;;
     if negb (is_pdf (Name file)) then ret tt
     else
       let path := tempFileName i file in
       let fileBuffer := Buffer.from_base64 (Content file) in
       let uploaded := storage_upload w i path fileBuffer in
       emit (Storage_upload "funder-logos" path fileBuffer
                            (ContentType file) uploaded) ;;;
       match uploaded with
       | Upload_ok => ret tt
       | Upload_error m => throw (Error ("Failed to upload temp file: " ++ m)%string)
       | Upload_throws e => throw e
       end ;;;
       push_temp path ;;;
       emit (Storage_getPublicUrl "funder-logos" path) ;;;
       let watermarkPayload := Payload_url (user_email funder) (fileUrl path) senderName in
       emit (Fetch_watermark (FUNDER_API_URL w) watermarkPayload) ;;;
       watermarkResponse <- await (watermark_url w i watermarkPayload) ;;
       (if ok watermarkResponse then ret tt
        else throw (Error ("Watermarking failed: "
                           ++ Js.num (http_status watermarkResponse) ++ " - "
                           ++ text watermarkResponse)%string)) ;;;
       file_url <- settle (json watermarkResponse) ;;
       emit (Fetch_download file_url) ;;;
       watermarkedFileResponse <- await (download w i file_url) ;;
       push_watermarked
         {| out_Name := Name file;
            out_Content := Buffer.to_base64 (arrayBuffer watermarkedFileResponse);
            out_ContentType := "application/pdf" |})
    (fun _ => read attachment ;;; ret tt).

(** The body of [for (const tempFile of tempFiles)]. *)
Definition cleanup (i : nat) (tempFile : string) : M unit :=
  try_catch
    (emit (Storage_remove "funder-logos" tempFile) ;;;
     match storage_remove w tempFile with
     | Some e => throw e
     | None => ret tt
     end)
    (fun _ => ret tt).

(** Lines 203-226: the mail, once the temporary files are removed. *)
Definition relay (funder : Funder) (senderName : string) : M Response :=
  watermarked <- get_watermarked ;;
  match watermarked with
  | [] => respond 500 (Body_error "Watermarking failed for all attachments")
  | _ =>
      send w {| msg_From := "gateway@aquamark.io";
                msg_ReplyTo := senderEmail req;
                msg_To := destination_email funder;
                msg_Subject := ("New Submission - " ++ company_name funder)%string;
                msg_TextBody := ("Submitted by: " ++ senderName ++ " ("
                                   ++ Js.str (senderEmail req) ++ ")")%string;
                msg_Attachments := watermarked |} ;;;
      ret {| status := 200;
             body := Body_success "Email processed and forwarded"
                                  "attachments" (List.length watermarked) |}
  end.

(** The handler once the funder is found. *)
Definition process (id : string) (funder : Funder) : M Response :=
  senderName <- read_senderName ;;
  no_attachments req ;;;
  for_of (attempt funder senderName) 0 (Attachments req) ;;;
  temps <- get_temp ;;
  for_of cleanup 0 temps ;;;
  relay funder senderName.

Definition webhook_inbound : M Response :=
  id <- read_funderId req ;;
  funder <- lookup_funder w id ;;
  process id funder.

Definition handle : Response * State := run webhook_inbound.

End Handler.

End Staging.

(** ** src/unnamed/part_002 *)

Module AsyncBatch.

(** The variables of the poll loop. *)
Record Poll := {
  attempts : nat;
  jobCompleted : bool;
  downloadUrl : option string
}.

Section Handler.

Context {E : Type} {element : Element E}.

Variable w : World.
Variable req : Inbound E.

(** [emailData.Subject || 'New Submission'] *)
Definition originalSubject : string :=
  Js.str (Js.or (Subject req) (Some "New Submission")).

(** [emailData.TextBody || emailData.HtmlBody || ''] *)
Definition originalBody : string :=
  Js.str (Js.or (Js.or (TextBody req) (HtmlBody req)) (Some "")).

(** [attachments.filter(att => att.Name.toLowerCase().endsWith('.pdf'))]:
    the callback reads [att.Name] of every element in turn, and throws at
    the first [null]. *)
Definition filter_reads : M unit :=
  for_of (fun _ att => read att ;;; ret tt) 0 (Attachments req).

(** The array the filter returns when no read has thrown. *)
Definition pdfAttachments : list RawAttachment :=
  filter (fun att => is_pdf (Name att)) (objects (Attachments req)).

Definition files : list (string * string) :=
  map (fun att => (Name att, Content att)) pdfAttachments.

Definition no_pdf_attachments : M unit :=
  match pdfAttachments with
  | [] => respond 200 (Body_message "No PDF attachments to process")
  | _ => ret tt
  end.

Definition job_status_url (jobId : option string) : string :=
  (Js.replace "/watermark-funder-broker" "" (FUNDER_API_URL w)
     ++ "/job-status/" ++ Js.str jobId)%string.

(** One iteration of [while (attempts < 15 && !jobCompleted)]. *)
Definition poll_once (jobId : option string) (p : Poll) : M Poll :=
  emit (Set_timeout 2000) ;;;
  emit (Fetch_job_status (job_status_url jobId)) ;;;
  statusResponse <- await (job_status_poll w (attempts p) (job_status_url jobId)) ;;
  observed <-
    (if ok statusResponse then
       status <- settle (json statusResponse) ;;
       if String.eqb (job_status status) "completed" then
         ret {| attempts := attempts p;
                jobCompleted := true;
                downloadUrl := download_url status |}
       else if String.eqb (job_status status) "failed" then
         throw (Error ("Watermarking job failed: "
                         ++ Js.str (error_message status))%string)
       else ret p
     else ret p) ;;
  ret {| attempts := S (attempts observed);
         jobCompleted := jobCompleted observed;
         downloadUrl := downloadUrl observed |}.

Definition poll_guard (p : Poll) : bool :=
  (attempts p <? 15)%nat && negb (jobCompleted p).

Fixpoint poll_while (fuel : nat) (jobId : option string) (p : Poll) : M Poll :=
  match fuel with
  | 0 => ret p
  | S fuel' =>
      if poll_guard p then
        p' <- poll_once jobId p ;;
        poll_while fuel' jobId p'
      else ret p
  end.

Definition poll_start : Poll :=
  {| attempts := 0; jobCompleted := false; downloadUrl := None |}.

(** The loop runs at most fifteen times, see [poll_while_fuel]. *)
Definition poll (jobId : option string) : M Poll :=
  poll_while 15 jobId poll_start.

(** [zipEntries.filter(...).map(...)] *)
Definition unpack (zipEntries : list ZipEntry) : list ProcessedAttachment :=
  map (fun entry => {| out_Name := entryName entry;
                       out_Content := Buffer.to_base64 (getData entry);
                       out_ContentType := "application/pdf" |})
      (filter (fun entry => negb (isDirectory entry) && is_pdf (entryName entry))
              zipEntries).

(** Lines 126-153: the batch is posted, the answer names the job. *)
Definition submit (funder : Funder) (brokerDomain : option string)
    : M (option string) :=
  let watermarkPayload := Payload_files (user_email funder) brokerDomain files in
  emit (Fetch_watermark (FUNDER_API_URL w) watermarkPayload) ;;;
  watermarkResponse <- await (watermark_files w watermarkPayload) ;;
  (if ok watermarkResponse then ret tt
   else throw (Error ("Watermarking API failed ("
                      ++ Js.num (http_status watermarkResponse) ++ "): "
                      ++ text watermarkResponse)%string)) ;;;
  settle (json watermarkResponse).

(** Lines 184-200: after the loop, the ZIP is downloaded and opened. *)
Definition fetch_archive (polled : Poll) : M (list ZipEntry) :=
  (if jobCompleted polled then ret tt
   else throw (Error "Watermarking job timed out")) ;;;
  emit (Fetch_download (Js.str (downloadUrl polled))) ;;;
  downloadResponse <- await (download w 0 (Js.str (downloadUrl polled))) ;;
  (if ok downloadResponse then ret tt
   else throw (Error ("Failed to download watermarked file: "
                      ++ statusText downloadResponse)%string)) ;;;
  settle (AdmZip w (arrayBuffer downloadResponse)).

(** Lines 202-235: the PDFs of the archive are mailed to the funder. *)
Definition relay (funder : Funder) (sender : string)
    (zipEntries : list ZipEntry) : M Response :=
  let watermarked := unpack zipEntries in
  match watermarked with
  | [] => throw (Error "No PDF files found in watermarked ZIP")
  | _ =>
      send w {| msg_From := "Aquamark <gateway@aquamark.io>";
                msg_ReplyTo := Some sender;
                msg_To := destination_email funder;
                msg_Subject := originalSubject;
                msg_TextBody := originalBody;
                msg_Attachments := watermarked |} ;;;
      ret {| status := 200;
             body := Body_success "Email processed and forwarded"
                                  "files_processed" (List.length files) |}
  end.

(** The inner [try] block. *)
Definition watermark_and_send (funder : Funder) (sender : string)
    (brokerDomain : option string) : M Response :=
  jobId <- submit funder brokerDomain ;;
  polled <- poll jobId ;;
  zipEntries <- fetch_archive polled ;;
  relay funder sender zipEntries.

Definition processing_failed {A} (error : Exn) : M A :=
  respond 500 (Body_error ("Processing failed: " ++ message error)%string).

(** The handler once the funder is found. *)
Definition process (id : string) (funder : Funder) : M Response :=
  sender <- read_brokerDomain req ;;
  no_attachments req ;;;
  filter_reads ;;;
  no_pdf_attachments ;;;
  try_catch (watermark_and_send funder (fst sender) (snd sender)) processing_failed.

Definition webhook_inbound : M Response :=
  id <- read_funderId req ;;
  funder <- lookup_funder w id ;;
  process id funder.

Definition handle : Response * State := run webhook_inbound.

End Handler.

End AsyncBatch.

(** ** Small runs of the three versions *)

Module Samples.

Definition acme : Funder :=
  {| funder_id := "acme"; active := true;
     destination_email := "ops@acme.example"; company_name := "Acme";
     user_email := "owner@acme.example"; logo_storage_path := "acme.png" |}.

Definition reply {J} (j : Exn + J) (buf : string) : Fetched J :=
  Resolved {| ok := true; http_status := 200; statusText := "OK";
              text := ""; json := j; arrayBuffer := buf |}.

Definition unavailable {J} : Fetched J :=
  Resolved {| ok := false; http_status := 503; statusText := "Service Unavailable";
              text := "down"; json := inl (Error "Unexpected token"); arrayBuffer := "" |}.

Definition pending : Fetched JobStatus :=
  reply (inr {| job_status := "pending"; download_url := None;
                error_message := None |}) "".

Definition archive : list ZipEntry :=
  [ {| entryName := "a.pdf"; isDirectory := false; getData := "one" |};
    {| entryName := "docs/"; isDirectory := true; getData := "" |};
    {| entryName := "b.PDF"; isDirectory := false; getData := "two" |};
    {| entryName := "notes.txt"; isDirectory := false; getData := "n" |};
    {| entryName := "docs/c.pdf"; isDirectory := false; getData := "three" |} ].

Definition completed : Fetched JobStatus :=
  reply (inr {| job_status := "completed";
                download_url := Some "https://api.example/out.zip";
                error_message := None |}) "".

Definition failed : Fetched JobStatus :=
  reply (inr {| job_status := "failed"; download_url := None;
                error_message := Some "corrupt PDF" |}) "".

(** A world from its funders, the fate of the i-th upload and of the i-th
    watermarking call, the answers of the status polls and the archive. *)
Definition make (funders : list Funder) (uploads : nat -> UploadResult)
    (marks : nat -> bool) (statuses : nat -> Fetched JobStatus)
    (entries : list ZipEntry) : World :=
  {| SUPABASE_URL := "https://db.example";
     FUNDER_API_URL := "https://api.example/watermark-funder-broker";
     email_gateway_funders := funders;
     directory_error := false;
     Date_now := fun i => (1700000000000 + N.of_nat i)%N;
     getPublicUrl := fun bucket path =>
       ("https://db.example/storage/v1/object/public/" ++ bucket ++ "/" ++ path)%string;
     storage_upload := fun i _ _ => uploads i;
     storage_remove := fun _ => None;
     watermark_inline := fun i _ =>
       if marks i then reply (inr "bWFya2Vk") "" else unavailable;
     watermark_url := fun i _ =>
       if marks i then reply (inr "https://api.example/out.pdf") "" else unavailable;
     watermark_files := fun _ => reply (inr (Some "job-1")) "";
     job_status_poll := fun i _ => statuses i;
     download := fun _ _ => reply (inr tt) "marked";
     AdmZip := fun _ => inr entries;
     sendEmail := fun _ => None |}.

(** Everything works; the job completes on the third poll. *)
Definition world : World :=
  make [acme] (fun _ => Upload_ok) (fun _ => true)
       (fun i => if (i <? 2)%nat then pending else completed) archive.

Definition pdf (name : string) : RawAttachment :=
  {| Name := name; Content := "JVBERg=="; ContentType := "application/pdf" |}.

Definition mail (to : option string) (atts : list RawAttachment) : emailData :=
  {| ToFull := []; To := to; From := Some "broker@deals.example";
     FromName := Some "Broker"; FromFull := None; Subject := Some "Deal";
     TextBody := Some "see attached"; HtmlBody := None; Attachments := atts |}.

End Samples.

(** * Properties *)

(** ** Vocabulary *)

Open Scope nat_scope.

Definition has_separator (s : string) : bool :=
  existsb (fun c => Ascii.eqb c "@"%char) (list_ascii_of_string s).

Definition join (s d : State) : State :=
  {| trace := trace s ++ trace d;
     watermarkedAttachments := watermarkedAttachments s ++ watermarkedAttachments d;
     tempFiles := tempFiles s ++ tempFiles d |}.

(** A computation is [framed] when it only appends to the state it is
    given, and does the same whatever that state is. *)
Definition framed {A} (m : M A) : Prop :=
  forall s, m s = (fst (m initial), join s (snd (m initial))).

(** Every call a computation [adds] to the trace satisfies [P]. *)
Definition adds {A} (P : Event -> Prop) (m : M A) : Prop :=
  forall s, exists t, trace (snd (m s)) = trace s ++ t /\ Forall P t.

Definition any_event (e : Event) : Prop := True.

(** The state a loop adds, iteration by iteration. *)
Fixpoint deltas {A} (body : nat -> A -> M unit) (i : nat) (l : list A) : State :=
  match l with
  | [] => initial
  | x :: r => join (snd (body i x initial)) (deltas body (S i) r)
  end.

(** The state after the directory was queried, and nothing else. *)
Definition queried (id : string) : State :=
  {| trace := [Directory_query id]; watermarkedAttachments := []; tempFiles := [] |}.

(** A state with more calls in its trace. *)
Definition log (s : State) (t : list Event) : State :=
  {| trace := trace s ++ t;
     watermarkedAttachments := watermarkedAttachments s;
     tempFiles := tempFiles s |}.

(** What one status poll tells the loop. *)
Inductive Observed :=
| Completed (download_url : option string)
| Failed (error_message : option string)
| Continue
| Aborted (e : Exn).

(** [Continue] is a non-ok response or any status other than [completed]
    and [failed]; [Aborted] is a rejected request or an unreadable body. *)
Definition observe (f : Fetched JobStatus) : Observed :=
  match f with
  | Rejected e => Aborted e
  | Resolved r =>
      if ok r then
        match json r with
        | inl e => Aborted e
        | inr st =>
            if String.eqb (job_status st) "completed" then Completed (download_url st)
            else if String.eqb (job_status st) "failed" then Failed (error_message st)
            else Continue
        end
      else Continue
  end.

(** [n] polls, each after a delay of 2000 ms. *)
Fixpoint rounds (url : string) (n : nat) : list Event :=
  match n with
  | 0 => []
  | S n' => Set_timeout 2000 :: Fetch_job_status url :: rounds url n'
  end.

Definition is_poll (e : Event) : bool :=
  match e with
  | Fetch_job_status _ => true
  | _ => false
  end.

(** The number of status polls in a trace. *)
Definition polls (t : list Event) : nat := List.length (filter is_poll t).

(** The loop variables while the job is not completed. *)
Definition polling (a : nat) (u : option string) : AsyncBatch.Poll :=
  {| AsyncBatch.attempts := a;
     AsyncBatch.jobCompleted := false;
     AsyncBatch.downloadUrl := u |}.

(** The answer of the asynchronous version when the inner [try] fails. *)
Definition ProcessingFailed (e : Exn) : Response :=
  {| status := 500;
     body := Body_error ("Processing failed: " ++ message e)%string |}.

(** The benign answer when there is nothing to watermark. *)
Definition NoOp (msg : string) : Response :=
  {| status := 200; body := Body_message msg |}.

(** A mail sent under a fixed identity of the gateway, with replies going
    to the original sender and the funder's destination as recipient. *)
Definition relayed_by_gateway (identity : string) (req : emailData)
    (funder : Funder) (e : Event) : Prop :=
  match e with
  | Send_email m =>
      msg_From m = identity /\
      msg_ReplyTo m = senderEmail req /\
      msg_To m = destination_email funder
  | _ => True
  end.

(** A mail sent under the original sender's own address, without reply-to. *)
Definition relayed_as_sender (req : emailData) (funder : Funder) (e : Event) : Prop :=
  match e with
  | Send_email m =>
      Some (msg_From m) = senderEmail req /\
      msg_ReplyTo m = None /\
      msg_To m = destination_email funder
  | _ => True
  end.

(** The attachment made from one entry of the archive. *)
Definition attachment_of_entry (e : ZipEntry) : ProcessedAttachment :=
  {| out_Name := entryName e;
     out_Content := Buffer.to_base64 (getData e);
     out_ContentType := "application/pdf" |}.

(** A file of the archive, not a directory, whose name ends in [.pdf]. *)
Definition is_document_entry (e : ZipEntry) : Prop :=
  isDirectory e = false /\ is_pdf (entryName e) = true.





(** The mails of a trace. *)
Fixpoint sent (t : list Event) : list OutboundMessage :=
  match t with
  | [] => []
  | Send_email m :: r => m :: sent r
  | _ :: r => sent r
  end.

(** The objects a trace uploads with success, and those it removes. *)
Fixpoint uploaded (t : list Event) : list (string * string) :=
  match t with
  | [] => []
  | Storage_upload bucket path _ _ Upload_ok :: r => (bucket, path) :: uploaded r
  | _ :: r => uploaded r
  end.

Fixpoint removed (t : list Event) : list (string * string) :=
  match t with
  | [] => []
  | Storage_remove bucket path :: r => (bucket, path) :: removed r
  | _ :: r => removed r
  end.

(** Every successful upload is followed by a removal of the same object. *)
Fixpoint paired (t : list Event) : Prop :=
  match t with
  | [] => True
  | Storage_upload bucket path _ _ Upload_ok :: r =>
      In (Storage_remove bucket path) r /\ paired r
  | _ :: r => paired r
  end.


(** part_001: PDF [i] is watermarked when its upload succeeds, the API
    answers with an ok response and a JSON body, and the download of the
    result is answered. *)
Definition staging_watermarked (w : World) (funder : Funder) (senderName : string)
    (i : nat) (attachment : RawAttachment) : option ProcessedAttachment :=
  let path := Staging.tempFileName w i attachment in
  match storage_upload w i path (Buffer.from_base64 (Content attachment)) with
  | Upload_ok =>
      match watermark_url w i
              (Payload_url (user_email funder) (Staging.fileUrl w path) senderName) with
      | Resolved resp =>
          if ok resp then
            match json resp with
            | inr file_url =>
                match download w i file_url with
                | Resolved d =>
                    Some {| out_Name := Name attachment;
                            out_Content := Buffer.to_base64 (arrayBuffer d);
                            out_ContentType := "application/pdf" |}
                | Rejected _ => None
                end
            | inl _ => None
            end
          else None
      | Rejected _ => None
      end
  | _ => None
  end.

Definition is_pdf_attachment (attachment : RawAttachment) : bool :=
  is_pdf (Name attachment).



(** ** Vocabulary of the further properties *)

(** [pieces.join(sep)] *)
Fixpoint join_with (sep : ascii) (pieces : list string) : string :=
  match pieces with
  | [] => EmptyString
  | [p] => p
  | p :: rest => (p ++ String sep (join_with sep rest))%string
  end.

(** The rows the directory query matches. *)
Definition matching_rows (w : World) (id : string) : list Funder :=
  filter (fun f => String.eqb (funder_id f) id && active f) (email_gateway_funders w).

(** [emailData.FromName || emailData.FromFull?.Name] *)
Definition display_name (req : emailData) : option string :=
  Js.or (FromName req) (match FromFull req with
                        | Some a => FullName a
                        | None => None
                        end).

(** The bodies posted to the watermarking API, in order. *)
Fixpoint watermark_calls (t : list Event) : list WatermarkPayload :=
  match t with
  | [] => []
  | Fetch_watermark _ payload :: r => payload :: watermark_calls r
  | _ :: r => watermark_calls r
  end.

(** The number of uploads attempted. *)
Fixpoint upload_attempts (t : list Event) : nat :=
  match t with
  | [] => 0
  | Storage_upload _ _ _ _ _ :: r => S (upload_attempts r)
  | _ :: r => upload_attempts r
  end.

(** Worlds that differ from a given one in a single collaborator. *)
Module Scenario.

Definition with_watermark_files (w : World)
    (f : WatermarkPayload -> Fetched (option string)) : World :=
  {| SUPABASE_URL := SUPABASE_URL w; FUNDER_API_URL := FUNDER_API_URL w;
     email_gateway_funders := email_gateway_funders w;
     directory_error := directory_error w; Date_now := Date_now w;
     getPublicUrl := getPublicUrl w; storage_upload := storage_upload w;
     storage_remove := storage_remove w; watermark_inline := watermark_inline w;
     watermark_url := watermark_url w; watermark_files := f;
     job_status_poll := job_status_poll w; download := download w;
     AdmZip := AdmZip w; sendEmail := sendEmail w |}.

Definition with_download (w : World) (f : nat -> string -> Fetched unit) : World :=
  {| SUPABASE_URL := SUPABASE_URL w; FUNDER_API_URL := FUNDER_API_URL w;
     email_gateway_funders := email_gateway_funders w;
     directory_error := directory_error w; Date_now := Date_now w;
     getPublicUrl := getPublicUrl w; storage_upload := storage_upload w;
     storage_remove := storage_remove w; watermark_inline := watermark_inline w;
     watermark_url := watermark_url w; watermark_files := watermark_files w;
     job_status_poll := job_status_poll w; download := f;
     AdmZip := AdmZip w; sendEmail := sendEmail w |}.

Definition with_sendEmail (w : World) (f : OutboundMessage -> option Exn) : World :=
  {| SUPABASE_URL := SUPABASE_URL w; FUNDER_API_URL := FUNDER_API_URL w;
     email_gateway_funders := email_gateway_funders w;
     directory_error := directory_error w; Date_now := Date_now w;
     getPublicUrl := getPublicUrl w; storage_upload := storage_upload w;
     storage_remove := storage_remove w; watermark_inline := watermark_inline w;
     watermark_url := watermark_url w; watermark_files := watermark_files w;
     job_status_poll := job_status_poll w; download := download w;
     AdmZip := AdmZip w; sendEmail := f |}.

Definition with_remove (w : World) (f : string -> option Exn) : World :=
  {| SUPABASE_URL := SUPABASE_URL w; FUNDER_API_URL := FUNDER_API_URL w;
     email_gateway_funders := email_gateway_funders w;
     directory_error := directory_error w; Date_now := Date_now w;
     getPublicUrl := getPublicUrl w; storage_upload := storage_upload w;
     storage_remove := f; watermark_inline := watermark_inline w;
     watermark_url := watermark_url w; watermark_files := watermark_files w;
     job_status_poll := job_status_poll w; download := download w;
     AdmZip := AdmZip w; sendEmail := sendEmail w |}.

Definition one_pdf : emailData :=
  Samples.mail (Some "acme@gateway.example") [Samples.pdf "a.pdf"].

Definition job_accepted : FetchResponse (option string) :=
  {| ok := true; http_status := 200; statusText := "OK"; text := "";
     json := inr (Some "job-1"); arrayBuffer := "" |}.

End Scenario.

(** A call that is neither the directory query nor the mail. *)
Definition quiet (e : Event) : Prop :=
  match e with
  | Directory_query _ | Send_email _ => False
  | _ => True
  end.

(** The ways a request ends: the response and the calls made.  [inner]
    tells whether the version has the inner [try]/[catch] of part_002,
    which answers "Processing failed: ..." where the others fall through
    to the catch-all or to "Watermarking failed for all attachments". *)
Inductive Ended (w : World) (inner : bool) : Response -> list Event -> Prop :=
| Ended_no_recipient :
    Ended w inner InternalError []
| Ended_not_found id :
    Ended w inner TenantNotFound [Directory_query id]
| Ended_no_sender id :
    Ended w inner InternalError [Directory_query id]
| Ended_nothing id msg :
    Ended w inner (NoOp msg) [Directory_query id]
| Ended_all_failed id t :
    inner = false -> Forall quiet t ->
    Ended w inner AllWatermarksFailed (Directory_query id :: t)
| Ended_failed id t e :
    inner = true -> Forall quiet t ->
    Ended w inner (ProcessingFailed e) (Directory_query id :: t)
| Ended_refused id t m e :
    Forall quiet t -> sendEmail w m = Some e ->
    Ended w inner (if inner then ProcessingFailed e else InternalError)
          (Directory_query id :: t ++ [Send_email m])
| Ended_relayed id t m counter n :
    Forall quiet t -> sendEmail w m = None ->
    msg_Attachments m <> [] -> 0 < n ->
    Ended w inner (success counter n) (Directory_query id :: t ++ [Send_email m]).

(** The three versions of the handler on one request, each with whether
    it has the inner [catch]. *)
Definition versions (w : World) (req : emailData) : list (bool * (Response * State)) :=
  [(false, Inline.handle w req);
   (false, Staging.handle w req);
   (true, AsyncBatch.handle w req)].


(** The collaborator calls each version makes, and how. *)
Definition inline_uses (w : World) (e : Event) : Prop :=
  match e with
  | Directory_query _ | Send_email _ => True
  | Storage_getPublicUrl bucket _ => bucket = "gateway-logos"
  | Fetch_watermark url (Payload_inline _ _ _ _ _) => url = FUNDER_API_URL w
  | _ => False
  end.

Definition staging_uses (w : World) (e : Event) : Prop :=
  match e with
  | Directory_query _ | Send_email _ | Fetch_download _ => True
  | Storage_getPublicUrl bucket _ | Storage_remove bucket _
  | Storage_upload bucket _ _ _ _ => bucket = "funder-logos"
  | Fetch_watermark url (Payload_url _ _ _) => url = FUNDER_API_URL w
  | _ => False
  end.

Definition async_uses (w : World) (e : Event) : Prop :=
  match e with
  | Directory_query _ | Send_email _ | Fetch_download _ | Fetch_job_status _ => True
  | Set_timeout ms => ms = 2000%N
  | Fetch_watermark url (Payload_files _ _ _) => url = FUNDER_API_URL w
  | _ => False
  end.

(** [a || b] on a text with a default: the text when it is present and not
    empty. *)
Definition nonempty_or (a : option string) (b : string) : string :=
  match a with
  | Some (String c s) => String c s
  | _ => b
  end.

(** The subject and body of the mails of each version. *)
Definition inline_text (e : Event) : Prop :=
  match e with
  | Send_email m => msg_Subject m = "New Submission" /\ msg_TextBody m = ""
  | _ => True
  end.

(** The name of the sender for part_001: [FromName] when it is not empty,
    else [FromFull.Name] when it is not empty, else the text before the
    first [@] of the sender address. *)
Definition sender_name (req : emailData) : option string :=
  match FromName req with
  | Some (String c name) => Some (String c name)
  | _ =>
      match FromFull req with
      | Some {| FullName := Some (String c name) |} => Some (String c name)
      | _ => option_map funderId (senderEmail req)
      end
  end.

Definition staging_text (req : emailData) (funder : Funder) (senderName : string)
    (e : Event) : Prop :=
  match e with
  | Send_email m =>
      msg_Subject m = ("New Submission - " ++ company_name funder)%string /\
      msg_TextBody m
      = ("Submitted by: " ++ senderName ++ " ("
           ++ match senderEmail req with Some a => a | None => "undefined" end
           ++ ")")%string
  | _ => True
  end.

Definition async_text (req : emailData) (e : Event) : Prop :=
  match e with
  | Send_email m =>
      msg_Subject m = nonempty_or (Subject req) "New Submission" /\
      msg_TextBody m = nonempty_or (TextBody req) (nonempty_or (HtmlBody req) "")
  | _ => True
  end.
(** ** Strings *)

Lemma split_nonempty (sep : ascii) (s : string) : Js.split sep s <> [].
Proof.
  destruct s as [|c r]; simpl; [discriminate|].
  destruct (Ascii.eqb c sep); [discriminate|].
  destruct (Js.split sep r); discriminate.
Qed.

Lemma funderId_cons (c : ascii) (r : string) :
  funderId (String c r) =
  if Ascii.eqb c "@"%char then EmptyString else String c (funderId r).
Proof.
  unfold funderId. simpl.
  destruct (Ascii.eqb c "@"); [reflexivity|].
  destruct (Js.split "@" r) eqn:E; [|reflexivity].
  now apply split_nonempty in E.
Qed.

Lemma funderId_whole (s : string) :
  has_separator s = false -> funderId s = s.
Proof.
  unfold has_separator.
  induction s as [|c r IH]; intros H; [reflexivity|].
  rewrite funderId_cons. cbn [existsb list_ascii_of_string] in H.
  apply orb_false_elim in H. destruct H as [Hc Hr].
  rewrite Hc, IH; auto.
Qed.

Lemma funderId_prefix (key rest : string) :
  has_separator key = false ->
  funderId (key ++ String "@"%char rest)%string = key.
Proof.
  unfold has_separator.
  induction key as [|c r IH]; intros H.
  - reflexivity.
  - change (funderId (String c (r ++ String "@" rest)%string) = String c r).
    rewrite funderId_cons. cbn [existsb list_ascii_of_string] in H.
    apply orb_false_elim in H. destruct H as [Hc Hr].
    rewrite Hc, IH; auto.
Qed.

(** ** States only grow *)

Lemma join_initial_r (s : State) : join s initial = s.
Proof. destruct s; unfold join; simpl; now rewrite !app_nil_r. Qed.

Lemma join_assoc (a b c : State) : join (join a b) c = join a (join b c).
Proof. unfold join; simpl; now rewrite !app_assoc. Qed.

Lemma framed_ret {A} (a : A) : framed (ret a).
Proof. intros s. unfold ret. simpl. now rewrite join_initial_r. Qed.

Lemma framed_throw {A} (e : Exn) : framed (@throw A e).
Proof. intros s. unfold throw. simpl. now rewrite join_initial_r. Qed.

Lemma framed_respond {A} (n : N) (b : Body) : framed (@respond A n b).
Proof. intros s. unfold respond. simpl. now rewrite join_initial_r. Qed.

Lemma framed_emit (e : Event) : framed (emit e).
Proof. intros s. unfold emit, join. simpl. now rewrite !app_nil_r. Qed.

Lemma framed_push_watermarked (a : ProcessedAttachment) : framed (push_watermarked a).
Proof. intros s. unfold push_watermarked, join. simpl. now rewrite !app_nil_r. Qed.

Lemma framed_push_temp (p : string) : framed (push_temp p).
Proof. intros s. unfold push_temp, join. simpl. now rewrite !app_nil_r. Qed.

Lemma framed_await {J} (f : Fetched J) : framed (await f).
Proof. destruct f; [apply framed_throw | apply framed_ret]. Qed.

Lemma framed_settle {A} (r : Exn + A) : framed (settle r).
Proof. destruct r; [apply framed_throw | apply framed_ret]. Qed.

Lemma framed_read {E} `{Element E} (x : E) : framed (read x).
Proof. unfold read. destruct (object x); [apply framed_ret | apply framed_throw]. Qed.

Lemma framed_bind {A B} (m : M A) (k : A -> M B) :
  framed m -> (forall a, framed (k a)) -> framed (bind m k).
Proof.
  intros Hm Hk s. unfold bind. rewrite (Hm s).
  destruct (m initial) as [[a|e|r] d]; simpl; try reflexivity.
  rewrite (Hk a (join s d)), (Hk a d), join_assoc. reflexivity.
Qed.

Lemma framed_try_catch {A} (m : M A) (h : Exn -> M A) :
  framed m -> (forall e, framed (h e)) -> framed (try_catch m h).
Proof.
  intros Hm Hh s. unfold try_catch. rewrite (Hm s).
  destruct (m initial) as [[a|e|r] d]; simpl; try reflexivity.
  rewrite (Hh e (join s d)), (Hh e d), join_assoc. reflexivity.
Qed.

Lemma framed_for_of {A} (body : nat -> A -> M unit) :
  (forall i x, framed (body i x)) -> forall l i, framed (for_of body i l).
Proof.
  intros Hb l. induction l as [|x r IH]; intros i; simpl.
  - apply framed_ret.
  - apply framed_bind; auto.
Qed.

Create HintDb framed.
#[export] Hint Resolve framed_ret framed_throw framed_respond framed_emit
  framed_push_watermarked framed_push_temp framed_await framed_settle
  framed_read framed_for_of : framed.

Ltac framed_step :=
  match goal with
  | |- framed (bind _ _) => apply framed_bind; [|intros ?]
  | |- framed (try_catch _ _) => apply framed_try_catch; [|intros ?]
  | |- framed (if ?b then _ else _) => destruct b
  | |- framed (match ?x with _ => _ end) => destruct x
  | |- framed _ => solve [auto with framed]
  end.

Ltac framed_auto := repeat framed_step.

Lemma for_of_deltas {A} (body : nat -> A -> M unit) :
  (forall i x, framed (body i x)) ->
  (forall i x, fst (body i x initial) = Val tt) ->
  forall l i s, for_of body i l s = (Val tt, join s (deltas body i l)).
Proof.
  intros Hf Hv l. induction l as [|x r IH]; intros i s; simpl.
  - now rewrite join_initial_r.
  - unfold bind. rewrite (Hf i x s), (Hv i x). simpl.
    rewrite IH, join_assoc. reflexivity.
Qed.

Section Adds.

Variable P : Event -> Prop.

Lemma adds_nothing {A} (m : M A) :
  (forall s, snd (m s) = s) -> adds P m.
Proof. intros H s. exists []. rewrite H, app_nil_r. auto. Qed.

Lemma adds_ret {A} (a : A) : adds P (ret a).
Proof. now apply adds_nothing. Qed.

Lemma adds_throw {A} (e : Exn) : adds P (@throw A e).
Proof. now apply adds_nothing. Qed.

Lemma adds_respond {A} (n : N) (b : Body) : adds P (@respond A n b).
Proof. now apply adds_nothing. Qed.

Lemma adds_get_watermarked : adds P get_watermarked.
Proof. now apply adds_nothing. Qed.

Lemma adds_get_temp : adds P get_temp.
Proof. now apply adds_nothing. Qed.

Lemma adds_push_watermarked (a : ProcessedAttachment) : adds P (push_watermarked a).
Proof. intros s. exists []. simpl. rewrite app_nil_r. auto. Qed.

Lemma adds_push_temp (p : string) : adds P (push_temp p).
Proof. intros s. exists []. simpl. rewrite app_nil_r. auto. Qed.

Lemma adds_await {J} (f : Fetched J) : adds P (await f).
Proof. destruct f; now apply adds_nothing. Qed.

Lemma adds_settle {A} (r : Exn + A) : adds P (settle r).
Proof. destruct r; now apply adds_nothing. Qed.

Lemma adds_read {E} `{Element E} (x : E) : adds P (read x).
Proof. unfold read. destruct (object x); now apply adds_nothing. Qed.

Lemma adds_emit (e : Event) : P e -> adds P (emit e).
Proof. intros H s. exists [e]. simpl. auto. Qed.

Lemma adds_bind {A B} (m : M A) (k : A -> M B) :
  adds P m -> (forall a, adds P (k a)) -> adds P (bind m k).
Proof.
  intros Hm Hk s. unfold bind. destruct (Hm s) as (t & Ht & Pt).
  destruct (m s) as [[a|e|r] s']; simpl in *; eauto.
  destruct (Hk a s') as (t' & Ht' & Pt'). exists (t ++ t').
  rewrite Ht', Ht, <- app_assoc. split; [reflexivity|]. apply Forall_app; auto.
Qed.

Lemma adds_bind_ret {A B} (a : A) (k : A -> M B) :
  adds P (k a) -> adds P (bind (ret a) k).
Proof. intros H s. exact (H s). Qed.

Lemma adds_bind_throw {A B} (e : Exn) (k : A -> M B) :
  adds P (bind (throw e) k).
Proof. now apply adds_nothing. Qed.

Lemma adds_bind_respond {A B} (n : N) (b : Body) (k : A -> M B) :
  adds P (bind (respond n b) k).
Proof. now apply adds_nothing. Qed.

Lemma adds_try_catch {A} (m : M A) (h : Exn -> M A) :
  adds P m -> (forall e, adds P (h e)) -> adds P (try_catch m h).
Proof.
  intros Hm Hh s. unfold try_catch. destruct (Hm s) as (t & Ht & Pt).
  destruct (m s) as [[a|e|r] s']; simpl in *; eauto.
  destruct (Hh e s') as (t' & Ht' & Pt'). exists (t ++ t').
  rewrite Ht', Ht, <- app_assoc. split; [reflexivity|]. apply Forall_app; auto.
Qed.

Lemma adds_for_of {A} (body : nat -> A -> M unit) :
  (forall i x, adds P (body i x)) -> forall l i, adds P (for_of body i l).
Proof.
  intros Hb l. induction l as [|x r IH]; intros i; simpl.
  - apply adds_ret.
  - apply adds_bind; auto.
Qed.

Lemma adds_poll_while (w : World) (jobId : option string) (fuel : nat) :
  (forall p, adds P (AsyncBatch.poll_once w jobId p)) ->
  forall p, adds P (AsyncBatch.poll_while w fuel jobId p).
Proof.
  intros H. induction fuel as [|fuel IH]; intros p; simpl.
  - apply adds_ret.
  - destruct (AsyncBatch.poll_guard p); [|apply adds_ret].
    apply adds_bind; auto.
Qed.

End Adds.

Ltac adds_step :=
  match goal with
  | |- adds _ (bind (ret _) _) => apply adds_bind_ret
  | |- adds _ (bind (throw _) _) => apply adds_bind_throw
  | |- adds _ (bind (respond _ _) _) => apply adds_bind_respond
  | |- adds _ (bind (match ?x with _ => _ end) _) => destruct x eqn:?
  | |- adds _ (bind _ _) => apply adds_bind; [|intros ?]
  | |- adds _ (try_catch _ _) => apply adds_try_catch; [|intros ?]
  | |- adds _ (for_of _ _ _) => apply adds_for_of; intros ? ?
  | |- adds _ (AsyncBatch.poll_while _ _ _ _) =>
      apply adds_poll_while; intros ?; unfold AsyncBatch.poll_once
  | |- adds _ (emit _) => apply adds_emit
  | |- adds _ (ret _) => apply adds_ret
  | |- adds _ (throw _) => apply adds_throw
  | |- adds _ (respond _ _) => apply adds_respond
  | |- adds _ get_watermarked => apply adds_get_watermarked
  | |- adds _ get_temp => apply adds_get_temp
  | |- adds _ (push_watermarked _) => apply adds_push_watermarked
  | |- adds _ (push_temp _) => apply adds_push_temp
  | |- adds _ (await _) => apply adds_await
  | |- adds _ (settle _) => apply adds_settle
  | |- adds _ (read _) => apply adds_read
  | |- adds _ (if ?b then _ else _) => destruct b eqn:?
  | |- adds _ (match ?x with _ => _ end) => destruct x eqn:?
  end.

(** Unfolds one version down to the primitives of the monad. *)
Ltac unfold_handler :=
  unfold Inline.process, Inline.relay, Inline.attempt,
    Staging.process, Staging.relay, Staging.attempt, Staging.cleanup,
    Staging.read_senderName,
    AsyncBatch.process, AsyncBatch.watermark_and_send, AsyncBatch.poll,
    AsyncBatch.poll_once, AsyncBatch.submit, AsyncBatch.fetch_archive,
    AsyncBatch.relay, AsyncBatch.processing_failed, AsyncBatch.no_pdf_attachments,
    AsyncBatch.filter_reads, read_brokerDomain, undefined_split, no_attachments, send.

Lemma bind_run {A B} (m : M A) (k : A -> M B) (st : State) :
  bind m k st =
  match m st with
  | (Val a, st') => k a st'
  | (Throw e, st') => (Throw e, st')
  | (Return x, st') => (Return x, st')
  end.
Proof. reflexivity. Qed.

Lemma run_state (m : M Response) : snd (run m) = snd (m initial).
Proof. unfold run, answer. now destruct (m initial) as [[a|e|r] s]. Qed.

(** ** Tenant lookup *)

Section Lookup.

Context {Elt : Type}.

Variable w : World.
Variable req : Inbound Elt.

Lemma select_funder_inactive (id : string) :
  (forall f, In f (email_gateway_funders w) -> funder_id f = id -> active f = false) ->
  select_funder w id = None.
Proof.
  intros H. unfold select_funder. destruct (directory_error w); [reflexivity|].
  replace (filter _ _) with (@nil Funder); [reflexivity|].
  induction (email_gateway_funders w) as [|f l IH]; [reflexivity|]. simpl.
  destruct (String.eqb_spec (funder_id f) id) as [E|E]; simpl.
  - rewrite (H f (or_introl eq_refl) E). apply IH. intros g Hg. apply H. now right.
  - apply IH. intros g Hg. apply H. now right.
Qed.

Lemma select_funder_active (id : string) (funder : Funder) :
  select_funder w id = Some funder ->
  In funder (email_gateway_funders w) /\ funder_id funder = id /\ active funder = true.
Proof.
  unfold select_funder. destruct (directory_error w); [discriminate|].
  destruct (filter _ _) as [|f [|g l]] eqn:E; try discriminate.
  intros [= <-].
  assert (In f (filter (fun f => String.eqb (funder_id f) id && active f)
                       (email_gateway_funders w))) as H by (rewrite E; now left).
  apply filter_In in H. destruct H as [H1 H2].
  apply andb_true_iff in H2. destruct H2 as [H2 H3].
  apply String.eqb_eq in H2. auto.
Qed.

(** With a recipient, the handler first queries the directory with the key. *)
Lemma lookup_first {A} (r : string) (rest : string -> Funder -> M A) :
  recipientEmail req = Some r ->
  (id <- read_funderId req ;; funder <- lookup_funder w id ;; rest id funder) initial
  = match select_funder w (funderId r) with
    | Some funder => rest (funderId r) funder (queried (funderId r))
    | None => (Return TenantNotFound, queried (funderId r))
    end.
Proof.
  intros H. unfold read_funderId. rewrite H.
  unfold lookup_funder, bind, ret, emit. simpl.
  now destruct (select_funder w (funderId r)).
Qed.

Lemma lookup_missing {A} (rest : string -> Funder -> M A) :
  recipientEmail req = None ->
  (id <- read_funderId req ;; funder <- lookup_funder w id ;; rest id funder) initial
  = (Throw (TypeError "Cannot read properties of undefined (reading 'split')"),
     initial).
Proof. intros H. unfold read_funderId, bind. now rewrite H. Qed.

End Lookup.

(** ** Each version: the response and the state after the lookup *)

Lemma framed_inline_attempt {E} `{Element E} w funder id brokerDomain i (attachment : E) :
  framed (Inline.attempt w funder id brokerDomain i attachment).
Proof. unfold Inline.attempt. framed_auto. Qed.

Lemma framed_staging_attempt {E} `{Element E} w funder senderName i (attachment : E) :
  framed (Staging.attempt w funder senderName i attachment).
Proof. unfold Staging.attempt. framed_auto. Qed.

(** ** Bodies that follow the schema

    On an element that is an attachment a read finds it; the reads of the
    filter of part_002 then do nothing, and the filter keeps the elements
    with a [.pdf] name. *)

Lemma read_attachment (attachment : RawAttachment) : read attachment = ret attachment.
Proof. reflexivity. Qed.

Lemma objects_attachments (l : list RawAttachment) : objects l = l.
Proof. induction l as [|a l IH]; [reflexivity|]. cbn. now f_equal. Qed.

Lemma filter_reads_attachments (req : emailData) (st : State) :
  AsyncBatch.filter_reads req st = (Val tt, st).
Proof.
  unfold AsyncBatch.filter_reads. generalize 0.
  induction (Attachments req) as [|a l IH]; intros n; [reflexivity|].
  cbn [for_of]. rewrite read_attachment. unfold bind at 1 2. cbn. apply IH.
Qed.

Lemma pdfAttachments_attachments (req : emailData) :
  AsyncBatch.pdfAttachments req
  = filter (fun att => is_pdf (Name att)) (Attachments req).
Proof. unfold AsyncBatch.pdfAttachments. now rewrite objects_attachments. Qed.

Lemma framed_staging_cleanup w i tempFile : framed (Staging.cleanup w i tempFile).
Proof. unfold Staging.cleanup. framed_auto. Qed.

Lemma framed_poll_once w jobId p : framed (AsyncBatch.poll_once w jobId p).
Proof. unfold AsyncBatch.poll_once. framed_auto. Qed.

Lemma framed_poll_while w jobId fuel : forall p, framed (AsyncBatch.poll_while w fuel jobId p).
Proof.
  induction fuel as [|fuel IH]; intros p; simpl.
  - apply framed_ret.
  - destruct (AsyncBatch.poll_guard p); [|apply framed_ret].
    apply framed_bind; [apply framed_poll_once | auto].
Qed.

#[export] Hint Resolve framed_inline_attempt framed_staging_attempt
  framed_staging_cleanup framed_poll_once framed_poll_while : framed.

Lemma adds_any_inline {E} `{Element E} w (req : Inbound E) id funder :
  adds any_event (Inline.process w req id funder).
Proof. unfold_handler. repeat adds_step; exact I. Qed.

Lemma adds_any_staging {E} `{Element E} w (req : Inbound E) id funder :
  adds any_event (Staging.process w req id funder).
Proof. unfold_handler. repeat adds_step; exact I. Qed.

Lemma adds_any_async {E} `{Element E} w (req : Inbound E) id funder :
  adds any_event (AsyncBatch.process w req id funder).
Proof. unfold_handler. repeat adds_step; exact I. Qed.

Lemma handle_starts_with_query {A} (w : World) (req : emailData) (r : string)
    (rest : string -> Funder -> M A) :
  recipientEmail req = Some r ->
  (forall id funder, adds any_event (rest id funder)) ->
  exists t,
    trace (snd ((id <- read_funderId req ;;
                 funder <- lookup_funder w id ;;
                 rest id funder) initial))
    = Directory_query (funderId r) :: t.
Proof.
  intros H G. rewrite (lookup_first w req rest H).
  destruct (select_funder w (funderId r)) as [funder|].
  - destruct (G (funderId r) funder (queried (funderId r))) as (t & Ht & _).
    exists t. exact Ht.
  - exists []. reflexivity.
Qed.

(** ** The recipient address *)

(** C10.  A payload with no recipient address, neither [ToFull[0].Email]
    nor [To], is answered by the catch-all handler with HTTP 500 and the
    generic internal-error body (not 404), and no collaborator is called:
    the trace is empty.  This holds in the three versions. *)
Theorem missing_recipient_is_internal_error (w : World) (req : emailData) :
  match ToFull req with a :: _ => Email a | [] => None end = None ->
  To req = None ->
  Inline.handle w req = (InternalError, initial) /\
  Staging.handle w req = (InternalError, initial) /\
  AsyncBatch.handle w req = (InternalError, initial).
Proof.
  intros H1 H2.
  assert (recipientEmail req = None) as H.
  { unfold recipientEmail. rewrite H1, H2. reflexivity. }
  unfold Inline.handle, Staging.handle, AsyncBatch.handle, run, answer,
    Inline.webhook_inbound, Staging.webhook_inbound, AsyncBatch.webhook_inbound.
  rewrite !lookup_missing by exact H. auto.
Qed.

Lemma missing_recipient_is_internal_error_witness :
  Inline.handle Samples.world (Samples.mail None [Samples.pdf "a.pdf"])
    = (InternalError, initial) /\
  InternalError <> TenantNotFound.
Proof.
  split.
  - apply (missing_recipient_is_internal_error Samples.world
             (Samples.mail None [Samples.pdf "a.pdf"])); reflexivity.
  - discriminate.
Defined.

(** C1, as the code has it.  There is no malformed-recipient failure: an
    address without [@] is its own tenant key, an address [key@rest] has
    the key [key], the text before the first [@]; in both cases the first
    collaborator call of every version is the directory query for that key. *)
Theorem tenant_key_is_text_before_separator (w : World) (req : emailData) (r : string) :
  recipientEmail req = Some r ->
  (has_separator r = false -> funderId r = r) /\
  (forall key rest, has_separator key = false ->
     r = (key ++ String "@"%char rest)%string -> funderId r = key) /\
  (exists t, trace (snd (Inline.handle w req)) = Directory_query (funderId r) :: t) /\
  (exists t, trace (snd (Staging.handle w req)) = Directory_query (funderId r) :: t) /\
  (exists t, trace (snd (AsyncBatch.handle w req)) = Directory_query (funderId r) :: t).
Proof.
  intros H. split; [apply funderId_whole|]. split.
  { intros key rest Hk ->. now apply funderId_prefix. }
  unfold Inline.handle, Staging.handle, AsyncBatch.handle. rewrite !run_state.
  repeat split.
  - apply handle_starts_with_query; [exact H | apply adds_any_inline].
  - apply handle_starts_with_query; [exact H | apply adds_any_staging].
  - apply handle_starts_with_query; [exact H | apply adds_any_async].
Qed.

Lemma tenant_key_is_text_before_separator_witness :
  funderId "acme@gateway.example" = "acme" /\
  exists t,
    trace (snd (AsyncBatch.handle Samples.world
                  (Samples.mail (Some "acme@gateway.example") [])))
    = Directory_query "acme" :: t.
Proof.
  destruct (tenant_key_is_text_before_separator Samples.world
              (Samples.mail (Some "acme@gateway.example") []) eq_refl)
    as (_ & Hkey & _ & _ & Ht).
  split.
  - apply (Hkey "acme" "gateway.example"); reflexivity.
  - exact Ht.
Defined.

(** C1 as stated fails: the address [acme] has no [@], yet every version
    queries the directory with the key [acme], finds the tenant and goes
    on to answer 200. *)
Lemma recipient_without_separator_is_looked_up :
  has_separator "acme" = false /\
  (let req := Samples.mail (Some "acme") [Samples.pdf "a.pdf"] in
   recipientEmail req = Some "acme" /\
   hd_error (trace (snd (Inline.handle Samples.world req)))
     = Some (Directory_query "acme") /\
   hd_error (trace (snd (Staging.handle Samples.world req)))
     = Some (Directory_query "acme") /\
   hd_error (trace (snd (AsyncBatch.handle Samples.world req)))
     = Some (Directory_query "acme") /\
   fst (Inline.handle Samples.world req) = success "attachments" 1 /\
   fst (Staging.handle Samples.world req) = success "attachments" 1 /\
   fst (AsyncBatch.handle Samples.world req) = success "files_processed" 1).
Proof. vm_compute. repeat split. Qed.

(** ** Inactive tenants *)

(** C8.  When every directory row carrying the derived tenant key has
    [active = false] (in particular when the tenant's one row is inactive,
    whatever its other fields), every version answers 404 "Funder not
    found", and the directory query is the only collaborator call of the
    request: no storage, watermarking or mail call is made. *)
Theorem inactive_tenant_is_not_found (w : World) (req : emailData) (r : string) :
  recipientEmail req = Some r ->
  (forall f, In f (email_gateway_funders w) ->
             funder_id f = funderId r -> active f = false) ->
  Inline.handle w req = (TenantNotFound, queried (funderId r)) /\
  Staging.handle w req = (TenantNotFound, queried (funderId r)) /\
  AsyncBatch.handle w req = (TenantNotFound, queried (funderId r)).
Proof.
  intros H Hin.
  unfold Inline.handle, Staging.handle, AsyncBatch.handle, run, answer,
    Inline.webhook_inbound, Staging.webhook_inbound, AsyncBatch.webhook_inbound.
  rewrite !lookup_first with (r := r) by exact H.
  rewrite (select_funder_inactive w Hin). auto.
Qed.

Lemma inactive_tenant_is_not_found_witness :
  let w := {| SUPABASE_URL := SUPABASE_URL Samples.world;
              FUNDER_API_URL := FUNDER_API_URL Samples.world;
              email_gateway_funders :=
                [{| funder_id := "acme"; active := false;
                    destination_email := "ops@acme.example";
                    company_name := "Acme";
                    user_email := "owner@acme.example";
                    logo_storage_path := "acme.png" |}];
              directory_error := false;
              Date_now := Date_now Samples.world;
              getPublicUrl := getPublicUrl Samples.world;
              storage_upload := storage_upload Samples.world;
              storage_remove := storage_remove Samples.world;
              watermark_inline := watermark_inline Samples.world;
              watermark_url := watermark_url Samples.world;
              watermark_files := watermark_files Samples.world;
              job_status_poll := job_status_poll Samples.world;
              download := download Samples.world;
              AdmZip := AdmZip Samples.world;
              sendEmail := sendEmail Samples.world |} in
  AsyncBatch.handle w (Samples.mail (Some "acme@gateway.example") [Samples.pdf "a.pdf"])
  = (TenantNotFound, queried "acme").
Proof.
  intros w.
  apply (inactive_tenant_is_not_found w
           (Samples.mail (Some "acme@gateway.example") [Samples.pdf "a.pdf"])
           (r := "acme@gateway.example") eq_refl).
  intros f [<-|[]] _. reflexivity.
Defined.

(** ** The poll loop *)

Lemma log_nil (s : State) : log s [] = s.
Proof. destruct s. unfold log. simpl. now rewrite app_nil_r. Qed.

Lemma log_log (s : State) (t u : list Event) : log (log s t) u = log s (t ++ u).
Proof. unfold log. simpl. now rewrite app_assoc. Qed.

Lemma rounds_snoc (url : string) (n : nat) :
  rounds url (S n) = rounds url n ++ rounds url 1.
Proof. induction n as [|n IH]; [reflexivity|]. simpl in *. now rewrite IH. Qed.



Section Polling.

Variable w : World.
Variable jobId : option string.

Let url := AsyncBatch.job_status_url w jobId.

(** One iteration: a delay, a poll, and what the poll says. *)
Lemma poll_once_observe (p : AsyncBatch.Poll) (s : State) :
  AsyncBatch.poll_once w jobId p s =
  match observe (job_status_poll w (AsyncBatch.attempts p) url) with
  | Completed u =>
      (Val {| AsyncBatch.attempts := S (AsyncBatch.attempts p);
              AsyncBatch.jobCompleted := true;
              AsyncBatch.downloadUrl := u |}, log s (rounds url 1))
  | Failed m => (Throw (WatermarkJobFailed m), log s (rounds url 1))
  | Continue =>
      (Val {| AsyncBatch.attempts := S (AsyncBatch.attempts p);
              AsyncBatch.jobCompleted := AsyncBatch.jobCompleted p;
              AsyncBatch.downloadUrl := AsyncBatch.downloadUrl p |},
       log s (rounds url 1))
  | Aborted e => (Throw e, log s (rounds url 1))
  end.
Proof.
  unfold AsyncBatch.poll_once, observe, bind, emit, log. fold url. simpl.
  rewrite <- !app_assoc. simpl.
  destruct (job_status_poll w (AsyncBatch.attempts p) url) as [e|resp]; simpl;
    [reflexivity|].
  destruct (ok resp); simpl; [|reflexivity].
  destruct (json resp) as [e|st]; simpl; [reflexivity|].
  destruct (String.eqb (job_status st) "completed"); simpl; [reflexivity|].
  destruct (String.eqb (job_status st) "failed"); reflexivity.
Qed.

Lemma poll_while_S (fuel : nat) (p : AsyncBatch.Poll) (s : State) :
  AsyncBatch.poll_while w (S fuel) jobId p s =
  if AsyncBatch.poll_guard p then
    match AsyncBatch.poll_once w jobId p s with
    | (Val p', s') => AsyncBatch.poll_while w fuel jobId p' s'
    | (Throw e, s') => (Throw e, s')
    | (Return r, s') => (Return r, s')
    end
  else (Val p, s).
Proof. simpl. now destruct (AsyncBatch.poll_guard p). Qed.

(** The loop leaves with the fuel unused as soon as its guard fails: the
    fuel 15 of [poll] is never what stops it. *)
Lemma poll_while_fuel (n : nat) :
  forall p s, 15 - AsyncBatch.attempts p <= n ->
    AsyncBatch.poll_while w (S n) jobId p s = AsyncBatch.poll_while w n jobId p s.
Proof.
  induction n as [|n IH]; intros p s H.
  - rewrite poll_while_S. unfold AsyncBatch.poll_guard.
    replace (AsyncBatch.attempts p <? 15) with false; [reflexivity|].
    symmetry. apply Nat.ltb_ge. lia.
  - rewrite (poll_while_S (S n)), (poll_while_S n).
    destruct (AsyncBatch.poll_guard p) eqn:G; [|reflexivity].
    rewrite poll_once_observe.
    destruct (observe _); try reflexivity; apply IH;
      cbn [AsyncBatch.attempts]; lia.
Qed.

Lemma poll_total (n : nat) (s : State) :
  AsyncBatch.poll_while w (15 + n) jobId AsyncBatch.poll_start s
  = AsyncBatch.poll w jobId s.
Proof.
  induction n as [|n IH]; [reflexivity|].
  rewrite <- IH. replace (15 + S n) with (S (15 + n)) by lia.
  apply poll_while_fuel. simpl. lia.
Qed.

(** Polls that say [Continue] only add rounds. *)
Lemma poll_while_continue (k : nat) :
  forall fuel a u s,
    (forall i, a <= i < a + k -> observe (job_status_poll w i url) = Continue) ->
    a + k <= 15 ->
    AsyncBatch.poll_while w (k + fuel) jobId (polling a u) s
    = AsyncBatch.poll_while w fuel jobId (polling (a + k) u) (log s (rounds url k)).
Proof.
  induction k as [|k IH]; intros fuel a u s Hc Hk.
  - rewrite Nat.add_0_r, log_nil. reflexivity.
  - cbn [Nat.add]. rewrite poll_while_S. unfold AsyncBatch.poll_guard.
    cbn [polling AsyncBatch.attempts AsyncBatch.jobCompleted negb].
    replace (a <? 15) with true by (symmetry; apply Nat.ltb_lt; lia).
    rewrite poll_once_observe.
    cbn [polling AsyncBatch.attempts AsyncBatch.jobCompleted
         AsyncBatch.downloadUrl andb].
    rewrite (Hc a) by lia.
    fold (polling (S a) u). rewrite IH.
    + rewrite log_log. replace (S a + k) with (a + S k) by lia. reflexivity.
    + intros i Hi. apply Hc. lia.
    + lia.
Qed.

(** The first poll that says [completed] ends the loop. *)
Lemma poll_completed (k : nat) (u : option string) (s : State) :
  k < 15 ->
  (forall i, i < k -> observe (job_status_poll w i url) = Continue) ->
  observe (job_status_poll w k url) = Completed u ->
  AsyncBatch.poll w jobId s
  = (Val {| AsyncBatch.attempts := S k;
            AsyncBatch.jobCompleted := true;
            AsyncBatch.downloadUrl := u |}, log s (rounds url (S k))).
Proof.
  intros Hk Hc Hd. unfold AsyncBatch.poll.
  replace 15 with (k + S (14 - k)) by lia. generalize (14 - k). intros fuel.
  change AsyncBatch.poll_start with (polling 0 None).
  rewrite poll_while_continue; [|intros i Hi; apply Hc; lia|lia].
  rewrite poll_while_S. unfold AsyncBatch.poll_guard. cbn [polling Nat.add
    AsyncBatch.attempts AsyncBatch.jobCompleted negb andb].
  replace (k <? 15) with true by (symmetry; apply Nat.ltb_lt; lia).
  rewrite poll_once_observe. cbn [polling AsyncBatch.attempts]. rewrite Hd.
  rewrite log_log, <- rounds_snoc.
  destruct fuel; [reflexivity|]. rewrite poll_while_S.
  unfold AsyncBatch.poll_guard. cbn [AsyncBatch.jobCompleted negb].
  now rewrite andb_false_r.
Qed.



(** Whatever the service answers, the loop makes at most [fuel] rounds,
    each a delay followed by a poll. *)
Lemma poll_while_rounds (fuel : nat) :
  forall p s, exists n,
    n <= fuel /\
    snd (AsyncBatch.poll_while w fuel jobId p s) = log s (rounds url n).
Proof.
  induction fuel as [|fuel IH]; intros p s.
  - exists 0. split; [lia|]. simpl. now rewrite log_nil.
  - rewrite poll_while_S.
    destruct (AsyncBatch.poll_guard p).
    + rewrite poll_once_observe.
      destruct (observe _).
      1,3: match goal with |- context [AsyncBatch.poll_while _ _ _ ?q ?t] =>
             destruct (IH q t) as (n & Hn & E) end;
           exists (S n); (split; [lia|]); rewrite E, log_log; reflexivity.
      all: exists 1; (split; [lia|]); reflexivity.
    + exists 0. split; [lia|]. simpl. now rewrite log_nil.
Qed.

Lemma poll_rounds (s : State) :
  exists n, n <= 15 /\ snd (AsyncBatch.poll w jobId s) = log s (rounds url n).
Proof. apply poll_while_rounds. Qed.

End Polling.

(** ** The asynchronous version, from the lookup to the poll loop *)

Section AsyncRun.

Variable w : World.
Variable req : emailData.
Variable r : string.
Variable funder : Funder.
Variable s : string.

Hypothesis recipient : recipientEmail req = Some r.
Hypothesis found : select_funder w (funderId r) = Some funder.
Hypothesis sender : senderEmail req = Some s.
Hypothesis some_pdf : AsyncBatch.pdfAttachments req <> [].

Let brokerDomain := nth_error (Js.split "@" s) 1.

Let watermarkPayload :=
  Payload_files (user_email funder) brokerDomain (AsyncBatch.files req).

Lemma async_reaches_try :
  AsyncBatch.handle w req
  = answer (try_catch (AsyncBatch.watermark_and_send w req funder s brokerDomain)
                      AsyncBatch.processing_failed (queried (funderId r))).
Proof.
  unfold AsyncBatch.handle, run, AsyncBatch.webhook_inbound.
  rewrite lookup_first with (r := r) by exact recipient. rewrite found.
  unfold AsyncBatch.process, read_brokerDomain. rewrite sender.
  unfold bind at 1. unfold ret at 1. cbn [fst snd].
  assert (Attachments req <> []) as Ha.
  { intros E. apply some_pdf. unfold AsyncBatch.pdfAttachments. now rewrite E. }
  unfold no_attachments, AsyncBatch.no_pdf_attachments.
  destruct (Attachments req) as [|a l]; [contradiction|].
  destruct (AsyncBatch.pdfAttachments req) as [|p l']; [contradiction|].
  rewrite bind_run. unfold ret at 1.
  rewrite bind_run, filter_reads_attachments. reflexivity.
Qed.

Variable resp : FetchResponse (option string).
Variable jobId : option string.

Hypothesis accepted : watermark_files w watermarkPayload = Resolved resp.
Hypothesis accepted_ok : ok resp = true.
Hypothesis accepted_job : json resp = inr jobId.

Let url := AsyncBatch.job_status_url w jobId.

Let submitted : State :=
  log (queried (funderId r)) [Fetch_watermark (FUNDER_API_URL w) watermarkPayload].

Lemma async_reaches_poll :
  AsyncBatch.handle w req
  = answer (try_catch (polled <- AsyncBatch.poll w jobId ;;
                       zipEntries <- AsyncBatch.fetch_archive w polled ;;
                       AsyncBatch.relay w req funder s zipEntries)
                      AsyncBatch.processing_failed submitted).
Proof.
  rewrite async_reaches_try.
  unfold AsyncBatch.watermark_and_send, AsyncBatch.submit, try_catch.
  fold watermarkPayload. unfold bind at 1 2 3 4. unfold emit.
  rewrite accepted. unfold await, ret at 1. rewrite accepted_ok.
  unfold ret at 1. rewrite accepted_job. reflexivity.
Qed.


Lemma answer_try_state (m : M Response) (st : State) :
  snd (answer (try_catch m AsyncBatch.processing_failed st)) = snd (m st).
Proof. unfold try_catch. now destruct (m st) as [[a|e|x] st']. Qed.


End AsyncRun.


(** The two runs the specification names: a job that fails on the third
    poll, and a job that stays pending. *)
Example job_failed_on_third_poll :
  let w := Samples.make [Samples.acme] (fun _ => Upload_ok) (fun _ => true)
             (fun i => if i <? 2 then Samples.pending else Samples.failed)
             Samples.archive in
  let run := AsyncBatch.handle w
               (Samples.mail (Some "acme@gateway.example") [Samples.pdf "a.pdf"]) in
  fst run = {| status := 500;
               body := Body_error
                         "Processing failed: Watermarking job failed: corrupt PDF" |} /\
  polls (trace (snd run)) = 3 /\
  last (trace (snd run)) (Directory_query "")
    = Fetch_job_status "https://api.example/job-status/job-1".
Proof. vm_compute. auto. Qed.

Example job_pending_forever :
  let w := Samples.make [Samples.acme] (fun _ => Upload_ok) (fun _ => true)
             (fun _ => Samples.pending) Samples.archive in
  let run := AsyncBatch.handle w
               (Samples.mail (Some "acme@gateway.example") [Samples.pdf "a.pdf"]) in
  fst run = {| status := 500;
               body := Body_error "Processing failed: Watermarking job timed out" |} /\
  polls (trace (snd run)) = 15.
Proof. vm_compute. auto. Qed.

(** ** Who the relayed mail is from *)

Lemma staging_relays_by_gateway w req id funder :
  adds (relayed_by_gateway "gateway@aquamark.io" req funder)
       (Staging.process w req id funder).
Proof. unfold_handler. repeat adds_step; cbn; auto. Qed.

Lemma async_relays_by_gateway w req id funder :
  adds (relayed_by_gateway "Aquamark <gateway@aquamark.io>" req funder)
       (AsyncBatch.process w req id funder).
Proof. unfold_handler. repeat adds_step; cbn; auto. Qed.

Lemma inline_relays_as_sender w req id funder :
  adds (relayed_as_sender req funder) (Inline.process w req id funder).
Proof. unfold_handler. repeat adds_step; cbn; auto. Qed.

(** The calls of a request: the directory query, then calls that satisfy
    what the version's [process] guarantees for the funder found. *)
Lemma handle_calls {A} (P : Funder -> Event -> Prop) (w : World) (req : emailData)
    (rest : string -> Funder -> M A) (e : Event) :
  (forall id funder, adds (P funder) (rest id funder)) ->
  In e (trace (snd ((id <- read_funderId req ;;
                     funder <- lookup_funder w id ;;
                     rest id funder) initial))) ->
  exists r,
    recipientEmail req = Some r /\
    (e = Directory_query (funderId r) \/
     exists funder, select_funder w (funderId r) = Some funder /\ P funder e).
Proof.
  intros H. destruct (recipientEmail req) as [r|] eqn:R.
  - rewrite (lookup_first w req rest R). intros Hin. exists r. split; [reflexivity|].
    destruct (select_funder w (funderId r)) as [funder|].
    + destruct (H (funderId r) funder (queried (funderId r))) as (t & Ht & Pt).
      rewrite Ht in Hin. destruct Hin as [<-|Hin]; [now left|].
      right. exists funder. split; [reflexivity|].
      rewrite Forall_forall in Pt. now apply Pt.
    + destruct Hin as [<-|[]]. now left.
  - rewrite (lookup_missing w req rest R). intros [].
Qed.

(** C6, as the code has it.  Every mail handed to Postmark by the staging
    and the asynchronous version is sent from the gateway's own fixed
    address, with the original sender as reply-to and the found funder's
    [destination_email] as recipient.  The inline version (src/index.js)
    sends from the original sender's address and sets no reply-to; its
    recipient is the funder's [destination_email] as well. *)
Theorem relayed_mail_identity (w : World) (req : emailData) (m : OutboundMessage) :
  (In (Send_email m) (trace (snd (Staging.handle w req))) ->
     msg_From m = "gateway@aquamark.io" /\
     msg_ReplyTo m = senderEmail req /\
     exists r funder,
       recipientEmail req = Some r /\
       select_funder w (funderId r) = Some funder /\
       msg_To m = destination_email funder) /\
  (In (Send_email m) (trace (snd (AsyncBatch.handle w req))) ->
     msg_From m = "Aquamark <gateway@aquamark.io>" /\
     msg_ReplyTo m = senderEmail req /\
     exists r funder,
       recipientEmail req = Some r /\
       select_funder w (funderId r) = Some funder /\
       msg_To m = destination_email funder) /\
  (In (Send_email m) (trace (snd (Inline.handle w req))) ->
     Some (msg_From m) = senderEmail req /\
     msg_ReplyTo m = None /\
     exists r funder,
       recipientEmail req = Some r /\
       select_funder w (funderId r) = Some funder /\
       msg_To m = destination_email funder).
Proof.
  unfold Staging.handle, AsyncBatch.handle, Inline.handle. rewrite !run_state.
  repeat split.
  1-3: apply (handle_calls _ w req _ (Send_email m)
                (fun id funder => staging_relays_by_gateway w req id funder)) in H;
       destruct H as (r & R & [H|(funder & F & H)]); [discriminate|]; cbn in H; intuition eauto.
  1-3: apply (handle_calls _ w req _ (Send_email m)
                (fun id funder => async_relays_by_gateway w req id funder)) in H;
       destruct H as (r & R & [H|(funder & F & H)]); [discriminate|]; cbn in H; intuition eauto.
  1-3: apply (handle_calls _ w req _ (Send_email m)
                (fun id funder => inline_relays_as_sender w req id funder)) in H;
       destruct H as (r & R & [H|(funder & F & H)]); [discriminate|]; cbn in H; intuition eauto.
Qed.

Lemma relayed_mail_identity_witness :
  let req := Samples.mail (Some "acme@gateway.example") [Samples.pdf "a.pdf"] in
  let m := {| msg_From := "gateway@aquamark.io";
              msg_ReplyTo := Some "broker@deals.example";
              msg_To := "ops@acme.example";
              msg_Subject := "New Submission - Acme";
              msg_TextBody := "Submitted by: Broker (broker@deals.example)";
              msg_Attachments := [{| out_Name := "a.pdf"; out_Content := "bWFya2Vk";
                                     out_ContentType := "application/pdf" |}] |} in
  In (Send_email m) (trace (snd (Staging.handle Samples.world req))) /\
  msg_ReplyTo m = senderEmail req.
Proof.
  intros req m.
  assert (In (Send_email m) (trace (snd (Staging.handle Samples.world req)))) as H.
  { vm_compute. tauto. }
  split; [exact H|].
  apply (proj1 (relayed_mail_identity Samples.world req m)) in H.
  exact (proj1 (proj2 H)).
Defined.

(** C6 as stated fails in src/index.js: the mail is sent from the original
    sender's address, and there is no reply-to. *)
Lemma inline_mail_is_from_the_sender :
  let req := Samples.mail (Some "acme@gateway.example") [Samples.pdf "a.pdf"] in
  senderEmail req = Some "broker@deals.example" /\
  exists m,
    In (Send_email m) (trace (snd (Inline.handle Samples.world req))) /\
    msg_From m = "broker@deals.example" /\
    msg_ReplyTo m = None.
Proof.
  split; [reflexivity|].
  exists {| msg_From := "broker@deals.example";
            msg_ReplyTo := None;
            msg_To := "ops@acme.example";
            msg_Subject := "New Submission";
            msg_TextBody := "";
            msg_Attachments := [{| out_Name := "a.pdf"; out_Content := "bWFya2Vk";
                                   out_ContentType := "application/pdf" |}] |}.
  vm_compute. tauto.
Qed.

(** ** The archive *)

Lemma unpack_cons (e : ZipEntry) (l : list ZipEntry) :
  AsyncBatch.unpack (e :: l) =
  if isDirectory e then AsyncBatch.unpack l
  else if is_pdf (entryName e) then attachment_of_entry e :: AsyncBatch.unpack l
  else AsyncBatch.unpack l.
Proof.
  unfold AsyncBatch.unpack. simpl.
  destruct (isDirectory e); simpl; [reflexivity|].
  destruct (is_pdf (entryName e)); reflexivity.
Qed.

Lemma unpack_In (l : list ZipEntry) (a : ProcessedAttachment) :
  In a (AsyncBatch.unpack l) <->
  exists e, In e l /\ is_document_entry e /\ a = attachment_of_entry e.
Proof.
  unfold is_document_entry. induction l as [|e l IH].
  - simpl. split; [tauto|]. intros (e & [] & _).
  - rewrite unpack_cons. split.
    + destruct (isDirectory e) eqn:D; [|destruct (is_pdf (entryName e)) eqn:N].
      * intros H. apply IH in H. destruct H as (x & Hx & H). exists x. simpl. tauto.
      * intros [<-|H].
        -- exists e. simpl. tauto.
        -- apply IH in H. destruct H as (x & Hx & H). exists x. simpl. tauto.
      * intros H. apply IH in H. destruct H as (x & Hx & H). exists x. simpl. tauto.
    + intros (x & [<-|Hx] & (D & N) & ->).
      * rewrite D, N. now left.
      * assert (In (attachment_of_entry x) (AsyncBatch.unpack l)) as H.
        { apply IH. exists x. tauto. }
        destruct (isDirectory e); [exact H|].
        destruct (is_pdf (entryName e)); [now right | exact H].
Qed.

Lemma unpack_names (l : list ZipEntry) :
  map out_Name (AsyncBatch.unpack l)
  = map entryName
        (filter (fun e => negb (isDirectory e) && is_pdf (entryName e)) l).
Proof. unfold AsyncBatch.unpack. rewrite map_map. reflexivity. Qed.

Section AsyncArchive.

Variable w : World.
Variable req : emailData.
Variable r : string.
Variable funder : Funder.
Variable s : string.

Hypothesis recipient : recipientEmail req = Some r.
Hypothesis found : select_funder w (funderId r) = Some funder.
Hypothesis sender : senderEmail req = Some s.
Hypothesis some_pdf : AsyncBatch.pdfAttachments req <> [].

Let watermarkPayload :=
  Payload_files (user_email funder) (nth_error (Js.split "@" s) 1)
                (AsyncBatch.files req).

Variable resp : FetchResponse (option string).
Variable jobId : option string.

Hypothesis accepted : watermark_files w watermarkPayload = Resolved resp.
Hypothesis accepted_ok : ok resp = true.
Hypothesis accepted_job : json resp = inr jobId.

Let url := AsyncBatch.job_status_url w jobId.

Variable k : nat.
Variable u : option string.

Hypothesis in_time : k < 15.
Hypothesis waiting : forall i, i < k -> observe (job_status_poll w i url) = Continue.
Hypothesis completed : observe (job_status_poll w k url) = Completed u.

Variable archive : FetchResponse unit.
Variable zipEntries : list ZipEntry.

Hypothesis downloaded : download w 0 (Js.str u) = Resolved archive.
Hypothesis downloaded_ok : ok archive = true.
Hypothesis opened : AdmZip w (arrayBuffer archive) = inr zipEntries.

(** The calls made up to the opening of the archive. *)
Let unzipped : State :=
  log (queried (funderId r))
      (Fetch_watermark (FUNDER_API_URL w) watermarkPayload
         :: rounds url (S k) ++ [Fetch_download (Js.str u)]).

Lemma async_reaches_relay :
  AsyncBatch.handle w req
  = answer (try_catch (AsyncBatch.relay w req funder s zipEntries)
                      AsyncBatch.processing_failed unzipped).
Proof.
  rewrite (@async_reaches_poll w req r funder s recipient found sender some_pdf
             resp jobId accepted accepted_ok accepted_job).
  unfold try_catch at 1. rewrite bind_run.
  rewrite (poll_completed w jobId _ in_time waiting completed).
  rewrite bind_run.
  unfold AsyncBatch.fetch_archive, bind, emit, await.
  cbn [AsyncBatch.jobCompleted AsyncBatch.downloadUrl ret].
  rewrite downloaded. cbn [ret]. rewrite downloaded_ok. cbn [ret].
  rewrite opened. cbn [settle ret].
  unfold try_catch, unzipped, log. cbn [trace watermarkedAttachments tempFiles queried].
  rewrite <- !app_assoc. reflexivity.
Qed.

(** C7.  From the entries of the downloaded archive the unpacker makes one
    attachment per entry that is not a directory and whose name ends in
    [.pdf] (any case), in the order of the archive and under the entry's
    name; directories and other entries are dropped.  When nothing is left
    the request fails with "No PDF files found in watermarked ZIP" and no
    mail is sent; otherwise the attachments of the mail are exactly those. *)
Theorem archive_unpacking :
  (forall a, In a (AsyncBatch.unpack zipEntries) <->
             exists e, In e zipEntries /\ is_document_entry e /\
                       a = attachment_of_entry e) /\
  map out_Name (AsyncBatch.unpack zipEntries)
    = map entryName
          (filter (fun e => negb (isDirectory e) && is_pdf (entryName e)) zipEntries) /\
  (AsyncBatch.unpack zipEntries = [] ->
     AsyncBatch.handle w req = (ProcessingFailed EmptyArchiveResult, unzipped)) /\
  (AsyncBatch.unpack zipEntries <> [] ->
     exists m,
       trace (snd (AsyncBatch.handle w req)) = trace unzipped ++ [Send_email m] /\
       msg_Attachments m = AsyncBatch.unpack zipEntries).
Proof.
  split; [intros a; apply unpack_In|]. split; [apply unpack_names|].
  rewrite async_reaches_relay. unfold AsyncBatch.relay. split.
  - intros ->. reflexivity.
  - intros H. destruct (AsyncBatch.unpack zipEntries) as [|a l] eqn:E;
      [contradiction|].
    exists {| msg_From := "Aquamark <gateway@aquamark.io>";
              msg_ReplyTo := Some s;
              msg_To := destination_email funder;
              msg_Subject := AsyncBatch.originalSubject req;
              msg_TextBody := AsyncBatch.originalBody req;
              msg_Attachments := a :: l |}.
    rewrite answer_try_state. unfold send, bind, emit.
    split; [|reflexivity].
    now destruct (sendEmail w _).
Qed.

End AsyncArchive.

Lemma archive_unpacking_witness :
  let req := Samples.mail (Some "acme@gateway.example") [Samples.pdf "a.pdf"] in
  map out_Name (AsyncBatch.unpack Samples.archive) = ["a.pdf"; "b.PDF"; "docs/c.pdf"] /\
  exists m,
    In (Send_email m) (trace (snd (AsyncBatch.handle Samples.world req))) /\
    map out_Name (msg_Attachments m) = ["a.pdf"; "b.PDF"; "docs/c.pdf"].
Proof.
  intros req.
  assert (AsyncBatch.pdfAttachments req <> []) as some_pdf by discriminate.
  assert (forall i, i < 2 ->
            observe (job_status_poll Samples.world i
                       (AsyncBatch.job_status_url Samples.world (Some "job-1")))
            = Continue) as waiting.
  { intros [|[|i]] Hi; [reflexivity|reflexivity|lia]. }
  destruct (@archive_unpacking Samples.world req "acme@gateway.example"
              Samples.acme "broker@deals.example" eq_refl eq_refl eq_refl some_pdf
              {| ok := true; http_status := 200; statusText := "OK"; text := "";
                 json := inr (Some "job-1"); arrayBuffer := "" |}
              (Some "job-1") eq_refl eq_refl eq_refl
              2 (Some "https://api.example/out.zip")
              (le_S _ _ (le_S _ _ (le_S _ _ (le_S _ _ (le_S _ _ (le_S _ _
                 (le_S _ _ (le_S _ _ (le_S _ _ (le_S _ _ (le_S _ _ (le_S _ _
                 (le_n 3)))))))))))))
              waiting eq_refl
              {| ok := true; http_status := 200; statusText := "OK"; text := "";
                 json := inr tt; arrayBuffer := "marked" |}
              Samples.archive eq_refl eq_refl eq_refl)
    as (_ & Hnames & _ & Hsend).
  split; [exact Hnames|].
  destruct Hsend as (m & Ht & Hm); [discriminate|].
  exists m. split.
  - rewrite Ht. apply in_or_app. right. now left.
  - rewrite Hm. exact Hnames.
Defined.

Example archive_without_documents :
  let w := Samples.make [Samples.acme] (fun _ => Upload_ok) (fun _ => true)
             (fun _ => Samples.completed)
             [ {| entryName := "docs/"; isDirectory := true; getData := "" |};
               {| entryName := "readme.txt"; isDirectory := false; getData := "r" |};
               {| entryName := "x.pdf/"; isDirectory := true; getData := "" |} ] in
  let run := AsyncBatch.handle w
               (Samples.mail (Some "acme@gateway.example") [Samples.pdf "a.pdf"]) in
  fst run = ProcessingFailed EmptyArchiveResult /\
  last (trace (snd run)) (Directory_query "")
    = Fetch_download "https://api.example/out.zip".
Proof. vm_compute. auto. Qed.

(** ** Loops over the attachments *)





Lemma sent_app (t u : list Event) : sent (t ++ u) = sent t ++ sent u.
Proof. induction t as [|[] t IH]; simpl; now rewrite ?IH. Qed.

Lemma uploaded_app (t u : list Event) : uploaded (t ++ u) = uploaded t ++ uploaded u.
Proof.
  induction t as [|e t IH]; simpl; [reflexivity|].
  destruct e as [| | ? ? ? ? []| | | | | |]; simpl; now rewrite ?IH.
Qed.

Lemma removed_app (t u : list Event) : removed (t ++ u) = removed t ++ removed u.
Proof. induction t as [|[] t IH]; simpl; now rewrite ?IH. Qed.

Lemma paired_app (t u : list Event) :
  (forall bucket path, In (bucket, path) (uploaded t) ->
                       In (Storage_remove bucket path) u) ->
  paired u -> paired (t ++ u).
Proof.
  intros H Hu. induction t as [|e t IH]; [exact Hu|].
  simpl. destruct e as [| |bucket path ? ? res| | | | | |];
    try (apply IH; intros b p Hp; apply H; simpl; exact Hp).
  destruct res; try (apply IH; intros b p Hp; apply H; simpl; exact Hp).
  split.
  - apply in_or_app. right. apply H. simpl. now left.
  - apply IH. intros b p Hp. apply H. simpl. now right.
Qed.

Lemma paired_none (t : list Event) : uploaded t = [] -> paired t.
Proof.
  induction t as [|e t IH]; simpl; [trivial|].
  destruct e as [| |bucket path ? ? res| | | | | |]; auto.
  destruct res; auto. discriminate.
Qed.

(** In a paired trace a removal follows each successful upload. *)
Lemma paired_split (t : list Event) :
  paired t ->
  forall pre bucket path buffer contentType post,
    t = pre ++ Storage_upload bucket path buffer contentType Upload_ok :: post ->
    In (Storage_remove bucket path) post.
Proof.
  intros H pre. revert t H. induction pre as [|e pre IH]; intros t H * ->.
  - simpl in H. tauto.
  - simpl in H.
    apply (IH (pre ++ Storage_upload bucket path buffer contentType Upload_ok :: post))
      with (buffer := buffer) (contentType := contentType); [|reflexivity].
    destruct e as [| |? ? ? ? res| | | | | |]; try exact H.
    destruct res; tauto.
Qed.


Lemma deltas_sent {A} (body : nat -> A -> M unit) :
  (forall i x, sent (trace (snd (body i x initial))) = []) ->
  forall l i, sent (trace (deltas body i l)) = [].
Proof.
  intros H l. induction l as [|x r IH]; intros i; simpl; [reflexivity|].
  now rewrite sent_app, H, IH.
Qed.

Lemma deltas_uploaded {A} (body : nat -> A -> M unit) (bucket : string) :
  (forall i x, uploaded (trace (snd (body i x initial)))
               = map (pair bucket) (tempFiles (snd (body i x initial)))) ->
  forall l i, uploaded (trace (deltas body i l))
              = map (pair bucket) (tempFiles (deltas body i l)).
Proof.
  intros H l. induction l as [|x r IH]; intros i; simpl; [reflexivity|].
  now rewrite uploaded_app, map_app, H, IH.
Qed.

Lemma deltas_removed {A} (body : nat -> A -> M unit) :
  (forall i x, removed (trace (snd (body i x initial))) = []) ->
  forall l i, removed (trace (deltas body i l)) = [].
Proof.
  intros H l. induction l as [|x r IH]; intros i; simpl; [reflexivity|].
  now rewrite removed_app, H, IH.
Qed.

(** Case analysis on every answer a loop body asks of the world. *)
Ltac answers :=
  simpl;
  repeat (match goal with
          | |- context [match ?x with _ => _ end] =>
              lazymatch x with
              | context [match _ with _ => _ end] => fail
              | _ => destruct x eqn:?; simpl
              end
          end);
  try reflexivity; try discriminate.

Section InlineLoop.

Variable w : World.
Variable funder : Funder.
Variable id : string.
Variable brokerDomain : option string.

Let body : nat -> RawAttachment -> M unit := Inline.attempt w funder id brokerDomain.

Lemma inline_attempt_value i x : fst (body i x initial) = Val tt.
Proof. unfold body, Inline.attempt, read, try_catch, bind, emit, await, settle, ret,
    throw, push_watermarked. answers. Qed.



Lemma inline_loop (l : list RawAttachment) (st : State) :
  for_of body 0 l st = (Val tt, join st (deltas body 0 l)).
Proof.
  apply for_of_deltas; intros i x.
  - apply framed_inline_attempt.
  - apply inline_attempt_value.
Qed.

End InlineLoop.

Section StagingLoop.

Variable w : World.
Variable funder : Funder.
Variable senderName : string.

Let body : nat -> RawAttachment -> M unit := Staging.attempt w funder senderName.

Ltac run_body :=
  unfold body, Staging.attempt, staging_watermarked, is_pdf_attachment, read,
    try_catch, bind, emit, push_temp, push_watermarked, await, settle, ret, throw.

Lemma staging_attempt_value i x : fst (body i x initial) = Val tt.
Proof. run_body. answers. Qed.


Lemma staging_attempt_sent i x : sent (trace (snd (body i x initial))) = [].
Proof. run_body. answers. Qed.

Lemma staging_attempt_removed i x : removed (trace (snd (body i x initial))) = [].
Proof. run_body. answers. Qed.

Lemma staging_attempt_uploaded i x :
  uploaded (trace (snd (body i x initial)))
  = map (pair "funder-logos") (tempFiles (snd (body i x initial))).
Proof. run_body. answers. Qed.

Lemma staging_attempt_skip i x :
  is_pdf (Name x) = false -> body i x initial = (Val tt, initial).
Proof. intros H. run_body. cbn. now rewrite H. Qed.

Lemma staging_loop (l : list RawAttachment) (st : State) :
  for_of body 0 l st = (Val tt, join st (deltas body 0 l)).
Proof.
  apply for_of_deltas; intros i x.
  - apply framed_staging_attempt.
  - apply staging_attempt_value.
Qed.

Lemma staging_cleanup_value i p : fst (Staging.cleanup w i p initial) = Val tt.
Proof. unfold Staging.cleanup, try_catch, bind, emit, ret, throw. answers. Qed.

Lemma staging_cleanup_state i p :
  snd (Staging.cleanup w i p initial)
  = {| trace := [Storage_remove "funder-logos" p];
       watermarkedAttachments := []; tempFiles := [] |}.
Proof. unfold Staging.cleanup, try_catch, bind, emit, ret, throw. answers. Qed.

Lemma staging_cleanup_loop (temps : list string) (st : State) :
  for_of (Staging.cleanup w) 0 temps st
  = (Val tt, log st (map (Storage_remove "funder-logos") temps)).
Proof.
  rewrite for_of_deltas.
  - f_equal. generalize 0. revert st.
    induction temps as [|p r IH]; intros st n; simpl.
    + now rewrite join_initial_r, log_nil.
    + rewrite staging_cleanup_state, <- join_assoc, IH.
      unfold log, join. simpl. rewrite !app_nil_r, <- app_assoc. reflexivity.
  - intros i x. apply framed_staging_cleanup.
  - intros i x. apply staging_cleanup_value.
Qed.

End StagingLoop.

(** ** The synchronous versions, from the lookup to the mail *)

Lemma read_senderName_pure {E} (req : Inbound E) (st : State) :
  Staging.read_senderName req st = (fst (Staging.read_senderName req initial), st).
Proof.
  unfold Staging.read_senderName.
  destruct (Js.or _ _) as [[|c r]|]; try reflexivity;
    now destruct (senderEmail req).
Qed.

Section SyncRun.

Variable w : World.
Variable req : emailData.
Variable r : string.
Variable funder : Funder.
Variable s : string.
Variable senderName : string.

Hypothesis recipient : recipientEmail req = Some r.
Hypothesis found : select_funder w (funderId r) = Some funder.
Hypothesis sender : senderEmail req = Some s.
Hypothesis named : fst (Staging.read_senderName req initial) = Val senderName.

Let id := funderId r.
Let brokerDomain := nth_error (Js.split "@" s) 1.



Let inline_loop_state : State :=
  join (queried id) (deltas (Inline.attempt w funder id brokerDomain) 0 (Attachments req)).

Let staging_loop_state : State :=
  join (queried id) (deltas (Staging.attempt w funder senderName) 0 (Attachments req)).

Let staging_clean_state : State :=
  log staging_loop_state
      (map (Storage_remove "funder-logos") (tempFiles staging_loop_state)).

Lemma inline_reaches_relay :
  Attachments req <> [] ->
  Inline.handle w req = answer (Inline.relay w funder s inline_loop_state).
Proof.
  intros Ha. unfold Inline.handle, run, Inline.webhook_inbound.
  rewrite lookup_first with (r := r) by exact recipient. rewrite found.
  unfold Inline.process, read_brokerDomain. rewrite sender.
  rewrite bind_run. unfold ret at 1. cbn [fst snd].
  unfold no_attachments. destruct (Attachments req) as [|a l] eqn:E; [contradiction|].
  rewrite bind_run. unfold ret at 1. rewrite bind_run.
  rewrite inline_loop. unfold inline_loop_state, id, brokerDomain.
  try rewrite E. reflexivity.
Qed.

Lemma staging_reaches_relay :
  Attachments req <> [] ->
  Staging.handle w req = answer (Staging.relay w req funder senderName staging_clean_state).
Proof.
  intros Ha. unfold Staging.handle, run, Staging.webhook_inbound.
  rewrite lookup_first with (r := r) by exact recipient. rewrite found.
  unfold Staging.process. rewrite bind_run.
  rewrite read_senderName_pure, named.
  unfold no_attachments. destruct (Attachments req) as [|a l] eqn:E; [contradiction|].
  rewrite bind_run. unfold ret at 1. rewrite bind_run.
  rewrite staging_loop. rewrite bind_run. unfold get_temp at 1.
  rewrite bind_run. rewrite staging_cleanup_loop.
  unfold staging_clean_state, staging_loop_state, id.
  try rewrite E. reflexivity.
Qed.





Lemma send_run (m : OutboundMessage) (st : State) :
  send w m st
  = (match sendEmail w m with Some e => Throw e | None => Val tt end,
     log st [Send_email m]).
Proof. unfold send, bind, emit. simpl. now destruct (sendEmail w m). Qed.





Lemma staging_relay_trace (st : State) :
  exists z,
    trace (snd (answer (Staging.relay w req funder senderName st))) = trace st ++ z /\
    uploaded z = [] /\ removed z = [].
Proof.
  unfold Staging.relay. rewrite bind_run. unfold get_watermarked.
  destruct (watermarkedAttachments st) as [|a l].
  - exists []. rewrite app_nil_r. auto.
  - rewrite bind_run, send_run. eexists [_].
    destruct (sendEmail w _); cbn; auto.
Qed.

Lemma uploaded_removals (temps : list string) :
  uploaded (map (Storage_remove "funder-logos") temps) = [].
Proof. induction temps; auto. Qed.

Lemma removed_removals (temps : list string) :
  removed (map (Storage_remove "funder-logos") temps)
  = map (pair "funder-logos") temps.
Proof. induction temps as [|p l IH]; simpl; now rewrite ?IH. Qed.

(** The loop uploads, the clean-up removes what was uploaded, and nothing
    is uploaded afterwards. *)
Lemma staging_trace_paired :
  Attachments req <> [] ->
  paired (trace (snd (Staging.handle w req))) /\
  removed (trace (snd (Staging.handle w req)))
  = uploaded (trace (snd (Staging.handle w req))).
Proof.
  intros Ha. rewrite (staging_reaches_relay Ha).
  destruct (staging_relay_trace staging_clean_state) as (z & -> & Uz & Rz).
  set (d := deltas (Staging.attempt w funder senderName) 0 (Attachments req)).
  assert (uploaded (trace d) = map (pair "funder-logos") (tempFiles d)) as Ud.
  { apply deltas_uploaded. intros i x. apply staging_attempt_uploaded. }
  assert (removed (trace d) = []) as Rd.
  { apply deltas_removed. intros i x. apply staging_attempt_removed. }
  unfold staging_clean_state, staging_loop_state. fold d.
  cbn [log join trace tempFiles queried app].
  change (Directory_query id :: trace d) with ([Directory_query id] ++ trace d).
  rewrite <- !app_assoc. split.
  - apply (paired_app [Directory_query id]); [intros b p []|].
    apply paired_app.
    + intros b p Hp. rewrite Ud in Hp. apply in_map_iff in Hp.
      destruct Hp as (q & [= <- <-] & Hq).
      apply in_or_app. left. now apply in_map.
    + apply paired_none. now rewrite uploaded_app, uploaded_removals, Uz.
  - cbn [removed uploaded app].
    rewrite !removed_app, !uploaded_app, Rd, Ud, Rz, Uz,
      uploaded_removals, removed_removals.
    cbn. now rewrite !app_nil_r.
Qed.

End SyncRun.




Example every_watermark_fails :
  let w := Samples.make [Samples.acme] (fun _ => Upload_ok)
             (fun _ => false) (fun _ => Samples.completed) Samples.archive in
  let req := Samples.mail (Some "acme@gateway.example")
               [Samples.pdf "a.pdf"; Samples.pdf "b.pdf"] in
  fst (Inline.handle w req) = AllWatermarksFailed /\
  fst (Staging.handle w req) = AllWatermarksFailed /\
  sent (trace (snd (Inline.handle w req))) = [] /\
  sent (trace (snd (Staging.handle w req))) = [].
Proof. vm_compute. auto. Qed.

(** ** Temporary objects *)

(** When every element of [Attachments] is an attachment, whatever the
    world answers, every object uploaded with success is removed later in
    the same request: in the trace each successful upload is followed by a
    [remove] of the same bucket and path, on the path where its
    watermarking succeeded and on the paths where it failed; the objects
    removed are exactly the objects uploaded, in the same order. *)
Lemma staged_objects_are_removed (w : World) (req : emailData) :
  (forall pre bucket path buffer contentType post,
     trace (snd (Staging.handle w req))
       = pre ++ Storage_upload bucket path buffer contentType Upload_ok :: post ->
     In (Storage_remove bucket path) post) /\
  removed (trace (snd (Staging.handle w req)))
  = uploaded (trace (snd (Staging.handle w req))).
Proof.
  assert (paired (trace (snd (Staging.handle w req))) /\
          removed (trace (snd (Staging.handle w req)))
          = uploaded (trace (snd (Staging.handle w req)))) as [P E].
  { destruct (recipientEmail req) as [r|] eqn:R.
    2:{ unfold Staging.handle, run, Staging.webhook_inbound.
        rewrite lookup_missing by exact R. cbn. auto. }
    destruct (select_funder w (funderId r)) as [funder|] eqn:F.
    2:{ unfold Staging.handle, run, Staging.webhook_inbound.
        rewrite lookup_first with (r := r) by exact R. rewrite F. cbn. auto. }
    destruct (fst (Staging.read_senderName req initial)) as [name|e|x] eqn:N.
    2,3: unfold Staging.handle, run, Staging.webhook_inbound;
         rewrite lookup_first with (r := r) by exact R; rewrite F;
         unfold Staging.process; rewrite bind_run, read_senderName_pure, N;
         cbn; auto.
    assert (Attachments req = [] \/ Attachments req <> []) as [A|A].
    { destruct (Attachments req); [left | right]; congruence. }
    - unfold Staging.handle, run, Staging.webhook_inbound.
      rewrite lookup_first with (r := r) by exact R. rewrite F.
      unfold Staging.process. rewrite bind_run, read_senderName_pure, N.
      unfold no_attachments. rewrite A. cbn. auto.
    - apply staging_trace_paired with (r := r) (funder := funder) (senderName := name);
        assumption. }
  split; [|exact E].
  intros pre bucket path buffer contentType post H.
  exact (@paired_split _ P pre bucket path buffer contentType post H).
Qed.

Example staged_objects_are_removed_on_failure :
  let w := Samples.make [Samples.acme]
             (fun i => if i =? 2 then Upload_error "exists" else Upload_ok)
             (fun i => negb (i =? 1)) (fun _ => Samples.completed) Samples.archive in
  let req := Samples.mail (Some "acme@gateway.example")
               [Samples.pdf "a.pdf"; Samples.pdf "b.pdf"; Samples.pdf "c.pdf"] in
  uploaded (trace (snd (Staging.handle w req)))
    = [("funder-logos", "temp/1700000000000-a.pdf");
       ("funder-logos", "temp/1700000000001-b.pdf")] /\
  removed (trace (snd (Staging.handle w req)))
    = [("funder-logos", "temp/1700000000000-a.pdf");
       ("funder-logos", "temp/1700000000001-b.pdf")] /\
  map out_Name (List.concat (map msg_Attachments (sent (trace (snd (Staging.handle w req))))))
    = ["a.pdf"].
Proof. vm_compute. auto. Qed.

(** ** Which attachments are submitted *)

Lemma deltas_In {A} (body : nat -> A -> M unit) (e : Event) (x : A) :
  forall l i k,
    nth_error l k = Some x ->
    In e (trace (snd (body (i + k) x initial))) ->
    In e (trace (deltas body i l)).
Proof.
  induction l as [|y l IH]; intros i k H Hin.
  - destruct k; discriminate.
  - simpl. apply in_or_app. destruct k as [|k]; simpl in H.
    + injection H as ->. left. now rewrite Nat.add_0_r in Hin.
    + right. apply (IH (S i) k H). now rewrite Nat.add_succ_r in Hin.
Qed.

Lemma deltas_skipped {A} (body : nat -> A -> M unit) (skip : A -> bool) :
  (forall i x, skip x = true -> body i x initial = (Val tt, initial)) ->
  forall l i, filter (fun x => negb (skip x)) l = [] -> deltas body i l = initial.
Proof.
  intros H l. induction l as [|x l IH]; intros i F; [reflexivity|].
  simpl in *. destruct (skip x) eqn:S; [|discriminate].
  rewrite (H i x S), IH by exact F. reflexivity.
Qed.

Lemma no_pdf_filter (l : list RawAttachment) :
  filter is_pdf_attachment l = [] ->
  filter (fun x => negb (negb (is_pdf (Name x)))) l = [].
Proof.
  intros H. rewrite <- H. apply filter_ext. intros x.
  unfold is_pdf_attachment. now rewrite negb_involutive.
Qed.

Lemma read_senderName_with_sender (req : emailData) (s : string) :
  senderEmail req = Some s ->
  exists name, fst (Staging.read_senderName req initial) = Val name.
Proof.
  intros H. unfold Staging.read_senderName. rewrite H.
  destruct (Js.or _ _) as [[|c r]|]; eexists; reflexivity.
Qed.

Lemma inline_relay_trace (w : World) (funder : Funder) (s : string) (st : State) :
  exists z, trace (snd (answer (Inline.relay w funder s st))) = trace st ++ z.
Proof.
  unfold Inline.relay. rewrite bind_run. unfold get_watermarked.
  destruct (watermarkedAttachments st) as [|a l].
  - exists []. now rewrite app_nil_r.
  - rewrite bind_run, send_run. eexists [_].
    destruct (sendEmail w _); reflexivity.
Qed.

(** C2, as the code has it.  With the tenant found and a sender address,
    an email none of whose attachments has a [.pdf] name is answered by the
    asynchronous version with a 200 no-op message, the directory query
    being the only call; the staging version makes no other call either;
    and an email without any attachment gets the 200 no-op "No attachments
    to process" from the inline and the staging version. *)
Theorem nothing_to_process (w : World) (req : emailData) (r : string)
    (funder : Funder) (s : string) :
  recipientEmail req = Some r ->
  select_funder w (funderId r) = Some funder ->
  senderEmail req = Some s ->
  filter is_pdf_attachment (Attachments req) = [] ->
  (exists msg, AsyncBatch.handle w req = (NoOp msg, queried (funderId r))) /\
  snd (Staging.handle w req) = queried (funderId r) /\
  (Attachments req = [] ->
     Inline.handle w req = (NoOp "No attachments to process", queried (funderId r)) /\
     Staging.handle w req = (NoOp "No attachments to process", queried (funderId r))).
Proof.
  intros R F S P.
  destruct (read_senderName_with_sender req S) as [name N].
  assert (Attachments req = [] ->
          Staging.handle w req
          = (NoOp "No attachments to process", queried (funderId r))) as Hs.
  { intros A. unfold Staging.handle, run, Staging.webhook_inbound.
    rewrite lookup_first with (r := r) by exact R. rewrite F.
    unfold Staging.process. rewrite bind_run, read_senderName_pure, N.
    unfold no_attachments. now rewrite A. }
  split; [|split].
  - unfold AsyncBatch.handle, run, AsyncBatch.webhook_inbound.
    rewrite lookup_first with (r := r) by exact R. rewrite F.
    unfold AsyncBatch.process, read_brokerDomain. rewrite S.
    rewrite bind_run. unfold ret at 1.
    unfold no_attachments, AsyncBatch.no_pdf_attachments.
    rewrite pdfAttachments_attachments.
    change (filter (fun att => is_pdf (Name att)) (Attachments req))
      with (filter is_pdf_attachment (Attachments req)).
    rewrite P. destruct (Attachments req); [eexists; reflexivity|].
    rewrite bind_run. unfold ret at 1.
    rewrite bind_run, filter_reads_attachments. eexists; reflexivity.
  - assert (Attachments req = [] \/ Attachments req <> []) as [A|A].
    { destruct (Attachments req); [left | right]; congruence. }
    + now rewrite (Hs A).
    + rewrite staging_reaches_relay
        with (r := r) (funder := funder) (senderName := name) by assumption.
      rewrite (deltas_skipped (Staging.attempt w funder name)
                 (fun x => negb (is_pdf (Name x)))).
      * reflexivity.
      * intros i x Hx. apply staging_attempt_skip.
        now apply negb_true_iff in Hx.
      * now apply no_pdf_filter.
  - intros A. split; [|exact (Hs A)].
    unfold Inline.handle, run, Inline.webhook_inbound.
    rewrite lookup_first with (r := r) by exact R. rewrite F.
    unfold Inline.process, read_brokerDomain. rewrite S.
    rewrite bind_run. unfold ret at 1.
    unfold no_attachments. now rewrite A.
Qed.

Lemma nothing_to_process_witness :
  let req := Samples.mail (Some "acme@gateway.example")
               [Samples.pdf "notes.txt"; Samples.pdf "logo.png"] in
  AsyncBatch.handle Samples.world req
  = (NoOp "No PDF attachments to process", queried "acme").
Proof.
  intros req.
  destruct (@nothing_to_process Samples.world req "acme@gateway.example"
              Samples.acme "broker@deals.example" eq_refl eq_refl eq_refl eq_refl)
    as ([msg H] & _).
  rewrite H. vm_compute in H. injection H as <-. reflexivity.
Defined.

(** C2 as stated fails outside the asynchronous version: with one
    attachment [notes.txt], part_001 skips it and then answers 500
    "Watermarking failed for all attachments", and src/index.js, which
    does not look at the extension, submits it to the watermarking API. *)
Lemma only_non_documents_is_not_a_no_op :
  let req := Samples.mail (Some "acme@gateway.example") [Samples.pdf "notes.txt"] in
  filter is_pdf_attachment (Attachments req) = [] /\
  Staging.handle Samples.world req = (AllWatermarksFailed, queried "acme") /\
  status AllWatermarksFailed = 500%N /\
  In (Fetch_watermark "https://api.example/watermark-funder-broker"
        (Payload_inline "acme"
           "https://db.example/storage/v1/object/public/gateway-logos/acme.png"
           (Some "deals.example") "notes.txt" "JVBERg=="))
     (trace (snd (Inline.handle Samples.world req))).
Proof. vm_compute. tauto. Qed.

Lemma inline_attempt_submits w funder id brokerDomain i x :
  In (Fetch_watermark (FUNDER_API_URL w)
        (Payload_inline id (getPublicUrl w "gateway-logos" (logo_storage_path funder))
                        brokerDomain (Name x) (Content x)))
     (trace (snd (Inline.attempt w funder id brokerDomain i x initial))).
Proof.
  unfold Inline.attempt, read, try_catch, bind, emit, await, settle, ret, throw,
    push_watermarked.
  answers; simpl; auto.
Qed.

Lemma staging_attempt_uploads w funder senderName i x :
  is_pdf (Name x) = true ->
  let path := Staging.tempFileName w i x in
  let buffer := Buffer.from_base64 (Content x) in
  In (Storage_upload "funder-logos" path buffer (ContentType x)
                     (storage_upload w i path buffer))
     (trace (snd (Staging.attempt w funder senderName i x initial))) /\
  (storage_upload w i path buffer = Upload_ok ->
   In (Fetch_watermark (FUNDER_API_URL w)
         (Payload_url (user_email funder) (Staging.fileUrl w path) senderName))
      (trace (snd (Staging.attempt w funder senderName i x initial)))).
Proof.
  intros H path buffer. subst path buffer.
  unfold Staging.attempt, read, try_catch, bind, emit, push_temp, push_watermarked,
    await, settle, ret, throw.
  cbn [object attachment_element]. rewrite H. simpl.
  destruct (storage_upload w i _ _) eqn:U; simpl;
    [|split; [auto | discriminate]..].
  split; [|intros _]; answers; simpl; auto.
Qed.

Lemma submit_state {E} `{Element E} w (req : Inbound E) funder brokerDomain (st : State) :
  snd (AsyncBatch.submit w req funder brokerDomain st)
  = log st [Fetch_watermark (FUNDER_API_URL w)
              (Payload_files (user_email funder) brokerDomain (AsyncBatch.files req))].
Proof.
  unfold AsyncBatch.submit, bind, emit, await, settle, ret, throw. answers.
Qed.

Lemma adds_after_submit {E} `{Element E} w (req : Inbound E) funder s
    (jobId : option string) :
  adds any_event
       (polled <- AsyncBatch.poll w jobId ;;
        zipEntries <- AsyncBatch.fetch_archive w polled ;;
        AsyncBatch.relay w req funder s zipEntries).
Proof. unfold_handler. repeat adds_step; exact I. Qed.

Lemma files_In (req : emailData) (att : RawAttachment) :
  In att (Attachments req) -> is_pdf (Name att) = true ->
  In (Name att, Content att) (AsyncBatch.files req).
Proof.
  intros H P. unfold AsyncBatch.files. rewrite pdfAttachments_attachments.
  apply (in_map (fun a => (Name a, Content a))). apply filter_In. auto.
Qed.

(** C9, as the code has it.  Whether an attachment is submitted does not
    depend on its content.  Every attachment with a [.pdf] name is part of
    the files the asynchronous version posts, with its content as
    received; the staging version uploads the decoded content of every
    such attachment, whatever it is, and posts its URL once the upload has
    succeeded; the inline version posts every attachment. *)
Theorem eligibility_is_by_name (w : World) (req : emailData) (r : string)
    (funder : Funder) (s senderName : string) (i : nat) (att : RawAttachment) :
  recipientEmail req = Some r ->
  select_funder w (funderId r) = Some funder ->
  senderEmail req = Some s ->
  fst (Staging.read_senderName req initial) = Val senderName ->
  nth_error (Attachments req) i = Some att ->
  (is_pdf (Name att) = true ->
     In (Name att, Content att) (AsyncBatch.files req) /\
     exists t,
       trace (snd (AsyncBatch.handle w req))
       = Directory_query (funderId r)
           :: Fetch_watermark (FUNDER_API_URL w)
                (Payload_files (user_email funder) (nth_error (Js.split "@" s) 1)
                               (AsyncBatch.files req))
           :: t) /\
  (is_pdf (Name att) = true ->
     let path := Staging.tempFileName w i att in
     let buffer := Buffer.from_base64 (Content att) in
     In (Storage_upload "funder-logos" path buffer (ContentType att)
                        (storage_upload w i path buffer))
        (trace (snd (Staging.handle w req))) /\
     (storage_upload w i path buffer = Upload_ok ->
      In (Fetch_watermark (FUNDER_API_URL w)
            (Payload_url (user_email funder) (Staging.fileUrl w path) senderName))
         (trace (snd (Staging.handle w req))))) /\
  In (Fetch_watermark (FUNDER_API_URL w)
        (Payload_inline (funderId r)
           (getPublicUrl w "gateway-logos" (logo_storage_path funder))
           (nth_error (Js.split "@" s) 1) (Name att) (Content att)))
     (trace (snd (Inline.handle w req))).
Proof.
  intros R F S N Hi.
  assert (In att (Attachments req)) as Hin by (eapply nth_error_In; exact Hi).
  assert (Attachments req <> []) as Ha by (intros E; rewrite E in Hin; exact Hin).
  split; [|split].
  - intros P. split; [now apply files_In|].
    assert (AsyncBatch.pdfAttachments req <> []) as Hp.
    { intros E. assert (In att (AsyncBatch.pdfAttachments req)) as X
        by (rewrite pdfAttachments_attachments; apply filter_In; auto).
      rewrite E in X. exact X. }
    rewrite (@async_reaches_try w req r funder s R F S Hp), answer_try_state.
    unfold AsyncBatch.watermark_and_send. rewrite bind_run.
    pose proof (submit_state w req funder (nth_error (Js.split "@" s) 1)
                  (queried (funderId r))) as E.
    destruct (AsyncBatch.submit _ _ _ _ _) as [[jobId|e|x] st];
      cbn [snd] in E; subst st.
    + destruct (adds_after_submit w req funder s jobId
                  (log (queried (funderId r))
                     [Fetch_watermark (FUNDER_API_URL w)
                        (Payload_files (user_email funder)
                           (nth_error (Js.split "@" s) 1) (AsyncBatch.files req))]))
        as (t & Ht & _).
      exists t. rewrite Ht. reflexivity.
    + exists []. reflexivity.
    + exists []. reflexivity.
  - intros P path buffer.
    destruct (staging_attempt_uploads w funder senderName i att P) as [U V].
    fold path buffer in U, V.
    rewrite staging_reaches_relay
      with (r := r) (funder := funder) (senderName := senderName) by assumption.
    destruct (staging_relay_trace w req funder senderName
                (log (join (queried (funderId r))
                        (deltas (Staging.attempt w funder senderName) 0 (Attachments req)))
                     (map (Storage_remove "funder-logos")
                        (tempFiles
                           (join (queried (funderId r))
                              (deltas (Staging.attempt w funder senderName) 0
                                 (Attachments req)))))))
      as (z & -> & _).
    cbn [log join trace queried app].
    split; [|intros X; specialize (V X)];
      right; apply in_or_app; left; apply in_or_app; left;
      (eapply deltas_In with (i := 0); [exact Hi | assumption]).
  - rewrite inline_reaches_relay with (r := r) (funder := funder) (s := s)
      by assumption.
    destruct (inline_relay_trace w funder s
                (join (queried (funderId r))
                   (deltas (Inline.attempt w funder (funderId r)
                              (nth_error (Js.split "@" s) 1)) 0 (Attachments req))))
      as (z & ->).
    cbn [join trace queried app].
    right. apply in_or_app. left.
    eapply deltas_In with (i := 0); [exact Hi | apply inline_attempt_submits].
Qed.

Lemma eligibility_is_by_name_witness :
  let att := {| Name := "a.pdf"; Content := ""; ContentType := "application/pdf" |} in
  let req := Samples.mail (Some "acme@gateway.example") [att] in
  In ("a.pdf", "") (AsyncBatch.files req) /\
  exists t,
    trace (snd (AsyncBatch.handle Samples.world req))
    = Directory_query "acme"
        :: Fetch_watermark "https://api.example/watermark-funder-broker"
             (Payload_files "owner@acme.example" (Some "deals.example") [("a.pdf", "")])
        :: t.
Proof.
  intros att req.
  destruct (@eligibility_is_by_name Samples.world req "acme@gateway.example"
              Samples.acme "broker@deals.example" "Broker" 0 att
              eq_refl eq_refl eq_refl eq_refl eq_refl) as (H & _).
  exact (H eq_refl).
Defined.

(** C9 as stated fails: an attachment [a.pdf] whose content is the empty
    string decodes to the empty buffer, and is submitted all the same, as
    a file of the batch by part_002 and as an uploaded (empty) object by
    part_001. *)
Lemma empty_document_is_submitted :
  let att := {| Name := "a.pdf"; Content := ""; ContentType := "application/pdf" |} in
  let req := Samples.mail (Some "acme@gateway.example") [att] in
  is_pdf (Name att) = true /\
  Buffer.from_base64 (Content att) = "" /\
  In (Fetch_watermark "https://api.example/watermark-funder-broker"
        (Payload_files "owner@acme.example" (Some "deals.example") [("a.pdf", "")]))
     (trace (snd (AsyncBatch.handle Samples.world req))) /\
  In (Storage_upload "funder-logos" "temp/1700000000000-a.pdf" ""
                     "application/pdf" Upload_ok)
     (trace (snd (Staging.handle Samples.world req))) /\
  In (Fetch_watermark "https://api.example/watermark-funder-broker"
        (Payload_url "owner@acme.example"
           "https://db.example/storage/v1/object/public/funder-logos/temp/1700000000000-a.pdf"
           "Broker"))
     (trace (snd (Staging.handle Samples.world req))).
Proof. vm_compute. tauto. Qed.

(** ** Temporary objects that stay behind *)

(** A [null] element.

    [express.json()] accepts [null] as an element of [Attachments].  A read
    of [attachment.Name] on it throws in the [try] block and again in the
    [catch] block, so the exception leaves the loop. *)

Section NullElement.

Variable w : World.
Variable funder : Funder.
Variable senderName : string.

Let body : nat -> RawAttachment -> M unit := Staging.attempt w funder senderName.
Let element_body : nat -> option RawAttachment -> M unit :=
  Staging.attempt w funder senderName.

Lemma staging_attempt_null (i : nat) (st : State) :
  element_body i None st
  = (Throw (TypeError "Cannot read properties of null (reading 'Name')"), st).
Proof. reflexivity. Qed.

Lemma staging_loop_null (before : list RawAttachment)
    (after : list (option RawAttachment)) :
  forall i st,
    for_of element_body i (map Some before ++ None :: after) st
    = (Throw (TypeError "Cannot read properties of null (reading 'Name')"),
       join st (deltas body i before)).
Proof.
  induction before as [|a l IH]; intros i st.
  - cbn [map app for_of deltas]. rewrite bind_run, staging_attempt_null.
    now rewrite join_initial_r.
  - cbn [map app for_of deltas]. rewrite bind_run.
    change (element_body i (Some a) st)
      with (Staging.attempt w funder senderName i a st).
    rewrite (framed_staging_attempt w funder senderName i a st).
    rewrite (staging_attempt_value w funder senderName i a).
    cbn [fst snd]. rewrite IH, join_assoc. reflexivity.
Qed.

End NullElement.

Lemma uploaded_In (t : list Event) (bucket path buffer contentType : string) :
  In (Storage_upload bucket path buffer contentType Upload_ok) t ->
  In (bucket, path) (uploaded t).
Proof.
  induction t as [|e t IH]; intros H; [contradiction|].
  destruct H as [->|H]; [now left|].
  destruct e as [| |? ? ? ? []| | | | | |]; simpl; auto.
Qed.

(** C5 fails in part_001.  When an element of [Attachments] is [null], the
    request is answered 500 "Internal server error" and the clean-up loop
    is never reached: nothing is removed and no mail is sent, while every
    PDF before the [null] whose upload the storage accepted stays behind
    in the bucket. *)
Theorem null_attachment_skips_cleanup (w : World) (req : jsonData) (r : string)
    (funder : Funder) (senderName : string) (before : list RawAttachment)
    (after : list (option RawAttachment)) :
  recipientEmail req = Some r ->
  select_funder w (funderId r) = Some funder ->
  fst (Staging.read_senderName req initial) = Val senderName ->
  Attachments req = map Some before ++ None :: after ->
  fst (Staging.handle w req)
    = {| status := 500; body := Body_error "Internal server error" |} /\
  removed (trace (snd (Staging.handle w req))) = [] /\
  sent (trace (snd (Staging.handle w req))) = [] /\
  (forall i attachment,
     nth_error before i = Some attachment ->
     is_pdf (Name attachment) = true ->
     let path := Staging.tempFileName w i attachment in
     storage_upload w i path (Buffer.from_base64 (Content attachment)) = Upload_ok ->
     In ("funder-logos", path) (uploaded (trace (snd (Staging.handle w req))))).
Proof.
  intros R F N A.
  assert (Staging.handle w req
          = (InternalError,
             join (queried (funderId r))
                  (deltas (Staging.attempt w funder senderName) 0 before))) as E.
  { unfold Staging.handle, run, Staging.webhook_inbound.
    rewrite lookup_first with (r := r) by exact R. rewrite F.
    unfold Staging.process. rewrite bind_run, read_senderName_pure, N.
    unfold no_attachments. rewrite A.
    assert (map Some before ++ None :: after <> []) as Ha
      by (destruct before; discriminate).
    destruct (map Some before ++ None :: after) as [|x l] eqn:L; [contradiction|].
    rewrite bind_run. unfold ret at 1. rewrite bind_run, <- L.
    rewrite staging_loop_null. reflexivity. }
  rewrite E. cbn [fst snd join trace queried app].
  split; [reflexivity|]. split; [|split].
  - cbn [removed]. apply deltas_removed. intros i x. apply staging_attempt_removed.
  - cbn [sent]. apply deltas_sent. intros i x. apply staging_attempt_sent.
  - intros i attachment Hi P U.
    destruct (staging_attempt_uploads w funder senderName i attachment P) as [H _].
    cbv zeta in H. rewrite U in H.
    apply uploaded_In with (buffer := Buffer.from_base64 (Content attachment))
                           (contentType := ContentType attachment).
    right. eapply deltas_In with (i := 0); [exact Hi | exact H].
Qed.

Lemma null_attachment_skips_cleanup_witness :
  let req : jsonData :=
    {| ToFull := []; To := Some "acme@gateway.example";
       From := Some "broker@deals.example"; FromName := Some "Broker";
       FromFull := None; Subject := Some "Deal"; TextBody := Some "see attached";
       HtmlBody := None; Attachments := [Some (Samples.pdf "a.pdf"); None] |} in
  fst (Staging.handle Samples.world req)
    = {| status := 500; body := Body_error "Internal server error" |} /\
  removed (trace (snd (Staging.handle Samples.world req))) = [] /\
  In ("funder-logos", "temp/1700000000000-a.pdf")
     (uploaded (trace (snd (Staging.handle Samples.world req)))).
Proof.
  intros req.
  destruct (@null_attachment_skips_cleanup Samples.world req "acme@gateway.example"
              Samples.acme "Broker" [Samples.pdf "a.pdf"] []
              eq_refl eq_refl eq_refl eq_refl) as (H1 & H2 & _ & H4).
  split; [exact H1|]. split; [exact H2|].
  exact (H4 0 (Samples.pdf "a.pdf") eq_refl eq_refl eq_refl).
Defined.

(** The run itself: the PDF is uploaded, watermarked and fetched, then the
    [null] element ends the request; the object is still in the bucket. *)
Example null_attachment_leaves_the_object :
  let req : jsonData :=
    {| ToFull := []; To := Some "acme@gateway.example";
       From := Some "broker@deals.example"; FromName := Some "Broker";
       FromFull := None; Subject := Some "Deal"; TextBody := Some "see attached";
       HtmlBody := None; Attachments := [Some (Samples.pdf "a.pdf"); None] |} in
  Staging.handle Samples.world req
  = ({| status := 500; body := Body_error "Internal server error" |},
     {| trace :=
          [Directory_query "acme";
           Storage_upload "funder-logos" "temp/1700000000000-a.pdf" "%PDF"
                          "application/pdf" Upload_ok;
           Storage_getPublicUrl "funder-logos" "temp/1700000000000-a.pdf";
           Fetch_watermark "https://api.example/watermark-funder-broker"
             (Payload_url "owner@acme.example"
                "https://db.example/storage/v1/object/public/funder-logos/temp/1700000000000-a.pdf"
                "Broker");
           Fetch_download "https://api.example/out.pdf"];
        watermarkedAttachments :=
          [{| out_Name := "a.pdf"; out_Content := "bWFya2Vk";
              out_ContentType := "application/pdf" |}];
        tempFiles := ["temp/1700000000000-a.pdf"] |}).
Proof. vm_compute. reflexivity. Qed.

(** The other versions on the same body: src/index.js leaves its loop in
    the same way, part_002 throws in its filter; both answer 500 "Internal
    server error" and send nothing. *)
Example null_attachment_elsewhere :
  let req : jsonData :=
    {| ToFull := []; To := Some "acme@gateway.example";
       From := Some "broker@deals.example"; FromName := Some "Broker";
       FromFull := None; Subject := Some "Deal"; TextBody := Some "see attached";
       HtmlBody := None; Attachments := [Some (Samples.pdf "a.pdf"); None] |} in
  fst (Inline.handle Samples.world req)
    = {| status := 500; body := Body_error "Internal server error" |} /\
  sent (trace (snd (Inline.handle Samples.world req))) = [] /\
  AsyncBatch.handle Samples.world req
    = ({| status := 500; body := Body_error "Internal server error" |},
       queried "acme").
Proof. vm_compute. auto. Qed.


(** * Further properties of the code *)

(** ** Strings: extensions, keys and domains *)

Lemma toLowerCase_length (s : string) :
  String.length (Js.toLowerCase s) = String.length s.
Proof. induction s as [|c s IH]; simpl; congruence. Qed.

Lemma toLowerCase_app (a b : string) :
  Js.toLowerCase (a ++ b)%string = (Js.toLowerCase a ++ Js.toLowerCase b)%string.
Proof. induction a as [|c a IH]; simpl; congruence. Qed.

Lemma toLowerCase_substring (s : string) :
  forall n m, Js.toLowerCase (substring n m s) = substring n m (Js.toLowerCase s).
Proof.
  induction s as [|c s IH]; intros [|n] [|m]; simpl; try reflexivity.
  - now rewrite IH.
  - apply IH.
  - apply IH.
Qed.

Lemma substring_split (s : string) :
  forall k, k <= String.length s ->
    s = (substring 0 k s ++ substring k (String.length s - k) s)%string.
Proof.
  induction s as [|c s IH]; intros [|k] H; simpl in *.
  - reflexivity.
  - lia.
  - f_equal. clear. induction s as [|d s IH]; simpl; congruence.
  - f_equal. apply IH. lia.
Qed.

Lemma substring_suffix (a b : string) :
  substring (String.length a) (String.length b) (a ++ b)%string = b.
Proof.
  induction a as [|c a IH]; simpl; [|exact IH].
  induction b as [|d b IHb]; simpl; congruence.
Qed.

Lemma app_length_string (a b : string) :
  String.length (a ++ b)%string = String.length a + String.length b.
Proof. induction a as [|c a IH]; simpl; congruence. Qed.

(** X1.  The extension test of the code, [name.toLowerCase().endsWith('.pdf')],
    accepts exactly the names that end in four characters spelling [.pdf]
    in any mix of cases. *)
Theorem is_pdf_iff_suffix (name : string) :
  is_pdf name = true <->
  exists base ext,
    name = (base ++ ext)%string /\ Js.toLowerCase ext = ".pdf".
Proof.
  unfold is_pdf, Js.endsWith. rewrite toLowerCase_length.
  change (String.length ".pdf") with 4. split.
  - intros H. apply andb_true_iff in H. destruct H as [L E].
    apply Nat.leb_le in L. apply String.eqb_eq in E.
    exists (substring 0 (String.length name - 4) name),
           (substring (String.length name - 4) 4 name).
    split.
    + rewrite (@substring_split name (String.length name - 4)) at 1 by lia.
      do 2 f_equal. lia.
    + rewrite toLowerCase_substring. exact E.
  - intros (base & ext & -> & E).
    assert (String.length ext = 4) as L.
    { rewrite <- toLowerCase_length, E. reflexivity. }
    rewrite app_length_string, L.
    replace (4 <=? String.length base + 4) with true
      by (symmetry; apply Nat.leb_le; lia).
    replace (String.length base + 4 - 4) with (String.length (Js.toLowerCase base))
      by (rewrite toLowerCase_length; lia).
    rewrite toLowerCase_app, E.
    change 4 with (String.length ".pdf").
    rewrite substring_suffix. reflexivity.
Qed.

Lemma is_pdf_iff_suffix_witness :
  is_pdf "Q3 Report.PdF" = true.
Proof.
  apply (proj2 (is_pdf_iff_suffix "Q3 Report.PdF")).
  exists "Q3 Report", ".PdF". split; reflexivity.
Defined.

Lemma split_cons (sep c : ascii) (r : string) :
  exists h t,
    Js.split sep r = h :: t /\
    Js.split sep (String c r)
    = if Ascii.eqb c sep then EmptyString :: h :: t else String c h :: t.
Proof.
  destruct (Js.split sep r) as [|h t] eqn:E.
  - now apply split_nonempty in E.
  - exists h, t. split; [reflexivity|]. simpl. rewrite E. reflexivity.
Qed.

Lemma split_without_separator (s : string) :
  has_separator s = false -> Js.split "@" s = [s].
Proof.
  unfold has_separator. induction s as [|c r IH]; intros H; [reflexivity|].
  cbn [existsb list_ascii_of_string] in H. apply orb_false_elim in H.
  destruct H as [Hc Hr]. simpl. rewrite Hc, (IH Hr). reflexivity.
Qed.

Lemma split_at_separator (key rest : string) :
  has_separator key = false ->
  Js.split "@" (key ++ String "@" rest)%string = key :: Js.split "@" rest.
Proof.
  unfold has_separator. induction key as [|c r IH]; intros H.
  - reflexivity.
  - cbn [existsb list_ascii_of_string] in H. apply orb_false_elim in H.
    destruct H as [Hc Hr].
    change (Js.split "@" (String c (r ++ String "@" rest)%string)
            = String c r :: Js.split "@" rest).
    simpl. rewrite Hc, (IH Hr). reflexivity.
Qed.

Lemma has_separator_cons (c : ascii) (r : string) :
  has_separator (String c r) = Ascii.eqb c "@" || has_separator r.
Proof. reflexivity. Qed.

Lemma funderId_shape (r : string) :
  has_separator (funderId r) = false /\
  String.prefix (funderId r) r = true /\
  (has_separator r = true ->
   exists rest, r = (funderId r ++ String "@" rest)%string).
Proof.
  induction r as [|c r (IH1 & IH2 & IH3)].
  - repeat split. discriminate.
  - rewrite funderId_cons, has_separator_cons.
    destruct (Ascii.eqb_spec c "@") as [->|Hc].
    + repeat split. intros _. exists r. reflexivity.
    + split; [|split].
      * rewrite has_separator_cons.
        destruct (Ascii.eqb_spec c "@"); [contradiction | exact IH1].
      * simpl. destruct (ascii_dec c c); [exact IH2 | contradiction].
      * simpl. intros H. destruct (IH3 H) as [rest E].
        exists rest. simpl. now rewrite <- E.
Qed.

(** X2.  The tenant key [recipientEmail.split('@')[0]] never contains an
    [@]; it is a prefix of the address, and when the address has an [@]
    the key is followed by it. *)
Theorem tenant_key_shape (r : string) :
  has_separator (funderId r) = false /\
  String.prefix (funderId r) r = true /\
  (has_separator r = true ->
   exists rest, r = (funderId r ++ String "@" rest)%string).
Proof. exact (funderId_shape r). Qed.

Lemma tenant_key_shape_witness :
  exists rest,
    "test1@gateway.aquamark.io" = (funderId "test1@gateway.aquamark.io"
                                   ++ String "@" rest)%string.
Proof.
  apply (proj2 (proj2 (tenant_key_shape "test1@gateway.aquamark.io"))).
  reflexivity.
Defined.

(** X3.  The broker domain [senderEmail.split('@')[1]] is undefined exactly
    when the sender address has no [@]; otherwise it is the text between
    the first [@] and the next one, or the end of the address. *)
Theorem broker_domain_shape (s : string) :
  (nth_error (Js.split "@" s) 1 = None <-> has_separator s = false) /\
  (forall user rest,
     has_separator user = false ->
     s = (user ++ String "@" rest)%string ->
     nth_error (Js.split "@" s) 1 = Some (funderId rest) /\
     has_separator (funderId rest) = false).
Proof.
  split.
  - split.
    + intros H. destruct (has_separator s) eqn:E; [|reflexivity].
      destruct (funderId_shape s) as (K & _ & D).
      destruct (D E) as [rest R]. rewrite R in H.
      rewrite (split_at_separator _ rest K) in H.
      destruct (Js.split "@" rest) eqn:X; [now apply split_nonempty in X|].
      discriminate.
    + intros H. now rewrite (split_without_separator s H).
  - intros user rest U ->. rewrite (split_at_separator user rest U).
    split; [|apply funderId_shape].
    unfold funderId. simpl.
    destruct (Js.split "@" rest) eqn:X; [now apply split_nonempty in X|].
    reflexivity.
Qed.

Lemma broker_domain_shape_witness :
  nth_error (Js.split "@" "broker@deals.example") 1 = Some "deals.example".
Proof.
  exact (proj1 (proj2 (broker_domain_shape "broker@deals.example")
                  "broker" "deals.example" eq_refl eq_refl)).
Defined.

Lemma join_with_cons (sep : ascii) (p : string) (rest : list string) :
  rest <> [] ->
  join_with sep (p :: rest) = (p ++ String sep (join_with sep rest))%string.
Proof. destruct rest; [contradiction | reflexivity]. Qed.

(** X4.  [split] loses nothing: the pieces of [s.split(sep)] contain no
    separator, and joined again with the separator they give [s] back. *)
Theorem split_join (sep : ascii) (s : string) :
  join_with sep (Js.split sep s) = s /\
  Forall (fun p => existsb (fun c => Ascii.eqb c sep) (list_ascii_of_string p) = false)
         (Js.split sep s).
Proof.
  induction s as [|c r [IHj IHf]].
  - split; [reflexivity|]. repeat constructor.
  - destruct (split_cons sep c r) as (h & t & E & ->). rewrite E in IHj, IHf.
    destruct (Ascii.eqb_spec c sep) as [->|Hc].
    + split.
      * rewrite join_with_cons by discriminate. rewrite IHj. reflexivity.
      * constructor; [reflexivity | exact IHf].
    + split.
      * destruct t as [|p t]; simpl in *; [congruence|].
        f_equal. exact IHj.
      * inversion IHf as [|? ? Hh Ht]; subst. constructor; [|exact Ht].
        simpl. rewrite Hh.
        destruct (Ascii.eqb_spec c sep); [contradiction | reflexivity].
Qed.

(** ** Base64 *)

From Stdlib Require Import ZArith.

Lemma digit_sextet (n : N) :
  (n < 64)%N ->
  Buffer.unbase64 (Buffer.digit n) = Some n /\
  Ascii.eqb (Buffer.digit n) "=" = false.
Proof.
  intros H.
  assert (forallb (fun k => match Buffer.unbase64 (Buffer.digit k) with
                            | Some v => N.eqb v k
                            | None => false
                            end && negb (Ascii.eqb (Buffer.digit k) "="))
                  (map N.of_nat (seq 0 64)) = true) as T
    by (vm_compute; reflexivity).
  rewrite forallb_forall in T.
  assert (In n (map N.of_nat (seq 0 64))) as I.
  { rewrite <- (N2Nat.id n). apply in_map. apply in_seq. lia. }
  specialize (T n I). apply andb_true_iff in T. destruct T as [T1 T2].
  destruct (Buffer.unbase64 (Buffer.digit n)) as [v|]; [|discriminate].
  apply N.eqb_eq in T1. subst v. split; [reflexivity|].
  now apply negb_true_iff in T2.
Qed.

Lemma digit_mod (n : N) : Buffer.digit n = Buffer.digit (n mod 64)%N.
Proof. unfold Buffer.digit. rewrite N.Div0.mod_mod. reflexivity. Qed.

Lemma sextets_digit (n : N) (s : string) :
  Buffer.sextets (String (Buffer.digit n) s) = (n mod 64)%N :: Buffer.sextets s.
Proof.
  rewrite digit_mod.
  destruct (@digit_sextet (n mod 64)%N) as [U E]; [apply N.mod_lt; discriminate|].
  simpl. now rewrite E, U.
Qed.

Lemma byte_of (x a : N) : (a < 256)%N -> (x mod 256 = a)%N -> Buffer.byte x = ascii_of_N a.
Proof. intros _ H. unfold Buffer.byte. now rewrite H. Qed.

(** The arithmetic of three bytes in four sextets, in [Z]. *)
Ltac by_equations := intros; Z.div_mod_to_equations; lia.

Ltac to_Z :=
  apply N2Z.inj;
  repeat (rewrite ?N2Z.inj_mod, ?N2Z.inj_add, ?N2Z.inj_mul, ?N2Z.inj_div);
  change (Z.of_N 4) with 4%Z; change (Z.of_N 16) with 16%Z;
  change (Z.of_N 64) with 64%Z; change (Z.of_N 256) with 256%Z.

Lemma base64_first_Z (a b : Z) :
  (0 <= a < 256 -> 0 <= b < 256 ->
   ((a / 4) mod 64 * 4 + (a * 16 + b / 16) mod 64 / 16) mod 256 = a)%Z.
Proof. by_equations. Qed.

Lemma base64_second_Z (a b c : Z) :
  (0 <= a < 256 -> 0 <= b < 256 -> 0 <= c < 256 ->
   ((a * 16 + b / 16) mod 64 * 16 + (b * 4 + c / 64) mod 64 / 4) mod 256 = b)%Z.
Proof. by_equations. Qed.

Lemma base64_third_Z (b c : Z) :
  (0 <= b < 256 -> 0 <= c < 256 ->
   ((b * 4 + c / 64) mod 64 * 64 + c mod 64) mod 256 = c)%Z.
Proof. by_equations. Qed.

Lemma base64_first (a b : N) :
  (a < 256)%N -> (b < 256)%N ->
  (((a / 4) mod 64 * 4 + (a * 16 + b / 16) mod 64 / 16) mod 256 = a)%N.
Proof. intros. to_Z. apply base64_first_Z; lia. Qed.

Lemma base64_second (a b c : N) :
  (a < 256)%N -> (b < 256)%N -> (c < 256)%N ->
  (((a * 16 + b / 16) mod 64 * 16 + (b * 4 + c / 64) mod 64 / 4) mod 256 = b)%N.
Proof. intros. to_Z. apply base64_second_Z; lia. Qed.

Lemma base64_third (b c : N) :
  (b < 256)%N -> (c < 256)%N ->
  (((b * 4 + c / 64) mod 64 * 64 + c mod 64) mod 256 = c)%N.
Proof. intros. to_Z. apply base64_third_Z; lia. Qed.

Lemma base64_second_last (a b : N) :
  (a < 256)%N -> (b < 256)%N ->
  (((a * 16 + b / 16) mod 64 * 16 + (b * 4) mod 64 / 4) mod 256 = b)%N.
Proof.
  intros Ha Hb. pose proof (@base64_second a b 0%N Ha Hb eq_refl) as H.
  change (0 / 64)%N with 0%N in H. now rewrite N.add_0_r in H.
Qed.

Lemma base64_first_last (a : N) :
  (a < 256)%N ->
  (((a / 4) mod 64 * 4 + (a * 16) mod 64 / 16) mod 256 = a)%N.
Proof.
  intros Ha. pose proof (@base64_first a 0%N Ha eq_refl) as H.
  change (0 / 16)%N with 0%N in H. now rewrite N.add_0_r in H.
Qed.

Lemma sextets_padding (s : string) : Buffer.sextets (String "=" s) = [].
Proof. reflexivity. Qed.

Lemma decode_encode (n : nat) :
  forall l, List.length l <= n -> Forall (fun a => (a < 256)%N) l ->
    Buffer.pack (Buffer.sextets (Buffer.encode l))
    = string_of_list_ascii (map ascii_of_N l).
Proof.
  induction n as [|n IH]; intros l L B.
  - destruct l; [reflexivity | simpl in L; lia].
  - destruct l as [|a [|b [|c r]]].
    + reflexivity.
    + inversion B as [|? ? Ha _]; subst.
      cbn [Buffer.encode]. rewrite !sextets_digit.
      change "=="%string with (String "=" "=") .
      rewrite sextets_padding. cbn [Buffer.pack map string_of_list_ascii].
      f_equal. apply byte_of; [exact Ha|]. now apply base64_first_last.
    + inversion B as [|? ? Ha B']; subst. inversion B' as [|? ? Hb _]; subst.
      cbn [Buffer.encode]. rewrite !sextets_digit, sextets_padding.
      cbn [Buffer.pack map string_of_list_ascii].
      f_equal; [|f_equal].
      * apply byte_of; [exact Ha|]. now apply base64_first.
      * apply byte_of; [exact Hb|]. now apply base64_second_last.
    + inversion B as [|? ? Ha B']; subst. inversion B' as [|? ? Hb B'']; subst.
      inversion B'' as [|? ? Hc Br]; subst.
      cbn [Buffer.encode]. rewrite !sextets_digit.
      cbn [Buffer.pack map string_of_list_ascii].
      f_equal; [|f_equal; [|f_equal]].
      * apply byte_of; [exact Ha|]. now apply base64_first.
      * apply byte_of; [exact Hb|]. now apply base64_second.
      * apply byte_of; [exact Hc|]. now apply base64_third.
      * apply IH; [simpl in L; lia | exact Br].
Qed.

(** A string of ASCII characters is its own code units, and the decoder
    reads it as it is. *)
Lemma code_units_ascii (s : string) :
  Forall (fun c => (N_of_ascii c < 128)%N) (list_ascii_of_string s) ->
  Js.code_units s = map N_of_ascii (list_ascii_of_string s).
Proof.
  induction s as [|c r IH]; intros H; [reflexivity|].
  cbn [list_ascii_of_string] in H. inversion H as [|? ? Hc Hr]; subst.
  cbn [Js.code_units list_ascii_of_string map].
  replace (N_of_ascii c <? 192)%N with true by (symmetry; apply N.ltb_lt; lia).
  now rewrite IH.
Qed.

Lemma low_bytes_ascii (s : string) :
  Forall (fun c => (N_of_ascii c < 128)%N) (list_ascii_of_string s) ->
  Buffer.low_bytes s = s.
Proof.
  intros H. unfold Buffer.low_bytes. rewrite (@code_units_ascii s H), map_map.
  rewrite (map_ext _ (fun c => c)).
  - rewrite map_id. apply string_of_list_ascii_of_string.
  - intros c. unfold Buffer.byte.
    rewrite N.mod_small by apply N_ascii_bounded. apply ascii_N_embedding.
Qed.

Lemma digit_ascii (n : N) : (N_of_ascii (Buffer.digit n) < 128)%N.
Proof.
  rewrite digit_mod.
  assert (forallb (fun k => (N_of_ascii (Buffer.digit k) <? 128)%N)
                  (map N.of_nat (seq 0 64)) = true) as T
    by (vm_compute; reflexivity).
  rewrite forallb_forall in T. apply N.ltb_lt, T.
  assert (n mod 64 < 64)%N as B by (apply N.mod_lt; discriminate).
  revert B. generalize (n mod 64)%N. intros m B.
  rewrite <- (N2Nat.id m). apply in_map. apply in_seq. lia.
Qed.

Lemma encode_ascii (n : nat) :
  forall l, List.length l <= n ->
    Forall (fun c => (N_of_ascii c < 128)%N) (list_ascii_of_string (Buffer.encode l)).
Proof.
  induction n as [|n IH]; intros l L.
  - destruct l; [constructor | simpl in L; lia].
  - destruct l as [|a [|b [|c r]]]; cbn [Buffer.encode list_ascii_of_string].
    + constructor.
    + repeat (constructor; [try apply digit_ascii; try (vm_compute; reflexivity)|]).
      constructor.
    + repeat (constructor; [try apply digit_ascii; try (vm_compute; reflexivity)|]).
      constructor.
    + repeat (constructor; [apply digit_ascii|]).
      apply IH. simpl in L. lia.
Qed.

(** The decoder reads the low byte of a code unit: the two bytes of U+0141
    are one code unit with the low byte of [A], and those of U+013D one
    with the low byte of [=], where decoding stops. *)
Example base64_reads_low_bytes :
  Js.code_units (String (ascii_of_N 197) (String (ascii_of_N 129) "QUJD"))
    = [321; 81; 85; 74; 68]%N /\
  Buffer.from_base64 (String (ascii_of_N 197) (String (ascii_of_N 129) "QUJD"))
    = Buffer.from_base64 "AQUJD" /\
  Buffer.from_base64 (String "S" (String "G" (String "k" (String (ascii_of_N 196)
                        (String (ascii_of_N 189) "QUJD")))))
    = "Hi".
Proof. vm_compute. auto. Qed.

(** X5.  Decoding what was encoded gives the buffer back: for every byte
    string, [Buffer.from(buf.toString('base64'), 'base64')] is [buf]. *)
Theorem base64_round_trip (buf : string) :
  Buffer.from_base64 (Buffer.to_base64 buf) = buf.
Proof.
  unfold Buffer.from_base64, Buffer.to_base64.
  rewrite low_bytes_ascii by (eapply encode_ascii, le_n).
  assert (Forall (fun a => (a < 256)%N)
                 (map N_of_ascii (list_ascii_of_string buf))) as B.
  { induction (list_ascii_of_string buf) as [|c l IH]; simpl;
      constructor; [apply N_ascii_bounded | exact IH]. }
  rewrite (decode_encode (le_n _) B).
  rewrite map_map.
  rewrite (map_ext _ (fun c => c)) by (intros c; apply ascii_N_embedding).
  rewrite map_id. apply string_of_list_ascii_of_string.
Qed.

(** ** The directory *)

Lemma select_funder_matching (w : World) (id : string) :
  select_funder w id
  = if directory_error w then None else single (matching_rows w id).
Proof. reflexivity. Qed.

(** X7.  The lookup succeeds only when the query is answered without error
    by exactly one active row for the key: a directory error, no row, or
    several active rows with the same key all end in 404 "Funder not
    found" with the directory query as only call. *)
Theorem lookup_needs_a_single_row (w : World) (req : emailData) (r : string) :
  recipientEmail req = Some r ->
  directory_error w = true \/ List.length (matching_rows w (funderId r)) <> 1 ->
  Inline.handle w req = (TenantNotFound, queried (funderId r)) /\
  Staging.handle w req = (TenantNotFound, queried (funderId r)) /\
  AsyncBatch.handle w req = (TenantNotFound, queried (funderId r)).
Proof.
  intros R H.
  assert (select_funder w (funderId r) = None) as N.
  { rewrite select_funder_matching. destruct H as [->|H]; [reflexivity|].
    destruct (directory_error w); [reflexivity|].
    destruct (matching_rows w (funderId r)) as [|f [|g l]]; try reflexivity.
    now contradiction H. }
  unfold Inline.handle, Staging.handle, AsyncBatch.handle, run, answer,
    Inline.webhook_inbound, Staging.webhook_inbound, AsyncBatch.webhook_inbound.
  rewrite !lookup_first with (r := r) by exact R.
  rewrite N. auto.
Qed.

Lemma lookup_needs_a_single_row_witness :
  let w := Samples.make [Samples.acme; Samples.acme] (fun _ => Upload_ok)
             (fun _ => true) (fun _ => Samples.completed) Samples.archive in
  AsyncBatch.handle w (Samples.mail (Some "acme@gateway.example") [Samples.pdf "a.pdf"])
  = (TenantNotFound, queried "acme").
Proof.
  intros w.
  apply (@lookup_needs_a_single_row w
           (Samples.mail (Some "acme@gateway.example") [Samples.pdf "a.pdf"])
           "acme@gateway.example" eq_refl).
  right. vm_compute. discriminate.
Defined.

Lemma select_funder_row (w : World) (id : string) (funder : Funder) :
  select_funder w id = Some funder ->
  directory_error w = false /\ matching_rows w id = [funder].
Proof.
  rewrite select_funder_matching. destruct (directory_error w); [discriminate|].
  destruct (matching_rows w id) as [|f [|g l]]; try discriminate.
  intros [= ->]. auto.
Qed.

(** X8.  A mail is only ever sent to the [destination_email] of a row of
    the directory that is active and whose [funder_id] is the tenant key
    of the recipient address; this holds in the three versions. *)
Theorem mail_goes_to_the_active_funder (w : World) (req : emailData)
    (m : OutboundMessage) :
  In (Send_email m) (trace (snd (Inline.handle w req))) \/
  In (Send_email m) (trace (snd (Staging.handle w req))) \/
  In (Send_email m) (trace (snd (AsyncBatch.handle w req))) ->
  exists r funder,
    recipientEmail req = Some r /\
    In funder (email_gateway_funders w) /\
    funder_id funder = funderId r /\
    active funder = true /\
    directory_error w = false /\
    msg_To m = destination_email funder.
Proof.
  unfold Staging.handle, AsyncBatch.handle, Inline.handle. rewrite !run_state.
  assert (forall r funder, recipientEmail req = Some r ->
            select_funder w (funderId r) = Some funder ->
            msg_To m = destination_email funder ->
            exists r funder,
              recipientEmail req = Some r /\
              In funder (email_gateway_funders w) /\
              funder_id funder = funderId r /\
              active funder = true /\
              directory_error w = false /\
              msg_To m = destination_email funder) as K.
  { intros r funder R F T. exists r, funder.
    destruct (select_funder_active w _ F) as (I & E & A).
    destruct (select_funder_row w _ F) as (D & _). auto 10. }
  intros [H|[H|H]].
  - apply (handle_calls _ w req _ (Send_email m)
             (fun id funder => inline_relays_as_sender w req id funder)) in H.
    destruct H as (r & R & [H|(funder & F & H)]); [discriminate|].
    cbn in H. apply (K r funder R F). tauto.
  - apply (handle_calls _ w req _ (Send_email m)
             (fun id funder => staging_relays_by_gateway w req id funder)) in H.
    destruct H as (r & R & [H|(funder & F & H)]); [discriminate|].
    cbn in H. apply (K r funder R F). tauto.
  - apply (handle_calls _ w req _ (Send_email m)
             (fun id funder => async_relays_by_gateway w req id funder)) in H.
    destruct H as (r & R & [H|(funder & F & H)]); [discriminate|].
    cbn in H. apply (K r funder R F). tauto.
Qed.

Lemma mail_goes_to_the_active_funder_witness :
  exists m,
    In (Send_email m)
       (trace (snd (Inline.handle Samples.world
                      (Samples.mail (Some "acme@gateway.example")
                                    [Samples.pdf "a.pdf"])))) /\
    msg_To m = "ops@acme.example".
Proof.
  set (m := {| msg_From := "broker@deals.example";
               msg_ReplyTo := None;
               msg_To := "ops@acme.example";
               msg_Subject := "New Submission";
               msg_TextBody := "";
               msg_Attachments := [{| out_Name := "a.pdf"; out_Content := "bWFya2Vk";
                                      out_ContentType := "application/pdf" |}] |}).
  exists m.
  assert (In (Send_email m)
             (trace (snd (Inline.handle Samples.world
                            (Samples.mail (Some "acme@gateway.example")
                                          [Samples.pdf "a.pdf"]))))) as H.
  { vm_compute. tauto. }
  split; [exact H|].
  destruct (@mail_goes_to_the_active_funder Samples.world _ m (or_introl H))
    as (r & funder & _). reflexivity.
Defined.

(** ** A request without a sender address *)

(** X6.  When neither [From] nor [FromFull.Email] is present, the
    versions that compute the broker domain (src/index.js, part_002) fail
    on [senderEmail.split] right after the lookup: 500 "Internal server
    error", nothing but the directory called.  part_001 fails in the same
    way only when no sender name is present either; with a name it goes
    on, and a mail it sends has no reply-to. *)
Theorem missing_sender (w : World) (req : emailData) (r : string) (funder : Funder) :
  recipientEmail req = Some r ->
  select_funder w (funderId r) = Some funder ->
  senderEmail req = None ->
  Inline.handle w req = (InternalError, queried (funderId r)) /\
  AsyncBatch.handle w req = (InternalError, queried (funderId r)) /\
  (Js.truthy (display_name req) = false ->
     Staging.handle w req = (InternalError, queried (funderId r))) /\
  (Js.truthy (display_name req) = true ->
     (Attachments req = [] ->
      Staging.handle w req = (NoOp "No attachments to process", queried (funderId r))) /\
     (forall m, In (Send_email m) (trace (snd (Staging.handle w req))) ->
                msg_ReplyTo m = None)).
Proof.
  intros R F S.
  assert (forall A (rest : string -> Funder -> M A),
            (id <- read_funderId req ;; funder <- lookup_funder w id ;; rest id funder)
              initial = rest (funderId r) funder (queried (funderId r))) as L.
  { intros A rest. rewrite lookup_first with (r := r) by exact R. now rewrite F. }
  split; [|split; [|split]].
  - unfold Inline.handle, run, Inline.webhook_inbound. rewrite L.
    unfold Inline.process, read_brokerDomain. now rewrite S.
  - unfold AsyncBatch.handle, run, AsyncBatch.webhook_inbound. rewrite L.
    unfold AsyncBatch.process, read_brokerDomain. now rewrite S.
  - intros T. unfold Staging.handle, run, Staging.webhook_inbound. rewrite L.
    unfold Staging.process, Staging.read_senderName.
    fold (display_name req). rewrite S, bind_run.
    destruct (display_name req) as [[|c n]|]; try reflexivity. discriminate.
  - intros T. split.
    + intros E. unfold Staging.handle, run, Staging.webhook_inbound. rewrite L.
      unfold Staging.process, Staging.read_senderName.
      fold (display_name req). rewrite bind_run.
      destruct (display_name req) as [[|c n]|]; try discriminate.
      unfold no_attachments. now rewrite E.
    + intros m H. unfold Staging.handle in H. rewrite run_state in H.
      apply (handle_calls _ w req _ (Send_email m)
               (fun id funder => staging_relays_by_gateway w req id funder)) in H.
      destruct H as (r' & _ & [H|(funder' & _ & H)]); [discriminate|].
      cbn in H. rewrite S in H. tauto.
Qed.

Lemma missing_sender_witness :
  let req := {| ToFull := []; To := Some "acme@gateway.example"; From := None;
                FromName := None; FromFull := None; Subject := None;
                TextBody := None; HtmlBody := None;
                Attachments := [Samples.pdf "a.pdf"] |} in
  AsyncBatch.handle Samples.world req = (InternalError, queried "acme") /\
  Staging.handle Samples.world req = (InternalError, queried "acme").
Proof.
  intros req.
  destruct (@missing_sender Samples.world req "acme@gateway.example" Samples.acme
              eq_refl eq_refl eq_refl) as (_ & H2 & H3 & _).
  split; [exact H2 | exact (H3 eq_refl)].
Defined.

(** ** One call per attachment *)

Lemma watermark_calls_app (t u : list Event) :
  watermark_calls (t ++ u) = watermark_calls t ++ watermark_calls u.
Proof. induction t as [|[] t IH]; simpl; now rewrite ?IH. Qed.

Lemma upload_attempts_app (t u : list Event) :
  upload_attempts (t ++ u) = upload_attempts t + upload_attempts u.
Proof. induction t as [|[] t IH]; simpl; now rewrite ?IH. Qed.

Lemma inline_relay_tail (w : World) (funder : Funder) (s : string) (st : State) :
  exists z,
    trace (snd (answer (Inline.relay w funder s st))) = trace st ++ z /\
    (z = [] \/ exists m, z = [Send_email m]).
Proof.
  unfold Inline.relay. rewrite bind_run. unfold get_watermarked.
  destruct (watermarkedAttachments st) as [|a l].
  - exists []. rewrite app_nil_r. auto.
  - rewrite bind_run, send_run. eexists [_].
    split; [destruct (sendEmail w _); reflexivity | eauto].
Qed.

Lemma staging_relay_tail (w : World) (req : emailData) (funder : Funder)
    (name : string) (st : State) :
  exists z,
    trace (snd (answer (Staging.relay w req funder name st))) = trace st ++ z /\
    (z = [] \/ exists m, z = [Send_email m]).
Proof.
  unfold Staging.relay. rewrite bind_run. unfold get_watermarked.
  destruct (watermarkedAttachments st) as [|a l].
  - exists []. rewrite app_nil_r. auto.
  - rewrite bind_run, send_run. eexists [_].
    split; [destruct (sendEmail w _); reflexivity | eauto].
Qed.

Lemma inline_attempt_call w funder id brokerDomain i x :
  watermark_calls (trace (snd (Inline.attempt w funder id brokerDomain i x initial)))
  = [Payload_inline id (getPublicUrl w "gateway-logos" (logo_storage_path funder))
                    brokerDomain (Name x) (Content x)].
Proof.
  unfold Inline.attempt, try_catch, bind, emit, await, settle, ret, throw,
    push_watermarked.
  answers.
Qed.

Lemma inline_loop_calls w funder id brokerDomain (l : list RawAttachment) :
  forall i,
    watermark_calls (trace (deltas (Inline.attempt w funder id brokerDomain) i l))
    = map (fun x => Payload_inline id
                      (getPublicUrl w "gateway-logos" (logo_storage_path funder))
                      brokerDomain (Name x) (Content x)) l.
Proof.
  induction l as [|x l IH]; intros i; simpl; [reflexivity|].
  now rewrite watermark_calls_app, inline_attempt_call, IH.
Qed.

(** X11.  src/index.js posts every attachment to the watermarking API
    exactly once and in the order of the input, whatever becomes of the
    earlier ones: a failed attachment does not stop the loop. *)
Theorem inline_posts_every_attachment (w : World) (req : emailData) (r : string)
    (funder : Funder) (s : string) :
  recipientEmail req = Some r ->
  select_funder w (funderId r) = Some funder ->
  senderEmail req = Some s ->
  watermark_calls (trace (snd (Inline.handle w req)))
  = map (fun x => Payload_inline (funderId r)
                    (getPublicUrl w "gateway-logos" (logo_storage_path funder))
                    (nth_error (Js.split "@" s) 1) (Name x) (Content x))
        (Attachments req).
Proof.
  intros R F S.
  assert (Attachments req = [] \/ Attachments req <> []) as [A|A].
  { destruct (Attachments req); [left | right]; congruence. }
  - rewrite A. unfold Inline.handle, run, Inline.webhook_inbound.
    rewrite lookup_first with (r := r) by exact R. rewrite F.
    unfold Inline.process, read_brokerDomain. rewrite S, bind_run.
    unfold ret at 1, no_attachments. now rewrite A.
  - rewrite inline_reaches_relay with (r := r) (funder := funder) (s := s)
      by assumption.
    destruct (inline_relay_tail w funder s
                (join (queried (funderId r))
                   (deltas (Inline.attempt w funder (funderId r)
                              (nth_error (Js.split "@" s) 1)) 0 (Attachments req))))
      as (z & -> & Z).
    cbn [join trace queried app]. cbn [watermark_calls].
    rewrite watermark_calls_app, inline_loop_calls.
    destruct Z as [->|[m ->]]; cbn; now rewrite app_nil_r.
Qed.

Lemma inline_posts_every_attachment_witness :
  let w := Samples.make [Samples.acme] (fun _ => Upload_ok) (fun _ => false)
             (fun _ => Samples.completed) Samples.archive in
  let req := Samples.mail (Some "acme@gateway.example")
               [Samples.pdf "a.pdf"; Samples.pdf "notes.txt"] in
  List.length (watermark_calls (trace (snd (Inline.handle w req)))) = 2 /\
  fst (Inline.handle w req) = AllWatermarksFailed.
Proof.
  intros w req. split; [|reflexivity].
  rewrite (@inline_posts_every_attachment w req "acme@gateway.example" Samples.acme
             "broker@deals.example" eq_refl eq_refl eq_refl).
  reflexivity.
Defined.

Section StagingCalls.

Variable w : World.
Variable funder : Funder.
Variable senderName : string.

Let body : nat -> RawAttachment -> M unit := Staging.attempt w funder senderName.

Let posted (p : string * string) : WatermarkPayload :=
  Payload_url (user_email funder) (Staging.fileUrl w (snd p)) senderName.

Ltac run_body :=
  unfold body, posted, Staging.attempt, is_pdf_attachment, read,
    try_catch, bind, emit, push_temp, push_watermarked, await, settle, ret, throw.

Lemma staging_attempt_calls i x :
  watermark_calls (trace (snd (body i x initial)))
  = map posted (uploaded (trace (snd (body i x initial)))).
Proof. run_body. answers. Qed.

Lemma staging_attempt_attempts i x :
  upload_attempts (trace (snd (body i x initial)))
  = if is_pdf_attachment x then 1 else 0.
Proof. run_body. answers. Qed.

Lemma staging_loop_calls (l : list RawAttachment) :
  forall i,
    watermark_calls (trace (deltas body i l))
    = map posted (uploaded (trace (deltas body i l))).
Proof.
  induction l as [|x l IH]; intros i; simpl; [reflexivity|].
  now rewrite watermark_calls_app, uploaded_app, map_app, staging_attempt_calls, IH.
Qed.

Lemma staging_loop_attempts (l : list RawAttachment) :
  forall i,
    upload_attempts (trace (deltas body i l))
    = List.length (filter is_pdf_attachment l).
Proof.
  induction l as [|x l IH]; intros i; simpl; [reflexivity|].
  rewrite upload_attempts_app, staging_attempt_attempts, IH.
  now destruct (is_pdf_attachment x).
Qed.

End StagingCalls.

Lemma removals_calls (temps : list string) :
  watermark_calls (map (Storage_remove "funder-logos") temps) = [] /\
  upload_attempts (map (Storage_remove "funder-logos") temps) = 0.
Proof. induction temps; simpl; auto. Qed.

(** X12.  part_001 attempts one upload per attachment with a [.pdf] name,
    and posts to the watermarking API exactly the objects whose upload
    succeeded, in order and by their URL: nothing is posted for a file
    that could not be staged, and a failure does not stop the loop. *)
Theorem staging_posts_what_it_staged (w : World) (req : emailData) (r : string)
    (funder : Funder) (senderName : string) :
  recipientEmail req = Some r ->
  select_funder w (funderId r) = Some funder ->
  fst (Staging.read_senderName req initial) = Val senderName ->
  upload_attempts (trace (snd (Staging.handle w req)))
  = List.length (filter is_pdf_attachment (Attachments req)) /\
  watermark_calls (trace (snd (Staging.handle w req)))
  = map (fun p => Payload_url (user_email funder) (Staging.fileUrl w (snd p)) senderName)
        (uploaded (trace (snd (Staging.handle w req)))).
Proof.
  intros R F N.
  assert (Attachments req = [] \/ Attachments req <> []) as [A|A].
  { destruct (Attachments req); [left | right]; congruence. }
  - rewrite A. unfold Staging.handle, run, Staging.webhook_inbound.
    rewrite lookup_first with (r := r) by exact R. rewrite F.
    unfold Staging.process. rewrite bind_run, read_senderName_pure, N.
    unfold no_attachments. rewrite A. auto.
  - rewrite staging_reaches_relay
      with (r := r) (funder := funder) (senderName := senderName) by assumption.
    destruct (staging_relay_tail w req funder senderName
                (log (join (queried (funderId r))
                        (deltas (Staging.attempt w funder senderName) 0 (Attachments req)))
                     (map (Storage_remove "funder-logos")
                        (tempFiles
                           (join (queried (funderId r))
                              (deltas (Staging.attempt w funder senderName) 0
                                 (Attachments req)))))))
      as (z & -> & Z).
    cbn [log join trace tempFiles queried app].
    destruct (removals_calls
                (tempFiles (deltas (Staging.attempt w funder senderName) 0
                              (Attachments req)))) as [C U].
    cbn [upload_attempts watermark_calls uploaded].
    rewrite !upload_attempts_app, !watermark_calls_app, !uploaded_app.
    rewrite U, C, uploaded_removals, staging_loop_attempts, staging_loop_calls.
    destruct Z as [->|[m ->]]; cbn; rewrite ?app_nil_r; split; auto; lia.
Qed.

Lemma staging_posts_what_it_staged_witness :
  let w := Samples.make [Samples.acme]
             (fun i => if i =? 1 then Upload_error "exists" else Upload_ok)
             (fun _ => true) (fun _ => Samples.completed) Samples.archive in
  let req := Samples.mail (Some "acme@gateway.example")
               [Samples.pdf "a.pdf"; Samples.pdf "b.pdf"; Samples.pdf "notes.txt"] in
  upload_attempts (trace (snd (Staging.handle w req))) = 2 /\
  List.length (watermark_calls (trace (snd (Staging.handle w req)))) = 1.
Proof.
  intros w req.
  destruct (@staging_posts_what_it_staged w req "acme@gateway.example" Samples.acme
              "Broker" eq_refl eq_refl eq_refl) as [H1 H2].
  split; [exact H1|]. rewrite H2. reflexivity.
Defined.

(** ** The asynchronous version: what each failure answers *)

Lemma async_relay_run (w : World) (req : emailData) (funder : Funder) (s : string)
    (zipEntries : list ZipEntry) (st : State) :
  AsyncBatch.unpack zipEntries <> [] ->
  let m := {| msg_From := "Aquamark <gateway@aquamark.io>";
              msg_ReplyTo := Some s;
              msg_To := destination_email funder;
              msg_Subject := AsyncBatch.originalSubject req;
              msg_TextBody := AsyncBatch.originalBody req;
              msg_Attachments := AsyncBatch.unpack zipEntries |} in
  AsyncBatch.relay w req funder s zipEntries st
  = (match sendEmail w m with
     | Some e => Throw e
     | None => Val (success "files_processed" (List.length (AsyncBatch.files req)))
     end, log st [Send_email m]).
Proof.
  intros H. unfold AsyncBatch.relay.
  destruct (AsyncBatch.unpack zipEntries) as [|a l]; [contradiction|].
  cbv zeta. rewrite bind_run, send_run.
  destruct (sendEmail w _); reflexivity.
Qed.

Section AsyncFailures.

Variable w : World.
Variable req : emailData.
Variable r : string.
Variable funder : Funder.
Variable s : string.

Hypothesis recipient : recipientEmail req = Some r.
Hypothesis found : select_funder w (funderId r) = Some funder.
Hypothesis sender : senderEmail req = Some s.
Hypothesis some_pdf : AsyncBatch.pdfAttachments req <> [].

Let watermarkPayload :=
  Payload_files (user_email funder) (nth_error (Js.split "@" s) 1)
                (AsyncBatch.files req).

Let posted : State :=
  log (queried (funderId r)) [Fetch_watermark (FUNDER_API_URL w) watermarkPayload].

Lemma submit_run (brokerDomain : option string) (st : State) :
  AsyncBatch.submit w req funder brokerDomain st
  = (match watermark_files w
             (Payload_files (user_email funder) brokerDomain (AsyncBatch.files req)) with
     | Rejected e => Throw e
     | Resolved resp =>
         if ok resp then
           match json resp with
           | inl e => Throw e
           | inr jobId => Val jobId
           end
         else Throw (Error ("Watermarking API failed ("
                              ++ Js.num (http_status resp) ++ "): "
                              ++ text resp)%string)
     end,
     log st [Fetch_watermark (FUNDER_API_URL w)
               (Payload_files (user_email funder) brokerDomain (AsyncBatch.files req))]).
Proof.
  unfold AsyncBatch.submit, bind, emit, await, settle, ret, throw, log.
  destruct (watermark_files w _) as [e|resp]; [reflexivity|].
  destruct (ok resp); [|reflexivity].
  destruct (json resp); reflexivity.
Qed.

(** X13.  When the watermarking API cannot take the batch (the request is
    rejected, the response is not ok, or its body is not JSON) the request
    ends with 500 "Processing failed: ..." carrying the upstream status
    and body, and the POST is the last call: no poll, download or mail. *)
Theorem submission_failure :
  (forall e, watermark_files w watermarkPayload = Rejected e ->
     AsyncBatch.handle w req = (ProcessingFailed e, posted)) /\
  (forall resp, watermark_files w watermarkPayload = Resolved resp ->
     ok resp = false ->
     AsyncBatch.handle w req
     = (ProcessingFailed
          (Error ("Watermarking API failed (" ++ Js.num (http_status resp) ++ "): "
                    ++ text resp)%string), posted)) /\
  (forall resp e, watermark_files w watermarkPayload = Resolved resp ->
     ok resp = true -> json resp = inl e ->
     AsyncBatch.handle w req = (ProcessingFailed e, posted)).
Proof.
  rewrite (@async_reaches_try w req r funder s recipient found sender some_pdf).
  unfold AsyncBatch.watermark_and_send, try_catch.
  rewrite bind_run, submit_run. fold watermarkPayload. fold posted.
  repeat split.
  - intros e ->. reflexivity.
  - intros resp -> O. rewrite O. reflexivity.
  - intros resp e -> O J. rewrite O, J. reflexivity.
Qed.

Variable resp : FetchResponse (option string).
Variable jobId : option string.

Hypothesis accepted : watermark_files w watermarkPayload = Resolved resp.
Hypothesis accepted_ok : ok resp = true.
Hypothesis accepted_job : json resp = inr jobId.

Let url := AsyncBatch.job_status_url w jobId.

Variable k : nat.

Hypothesis in_time : k < 15.
Hypothesis waiting : forall i, i < k -> observe (job_status_poll w i url) = Continue.

Lemma poll_aborted (e : Exn) (st : State) :
  observe (job_status_poll w k url) = Aborted e ->
  AsyncBatch.poll w jobId st = (Throw e, log st (rounds url (S k))).
Proof.
  intros Hd. unfold AsyncBatch.poll.
  replace 15 with (k + S (14 - k)) by lia. generalize (14 - k). intros fuel.
  change AsyncBatch.poll_start with (polling 0 None).
  rewrite poll_while_continue; [|intros i Hi; apply waiting; lia|lia].
  rewrite poll_while_S. unfold AsyncBatch.poll_guard. cbn [polling Nat.add
    AsyncBatch.attempts AsyncBatch.jobCompleted negb andb].
  replace (k <? 15) with true by (symmetry; apply Nat.ltb_lt; lia).
  rewrite poll_once_observe. cbn [polling AsyncBatch.attempts]. fold url.
  rewrite Hd. rewrite log_log, <- rounds_snoc. reflexivity.
Qed.

(** X14.  A status poll is not retried when the request itself fails or an
    ok response has an unreadable body: the first such poll ends the
    request with 500 "Processing failed: <message>" and is the last call. *)
Theorem poll_error_aborts (e : Exn) :
  job_status_poll w k url = Rejected e \/
  (exists answered,
     job_status_poll w k url = Resolved answered /\
     ok answered = true /\ json answered = inl e) ->
  AsyncBatch.handle w req
  = (ProcessingFailed e, log posted (rounds url (S k))).
Proof.
  intros H.
  assert (observe (job_status_poll w k url) = Aborted e) as A.
  { destruct H as [->|(a & -> & O & J)]; [reflexivity|].
    unfold observe. now rewrite O, J. }
  rewrite (@async_reaches_poll w req r funder s recipient found sender some_pdf
             resp jobId accepted accepted_ok accepted_job).
  unfold try_catch. rewrite bind_run. rewrite (poll_aborted _ A). reflexivity.
Qed.

Variable u : option string.

Hypothesis completed : observe (job_status_poll w k url) = Completed u.

Let fetched : State :=
  log posted (rounds url (S k) ++ [Fetch_download (Js.str u)]).

Lemma async_reaches_download :
  AsyncBatch.handle w req
  = answer (try_catch
              (zipEntries <-
                 (downloadResponse <- await (download w 0 (Js.str u)) ;;
                  (if ok downloadResponse then ret tt
                   else throw (Error ("Failed to download watermarked file: "
                                        ++ statusText downloadResponse)%string)) ;;;
                  settle (AdmZip w (arrayBuffer downloadResponse))) ;;
               AsyncBatch.relay w req funder s zipEntries)
              AsyncBatch.processing_failed fetched).
Proof.
  rewrite (@async_reaches_poll w req r funder s recipient found sender some_pdf
             resp jobId accepted accepted_ok accepted_job).
  unfold try_catch at 1. rewrite bind_run.
  rewrite (poll_completed w jobId _ in_time waiting completed).
  unfold AsyncBatch.fetch_archive, try_catch, bind, emit.
  cbn [AsyncBatch.jobCompleted AsyncBatch.downloadUrl ret].
  unfold fetched, posted, log. cbn [trace watermarkedAttachments tempFiles queried].
  rewrite <- !app_assoc. reflexivity.
Qed.

(** X15.  When the job has completed but its result cannot be fetched or
    opened (the download is rejected or not ok, or the buffer is not a ZIP
    archive) the request ends with 500 "Processing failed: ..." and the
    download is the last call: no mail is sent. *)
Theorem download_failure :
  (forall e, download w 0 (Js.str u) = Rejected e ->
     AsyncBatch.handle w req = (ProcessingFailed e, fetched)) /\
  (forall d, download w 0 (Js.str u) = Resolved d -> ok d = false ->
     AsyncBatch.handle w req
     = (ProcessingFailed
          (Error ("Failed to download watermarked file: " ++ statusText d)%string),
        fetched)) /\
  (forall d e, download w 0 (Js.str u) = Resolved d -> ok d = true ->
     AdmZip w (arrayBuffer d) = inl e ->
     AsyncBatch.handle w req = (ProcessingFailed e, fetched)).
Proof.
  rewrite async_reaches_download. unfold try_catch, bind, await.
  repeat split.
  - intros e ->. reflexivity.
  - intros d -> O. simpl. rewrite O. reflexivity.
  - intros d e -> O Z. simpl. rewrite O. simpl. rewrite Z. reflexivity.
Qed.

Variable archive : FetchResponse unit.
Variable zipEntries : list ZipEntry.

Hypothesis downloaded : download w 0 (Js.str u) = Resolved archive.
Hypothesis downloaded_ok : ok archive = true.
Hypothesis opened : AdmZip w (arrayBuffer archive) = inr zipEntries.
Hypothesis some_document : AsyncBatch.unpack zipEntries <> [].

Let relayed : OutboundMessage :=
  {| msg_From := "Aquamark <gateway@aquamark.io>";
     msg_ReplyTo := Some s;
     msg_To := destination_email funder;
     msg_Subject := AsyncBatch.originalSubject req;
     msg_TextBody := AsyncBatch.originalBody req;
     msg_Attachments := AsyncBatch.unpack zipEntries |}.

(** X16.  When everything up to the archive worked, the mail carries the
    subject and body of the inbound mail and the unpacked PDFs.  Accepted
    by Postmark, the answer is the success response, whose
    [files_processed] is the number of PDFs submitted, not the number of
    PDFs mailed; refused, the answer is 500 "Processing failed: ..."
    with Postmark's message.  The mail is the last call either way. *)
Theorem relay_outcome :
  (sendEmail w relayed = None ->
     AsyncBatch.handle w req
     = (success "files_processed"
                (List.length (filter is_pdf_attachment (Attachments req))),
        log fetched [Send_email relayed])) /\
  (forall e, sendEmail w relayed = Some e ->
     AsyncBatch.handle w req
     = (ProcessingFailed e, log fetched [Send_email relayed])).
Proof.
  assert (AsyncBatch.handle w req
          = (match sendEmail w relayed with
             | Some e => ProcessingFailed e
             | None => success "files_processed"
                               (List.length (filter is_pdf_attachment (Attachments req)))
             end, log fetched [Send_email relayed])) as E.
  { rewrite async_reaches_download. unfold try_catch at 1.
    rewrite bind_run, bind_run. rewrite downloaded. cbn [await ret].
    rewrite bind_run. rewrite downloaded_ok. cbn [ret].
    rewrite opened. cbn [settle ret].
    pose proof (@async_relay_run w req funder s zipEntries fetched some_document) as Q.
    cbv zeta in Q. fold relayed in Q. rewrite Q.
    unfold AsyncBatch.files. rewrite length_map, pdfAttachments_attachments.
    destruct (sendEmail w relayed); reflexivity. }
  rewrite E. split.
  - intros H. rewrite H. reflexivity.
  - intros e H. rewrite H. reflexivity.
Qed.

End AsyncFailures.

Lemma submission_failure_witness :
  let w := Scenario.with_watermark_files Samples.world (fun _ => Samples.unavailable) in
  AsyncBatch.handle w Scenario.one_pdf
  = (ProcessingFailed (Error "Watermarking API failed (503): down"),
     log (queried "acme")
         [Fetch_watermark "https://api.example/watermark-funder-broker"
            (Payload_files "owner@acme.example" (Some "deals.example")
                           [("a.pdf", "JVBERg==")])]).
Proof.
  intros w.
  assert (AsyncBatch.pdfAttachments Scenario.one_pdf <> []) as P by discriminate.
  destruct (@submission_failure w Scenario.one_pdf "acme@gateway.example"
              Samples.acme "broker@deals.example" eq_refl eq_refl eq_refl P)
    as (_ & H & _).
  exact (H _ eq_refl eq_refl).
Defined.

Lemma poll_error_aborts_witness :
  let w := Samples.make [Samples.acme] (fun _ => Upload_ok) (fun _ => true)
             (fun i => if i =? 0 then Samples.pending
                       else Rejected (Error "socket hang up"))
             Samples.archive in
  fst (AsyncBatch.handle w Scenario.one_pdf)
    = ProcessingFailed (Error "socket hang up") /\
  polls (trace (snd (AsyncBatch.handle w Scenario.one_pdf))) = 2.
Proof.
  intros w.
  assert (AsyncBatch.pdfAttachments Scenario.one_pdf <> []) as P by discriminate.
  assert (1 < 15) as L by lia.
  assert (forall i, i < 1 ->
            observe (job_status_poll w i
                       (AsyncBatch.job_status_url w (Some "job-1"))) = Continue) as C.
  { intros [|i] Hi; [reflexivity | lia]. }
  rewrite (@poll_error_aborts w Scenario.one_pdf "acme@gateway.example"
             Samples.acme "broker@deals.example" eq_refl eq_refl eq_refl P
             Scenario.job_accepted (Some "job-1") eq_refl eq_refl eq_refl
             1 L C (Error "socket hang up") (or_introl eq_refl)).
  split; reflexivity.
Defined.

Lemma download_failure_witness :
  let w := Scenario.with_download Samples.world (fun _ _ => Samples.unavailable) in
  fst (AsyncBatch.handle w Scenario.one_pdf)
    = ProcessingFailed
        (Error "Failed to download watermarked file: Service Unavailable") /\
  sent (trace (snd (AsyncBatch.handle w Scenario.one_pdf))) = [].
Proof.
  intros w.
  assert (AsyncBatch.pdfAttachments Scenario.one_pdf <> []) as P by discriminate.
  assert (2 < 15) as L by lia.
  assert (forall i, i < 2 ->
            observe (job_status_poll w i
                       (AsyncBatch.job_status_url w (Some "job-1"))) = Continue) as C.
  { intros [|[|i]] Hi; [reflexivity | reflexivity | lia]. }
  destruct (@download_failure w Scenario.one_pdf "acme@gateway.example"
              Samples.acme "broker@deals.example" eq_refl eq_refl eq_refl P
              Scenario.job_accepted (Some "job-1") eq_refl eq_refl eq_refl
              2 L C (Some "https://api.example/out.zip") eq_refl)
    as (_ & H & _).
  rewrite (H _ eq_refl eq_refl). split; reflexivity.
Defined.

Lemma relay_outcome_witness :
  fst (AsyncBatch.handle Samples.world Scenario.one_pdf)
    = success "files_processed" 1 /\
  map (fun m => List.length (msg_Attachments m))
      (sent (trace (snd (AsyncBatch.handle Samples.world Scenario.one_pdf)))) = [3].
Proof.
  assert (AsyncBatch.pdfAttachments Scenario.one_pdf <> []) as P by discriminate.
  assert (2 < 15) as L by lia.
  assert (forall i, i < 2 ->
            observe (job_status_poll Samples.world i
                       (AsyncBatch.job_status_url Samples.world (Some "job-1")))
            = Continue) as C.
  { intros [|[|i]] Hi; [reflexivity | reflexivity | lia]. }
  assert (AsyncBatch.unpack Samples.archive <> []) as U by discriminate.
  destruct (@relay_outcome Samples.world Scenario.one_pdf "acme@gateway.example"
              Samples.acme "broker@deals.example" eq_refl eq_refl eq_refl P
              Scenario.job_accepted (Some "job-1") eq_refl eq_refl eq_refl
              2 L C (Some "https://api.example/out.zip") eq_refl
              {| ok := true; http_status := 200; statusText := "OK"; text := "";
                 json := inr tt; arrayBuffer := "marked" |}
              Samples.archive eq_refl eq_refl eq_refl U)
    as (H & _).
  rewrite (H eq_refl). split; reflexivity.
Defined.

(** ** How a request ends *)

Lemma deltas_Forall {A} (P : Event -> Prop) (body : nat -> A -> M unit) :
  (forall i x, adds P (body i x)) ->
  forall l i, Forall P (trace (deltas body i l)).
Proof.
  intros H l. induction l as [|x l IH]; intros i; simpl; [constructor|].
  apply Forall_app. split; [|apply IH].
  destruct (H i x initial) as (t & -> & Pt). exact Pt.
Qed.

Lemma quiet_inline_attempt w funder id brokerDomain i x :
  adds quiet (Inline.attempt w funder id brokerDomain i x).
Proof. unfold Inline.attempt. repeat adds_step; exact I. Qed.

Lemma quiet_staging_attempt w funder senderName i x :
  adds quiet (Staging.attempt w funder senderName i x).
Proof. unfold Staging.attempt. repeat adds_step; exact I. Qed.

Lemma quiet_removals (temps : list string) :
  Forall quiet (map (Storage_remove "funder-logos") temps).
Proof. induction temps; simpl; constructor; auto. exact I. Qed.

Lemma quiet_rounds (url : string) (n : nat) : Forall quiet (rounds url n).
Proof. induction n; simpl; repeat constructor; auto. Qed.

Lemma inline_relay_ends (w : World) (funder : Funder) (s : string) (st : State)
    (id : string) (t : list Event) :
  trace st = Directory_query id :: t -> Forall quiet t ->
  Ended w false (fst (answer (Inline.relay w funder s st)))
          (trace (snd (answer (Inline.relay w funder s st)))).
Proof.
  intros T Q. unfold Inline.relay. rewrite bind_run. unfold get_watermarked.
  destruct (watermarkedAttachments st) as [|a l] eqn:W.
  - cbn. rewrite T. now apply Ended_all_failed.
  - rewrite bind_run, send_run.
    destruct (sendEmail w _) as [e|] eqn:S; cbn; rewrite T.
    + apply (@Ended_refused w false id t _ e); auto.
    + apply Ended_relayed; auto; [discriminate | simpl; lia].
Qed.

Lemma staging_relay_ends (w : World) (req : emailData) (funder : Funder)
    (name : string) (st : State) (id : string) (t : list Event) :
  trace st = Directory_query id :: t -> Forall quiet t ->
  Ended w false (fst (answer (Staging.relay w req funder name st)))
          (trace (snd (answer (Staging.relay w req funder name st)))).
Proof.
  intros T Q. unfold Staging.relay. rewrite bind_run. unfold get_watermarked.
  destruct (watermarkedAttachments st) as [|a l] eqn:W.
  - cbn. rewrite T. now apply Ended_all_failed.
  - rewrite bind_run, send_run.
    destruct (sendEmail w _) as [e|] eqn:S; cbn; rewrite T.
    + apply (@Ended_refused w false id t _ e); auto.
    + apply Ended_relayed; auto; [discriminate | simpl; lia].
Qed.

Lemma inline_ends (w : World) (req : emailData) :
  Ended w false (fst (Inline.handle w req)) (trace (snd (Inline.handle w req))).
Proof.
  destruct (recipientEmail req) as [r|] eqn:R.
  2:{ unfold Inline.handle, run, Inline.webhook_inbound.
      rewrite lookup_missing by exact R. constructor. }
  destruct (select_funder w (funderId r)) as [funder|] eqn:F.
  2:{ unfold Inline.handle, run, Inline.webhook_inbound.
      rewrite lookup_first with (r := r) by exact R. rewrite F. constructor. }
  destruct (senderEmail req) as [s|] eqn:S.
  2:{ unfold Inline.handle, run, Inline.webhook_inbound.
      rewrite lookup_first with (r := r) by exact R. rewrite F.
      unfold Inline.process, read_brokerDomain. rewrite S. constructor. }
  assert (Attachments req = [] \/ Attachments req <> []) as [A|A].
  { destruct (Attachments req); [left | right]; congruence. }
  - unfold Inline.handle, run, Inline.webhook_inbound.
    rewrite lookup_first with (r := r) by exact R. rewrite F.
    unfold Inline.process, read_brokerDomain. rewrite S, bind_run.
    unfold ret at 1, no_attachments. rewrite A. apply Ended_nothing.
  - rewrite inline_reaches_relay with (r := r) (funder := funder) (s := s)
      by assumption.
    eapply inline_relay_ends; [reflexivity|].
    apply deltas_Forall. intros i x. apply quiet_inline_attempt.
Qed.

Lemma staging_ends (w : World) (req : emailData) :
  Ended w false (fst (Staging.handle w req)) (trace (snd (Staging.handle w req))).
Proof.
  destruct (recipientEmail req) as [r|] eqn:R.
  2:{ unfold Staging.handle, run, Staging.webhook_inbound.
      rewrite lookup_missing by exact R. constructor. }
  destruct (select_funder w (funderId r)) as [funder|] eqn:F.
  2:{ unfold Staging.handle, run, Staging.webhook_inbound.
      rewrite lookup_first with (r := r) by exact R. rewrite F. constructor. }
  destruct (fst (Staging.read_senderName req initial)) as [name|e|x] eqn:N.
  2,3: unfold Staging.handle, run, Staging.webhook_inbound;
       rewrite lookup_first with (r := r) by exact R; rewrite F;
       unfold Staging.process; rewrite bind_run, read_senderName_pure.
  3:{ exfalso. revert N. unfold Staging.read_senderName, undefined_split.
      destruct (Js.or _ _) as [[|c n]|]; try discriminate;
        destruct (senderEmail req); discriminate. }
  2:{ rewrite N. revert N. unfold Staging.read_senderName, undefined_split.
      destruct (Js.or _ _) as [[|c n]|]; try discriminate;
        (destruct (senderEmail req); [discriminate|]); intros _; constructor. }
  assert (Attachments req = [] \/ Attachments req <> []) as [A|A].
  { destruct (Attachments req); [left | right]; congruence. }
  - unfold Staging.handle, run, Staging.webhook_inbound.
    rewrite lookup_first with (r := r) by exact R. rewrite F.
    unfold Staging.process. rewrite bind_run, read_senderName_pure, N.
    unfold no_attachments. rewrite A. apply Ended_nothing.
  - rewrite staging_reaches_relay
      with (r := r) (funder := funder) (senderName := name) by assumption.
    eapply staging_relay_ends; [reflexivity|].
    apply Forall_app. split; [|apply quiet_removals].
    apply deltas_Forall. intros i x. apply quiet_staging_attempt.
Qed.

Lemma try_catch_bind {A B} (m : M A) (k : A -> M B) (h : Exn -> M B) (st : State) :
  try_catch (bind m k) h st
  = match m st with
    | (Val a, st') => try_catch (k a) h st'
    | (Throw e, st') => h e st'
    | (Return x, st') => (Return x, st')
    end.
Proof. unfold try_catch, bind. now destruct (m st) as [[a|e|x] st']. Qed.

Lemma poll_while_no_return (w : World) (jobId : option string) (fuel : nat) :
  forall p st x, fst (AsyncBatch.poll_while w fuel jobId p st) <> Return x.
Proof.
  induction fuel as [|fuel IH]; intros p st x; [discriminate|].
  rewrite poll_while_S. destruct (AsyncBatch.poll_guard p); [|discriminate].
  rewrite poll_once_observe. destruct (observe _); try discriminate; apply IH.
Qed.

Lemma fetch_archive_run (w : World) (polled : AsyncBatch.Poll) (st : State) :
  AsyncBatch.fetch_archive w polled st
  = if AsyncBatch.jobCompleted polled then
      (match download w 0 (Js.str (AsyncBatch.downloadUrl polled)) with
       | Rejected e => Throw e
       | Resolved d =>
           if ok d then
             match AdmZip w (arrayBuffer d) with
             | inl e => Throw e
             | inr zipEntries => Val zipEntries
             end
           else Throw (Error ("Failed to download watermarked file: "
                                ++ statusText d)%string)
       end,
       log st [Fetch_download (Js.str (AsyncBatch.downloadUrl polled))])
    else (Throw WatermarkJobTimeout, st).
Proof.
  unfold AsyncBatch.fetch_archive, bind, emit, await, settle, ret, throw, log.
  destruct (AsyncBatch.jobCompleted polled); [|reflexivity].
  destruct (download w 0 _) as [e|d]; [reflexivity|].
  destruct (ok d); [|reflexivity].
  destruct (AdmZip w (arrayBuffer d)); reflexivity.
Qed.

Section AsyncEnds.

Variable w : World.
Variable req : emailData.
Variable funder : Funder.
Variable s : string.
Variable id : string.

Hypothesis some_pdf : AsyncBatch.pdfAttachments req <> [].

Lemma failed_ends (e : Exn) (st : State) (t : list Event) :
  trace st = Directory_query id :: t -> Forall quiet t ->
  Ended w true (fst (answer (AsyncBatch.processing_failed e st)))
          (trace (snd (answer (AsyncBatch.processing_failed e st)))).
Proof. intros T Q. cbn. rewrite T. now apply Ended_failed. Qed.

Lemma log_trace (st : State) (t u : list Event) :
  trace st = Directory_query id :: t -> Forall quiet u ->
  trace (log st u) = Directory_query id :: (t ++ u).
Proof. intros T _. cbn. now rewrite T. Qed.

Lemma async_relay_ends (zipEntries : list ZipEntry) (st : State) (t : list Event) :
  trace st = Directory_query id :: t -> Forall quiet t ->
  Ended w true
    (fst (answer (try_catch (AsyncBatch.relay w req funder s zipEntries)
                            AsyncBatch.processing_failed st)))
    (trace (snd (answer (try_catch (AsyncBatch.relay w req funder s zipEntries)
                                   AsyncBatch.processing_failed st)))).
Proof.
  intros T Q.
  destruct (AsyncBatch.unpack zipEntries) as [|a l] eqn:U.
  - unfold try_catch, AsyncBatch.relay. rewrite U. now apply (failed_ends _ st T).
  - assert (AsyncBatch.unpack zipEntries <> []) as N by (rewrite U; discriminate).
    unfold try_catch. pose proof (@async_relay_run w req funder s zipEntries st N) as E.
    cbv zeta in E. rewrite E.
    destruct (sendEmail w _) as [e|] eqn:S; cbn; rewrite T.
    + apply (@Ended_refused w true id t _ e); auto.
    + apply Ended_relayed; auto.
      unfold AsyncBatch.files. rewrite length_map.
      destruct (AsyncBatch.pdfAttachments req); [contradiction | simpl; lia].
Qed.

Lemma async_archive_ends (polled : AsyncBatch.Poll) (st : State) (t : list Event) :
  trace st = Directory_query id :: t -> Forall quiet t ->
  let m := zipEntries <- AsyncBatch.fetch_archive w polled ;;
           AsyncBatch.relay w req funder s zipEntries in
  Ended w true (fst (answer (try_catch m AsyncBatch.processing_failed st)))
          (trace (snd (answer (try_catch m AsyncBatch.processing_failed st)))).
Proof.
  intros T Q m. unfold m. rewrite try_catch_bind, fetch_archive_run.
  destruct (AsyncBatch.jobCompleted polled); [|now apply (failed_ends _ st T)].
  assert (trace (log st [Fetch_download (Js.str (AsyncBatch.downloadUrl polled))])
          = Directory_query id
              :: (t ++ [Fetch_download (Js.str (AsyncBatch.downloadUrl polled))])) as T'.
  { apply log_trace; [exact T | repeat constructor]. }
  assert (Forall quiet (t ++ [Fetch_download (Js.str (AsyncBatch.downloadUrl polled))]))
    as Q' by (apply Forall_app; split; [exact Q | repeat constructor]).
  destruct (download w 0 _) as [e|d]; [now apply (failed_ends _ _ T')|].
  destruct (ok d); [|now apply (failed_ends _ _ T')].
  destruct (AdmZip w (arrayBuffer d)) as [e|z]; [now apply (failed_ends _ _ T')|].
  now apply (async_relay_ends z _ T').
Qed.

Lemma async_poll_ends (jobId : option string) (st : State) (t : list Event) :
  trace st = Directory_query id :: t -> Forall quiet t ->
  let m := polled <- AsyncBatch.poll w jobId ;;
           zipEntries <- AsyncBatch.fetch_archive w polled ;;
           AsyncBatch.relay w req funder s zipEntries in
  Ended w true (fst (answer (try_catch m AsyncBatch.processing_failed st)))
          (trace (snd (answer (try_catch m AsyncBatch.processing_failed st)))).
Proof.
  intros T Q m. unfold m. rewrite try_catch_bind.
  destruct (poll_rounds w jobId st) as (n & _ & E).
  pose proof (poll_while_no_return w jobId 15 AsyncBatch.poll_start st) as NR.
  fold (AsyncBatch.poll w jobId) in NR.
  assert (trace (log st (rounds (AsyncBatch.job_status_url w jobId) n))
          = Directory_query id :: (t ++ rounds (AsyncBatch.job_status_url w jobId) n))
    as T' by (apply log_trace; [exact T | apply quiet_rounds]).
  assert (Forall quiet (t ++ rounds (AsyncBatch.job_status_url w jobId) n)) as Q'
    by (apply Forall_app; split; [exact Q | apply quiet_rounds]).
  destruct (AsyncBatch.poll w jobId st) as [[polled|e|x] st'];
    cbn [snd] in E; subst st'.
  - now apply (async_archive_ends polled _ T').
  - now apply (failed_ends _ _ T').
  - now contradiction (NR x).
Qed.

Lemma async_try_ends (brokerDomain : option string) (st : State) :
  trace st = [Directory_query id] ->
  let m := AsyncBatch.watermark_and_send w req funder s brokerDomain in
  Ended w true (fst (answer (try_catch m AsyncBatch.processing_failed st)))
          (trace (snd (answer (try_catch m AsyncBatch.processing_failed st)))).
Proof.
  intros T m. unfold m, AsyncBatch.watermark_and_send.
  rewrite try_catch_bind, submit_run.
  match goal with |- context [log st [?e]] =>
    assert (trace (log st [e]) = Directory_query id :: ([] ++ [e])) as T'
      by (apply log_trace; [exact T | repeat constructor]);
    assert (Forall quiet ([] ++ [e])) as Q' by (repeat constructor)
  end.
  destruct (watermark_files w _) as [e|resp]; [now apply (failed_ends _ _ T')|].
  destruct (ok resp); [|now apply (failed_ends _ _ T')].
  destruct (json resp) as [e|jobId]; [now apply (failed_ends _ _ T')|].
  now apply (async_poll_ends jobId _ T').
Qed.

End AsyncEnds.

Lemma async_ends (w : World) (req : emailData) :
  Ended w true (fst (AsyncBatch.handle w req)) (trace (snd (AsyncBatch.handle w req))).
Proof.
  destruct (recipientEmail req) as [r|] eqn:R.
  2:{ unfold AsyncBatch.handle, run, AsyncBatch.webhook_inbound.
      rewrite lookup_missing by exact R. constructor. }
  destruct (select_funder w (funderId r)) as [funder|] eqn:F.
  2:{ unfold AsyncBatch.handle, run, AsyncBatch.webhook_inbound.
      rewrite lookup_first with (r := r) by exact R. rewrite F. constructor. }
  destruct (senderEmail req) as [s|] eqn:S.
  2:{ unfold AsyncBatch.handle, run, AsyncBatch.webhook_inbound.
      rewrite lookup_first with (r := r) by exact R. rewrite F.
      unfold AsyncBatch.process, read_brokerDomain. rewrite S. constructor. }
  assert (AsyncBatch.pdfAttachments req = [] \/ AsyncBatch.pdfAttachments req <> [])
    as [P|P].
  { destruct (AsyncBatch.pdfAttachments req); [left | right]; congruence. }
  - assert (exists msg, AsyncBatch.handle w req = (NoOp msg, queried (funderId r)))
      as [msg E].
    { unfold AsyncBatch.handle, run, AsyncBatch.webhook_inbound.
      rewrite lookup_first with (r := r) by exact R. rewrite F.
      unfold AsyncBatch.process, read_brokerDomain. rewrite S, bind_run.
      unfold ret at 1, no_attachments, AsyncBatch.no_pdf_attachments.
      rewrite P. destruct (Attachments req); [eexists; reflexivity|].
      rewrite bind_run. unfold ret at 1.
      rewrite bind_run, filter_reads_attachments. eexists; reflexivity. }
    rewrite E. apply Ended_nothing.
  - rewrite (@async_reaches_try w req r funder s R F S P).
    apply async_try_ends with (id := funderId r); [exact P | reflexivity].
Qed.

Lemma versions_end (w : World) (req : emailData) (inner : bool) (run : Response * State) :
  In (inner, run) (versions w req) ->
  Ended w inner (fst run) (trace (snd run)).
Proof.
  intros [[= <- <-]|[[= <- <-]|[[= <- <-]|[]]]].
  - apply inline_ends.
  - apply staging_ends.
  - apply async_ends.
Qed.

Lemma quiet_sent (t : list Event) : Forall quiet t -> sent t = [].
Proof.
  induction 1 as [|e t He _ IH]; [reflexivity|].
  destruct e; simpl; auto. contradiction.
Qed.

Lemma quiet_not_mail (t : list Event) (m : OutboundMessage) :
  Forall quiet t -> ~ In (Send_email m) t.
Proof. intros Q H. rewrite Forall_forall in Q. exact (Q _ H). Qed.

Lemma quiet_not_query (t : list Event) (id : string) :
  Forall quiet t -> ~ In (Directory_query id) t.
Proof. intros Q H. rewrite Forall_forall in Q. exact (Q _ H). Qed.

Lemma snoc_split {A} (l : list A) (a b : A) :
  forall pre post, l ++ [a] = pre ++ b :: post -> post = [] \/ In b l.
Proof.
  induction l as [|x l IH]; intros pre post H.
  - destruct pre as [|y pre]; simpl in H.
    + injection H as _ <-. now left.
    + injection H as _ H. now destruct pre.
  - destruct pre as [|y pre]; simpl in H.
    + injection H as <- _. right. now left.
    + injection H as _ H. destruct (IH pre post H); [now left | right; now right].
Qed.

Lemma in_split_eq {A} (l pre post : list A) (b : A) :
  l = pre ++ b :: post -> In b l.
Proof. intros ->. apply in_or_app. right. now left. Qed.

Lemma ended_one_mail (w : World) (inner : bool) (resp : Response) (t : list Event) :
  Ended w inner resp t ->
  List.length (sent t) <= 1 /\
  (forall pre m post, t = pre ++ Send_email m :: post -> post = []).
Proof.
  intros [| | | |id u I Q|id u e I Q|id u m e Q S|id u m c n Q S N P].
  1-4: split; [simpl; lia|]; intros pre m post H;
       apply in_split_eq in H; simpl in H; intuition discriminate.
  1-2: split; [simpl; rewrite (quiet_sent Q); simpl; lia|]; intros pre m post H;
       apply in_split_eq in H; destruct H as [H|H]; [discriminate|];
       now apply (quiet_not_mail m Q) in H.
  1-2: (split; [simpl; rewrite sent_app, (quiet_sent Q); simpl; lia|]);
       intros pre m' post H;
       change (Directory_query id :: u ++ [Send_email m])
         with ((Directory_query id :: u) ++ [Send_email m]) in H;
       apply snoc_split in H; destruct H as [H|[H|H]];
         [assumption | discriminate | now apply (quiet_not_mail m' Q) in H].
Qed.

(** X9.  No version sends more than one mail for a request, and the mail,
    when there is one, is the last call made: in part_001 every temporary
    object has been removed before it. *)
Theorem one_mail_and_last (w : World) (req : emailData) (inner : bool)
    (run : Response * State) :
  In (inner, run) (versions w req) ->
  List.length (sent (trace (snd run))) <= 1 /\
  (forall pre m post,
     trace (snd run) = pre ++ Send_email m :: post -> post = []).
Proof. intros V. exact (ended_one_mail (versions_end V)). Qed.

Lemma one_mail_and_last_witness :
  List.length (sent (trace (snd (Staging.handle Samples.world Scenario.one_pdf)))) <= 1.
Proof.
  apply (@one_mail_and_last Samples.world Scenario.one_pdf false).
  right. left. reflexivity.
Defined.

Lemma ended_directory_first (w : World) (inner : bool) (resp : Response)
    (t : list Event) :
  Ended w inner resp t ->
  (t = [] /\ resp = InternalError) \/
  (exists id u, t = Directory_query id :: u /\
                forall id', ~ In (Directory_query id') u).
Proof.
  intros [| | | |id u I Q|id u e I Q|id u m e Q S|id u m c n Q S N P].
  - left. auto.
  - right. exists id, []. auto.
  - right. exists id, []. auto.
  - right. exists id, []. auto.
  - right. exists id, u. split; [reflexivity|]. intros id'. now apply quiet_not_query.
  - right. exists id, u. split; [reflexivity|]. intros id'. now apply quiet_not_query.
  - right. exists id, (u ++ [Send_email m]). split; [reflexivity|].
    intros id' H. apply in_app_or in H. destruct H as [H|[H|[]]]; [|discriminate].
    now apply (quiet_not_query id' Q).
  - right. exists id, (u ++ [Send_email m]). split; [reflexivity|].
    intros id' H. apply in_app_or in H. destruct H as [H|[H|[]]]; [|discriminate].
    now apply (quiet_not_query id' Q).
Qed.

(** X10.  The directory is queried before anything else and only once: a
    trace is empty (no recipient, 500) or starts with the directory query
    and never contains another. *)
Theorem directory_first_and_once (w : World) (req : emailData) (inner : bool)
    (run : Response * State) :
  In (inner, run) (versions w req) ->
  (trace (snd run) = [] /\ fst run = InternalError) \/
  (exists id t,
     trace (snd run) = Directory_query id :: t /\
     forall id', ~ In (Directory_query id') t).
Proof. intros V. exact (ended_directory_first (versions_end V)). Qed.

Lemma directory_first_and_once_witness :
  exists id t,
    trace (snd (AsyncBatch.handle Samples.world Scenario.one_pdf))
    = Directory_query id :: t /\
    forall id', ~ In (Directory_query id') t.
Proof.
  destruct (@directory_first_and_once Samples.world Scenario.one_pdf true
              (AsyncBatch.handle Samples.world Scenario.one_pdf))
    as [[H _]|H].
  - right. right. left. reflexivity.
  - vm_compute in H. discriminate.
  - exact H.
Defined.

Lemma ended_refused (w : World) (inner : bool) (resp : Response) (t : list Event)
    (m : OutboundMessage) (e : Exn) :
  Ended w inner resp t ->
  In (Send_email m) t -> sendEmail w m = Some e ->
  resp = if inner then ProcessingFailed e else InternalError.
Proof.
  intros [| | | |id u I Q|id u e' I Q|id u m' e' Q S'|id u m' c n Q S' N P] H S.
  1-4: simpl in H; intuition discriminate.
  1-2: destruct H as [H|H]; [discriminate|]; now apply (quiet_not_mail m Q) in H.
  - destruct H as [H|H]; [discriminate|].
    apply in_app_or in H. destruct H as [H|[H|[]]];
      [now apply (quiet_not_mail m Q) in H|].
    injection H as ->. rewrite S in S'. injection S' as <-. reflexivity.
  - destruct H as [H|H]; [discriminate|].
    apply in_app_or in H. destruct H as [H|[H|[]]];
      [now apply (quiet_not_mail m Q) in H|].
    injection H as ->. congruence.
Qed.

(** X17.  When Postmark refuses the mail, the request is an error: the
    versions without the inner [catch] answer the generic 500 "Internal
    server error", part_002 answers 500 "Processing failed: ..." with
    Postmark's message. *)
Theorem refused_mail_is_an_error (w : World) (req : emailData) (inner : bool)
    (run : Response * State) (m : OutboundMessage) (e : Exn) :
  In (inner, run) (versions w req) ->
  In (Send_email m) (trace (snd run)) ->
  sendEmail w m = Some e ->
  fst run = if inner then ProcessingFailed e else InternalError.
Proof. intros V. exact (@ended_refused w inner (fst run) (trace (snd run)) m e (versions_end V)). Qed.

Lemma refused_mail_is_an_error_witness :
  let w := Scenario.with_sendEmail Samples.world
             (fun _ => Some (Error "Sender signature not found")) in
  fst (Inline.handle w Scenario.one_pdf) = InternalError /\
  fst (AsyncBatch.handle w Scenario.one_pdf)
    = ProcessingFailed (Error "Sender signature not found").
Proof.
  intros w. split.
  - apply (@refused_mail_is_an_error w Scenario.one_pdf false
             (Inline.handle w Scenario.one_pdf)
             {| msg_From := "broker@deals.example"; msg_ReplyTo := None;
                msg_To := "ops@acme.example"; msg_Subject := "New Submission";
                msg_TextBody := "";
                msg_Attachments := [{| out_Name := "a.pdf"; out_Content := "bWFya2Vk";
                                       out_ContentType := "application/pdf" |}] |}
             (Error "Sender signature not found")).
    + left. reflexivity.
    + vm_compute. tauto.
    + reflexivity.
  - apply (@refused_mail_is_an_error w Scenario.one_pdf true
             (AsyncBatch.handle w Scenario.one_pdf)
             {| msg_From := "Aquamark <gateway@aquamark.io>";
                msg_ReplyTo := Some "broker@deals.example";
                msg_To := "ops@acme.example"; msg_Subject := "Deal";
                msg_TextBody := "see attached";
                msg_Attachments := AsyncBatch.unpack Samples.archive |}
             (Error "Sender signature not found")).
    + right. right. left. reflexivity.
    + vm_compute. tauto.
    + reflexivity.
Defined.

Lemma ended_status (w : World) (inner : bool) (resp : Response) (t : list Event) :
  Ended w inner resp t ->
  (status resp = 200%N \/ status resp = 404%N \/ status resp = 500%N) /\
  (status resp = 404%N ->
     resp = TenantNotFound /\ exists id, t = [Directory_query id]) /\
  (status resp = 200%N ->
     (exists msg id, resp = NoOp msg /\ t = [Directory_query id]) \/
     (exists counter n m, resp = success counter n /\ 0 < n /\
                          In (Send_email m) t)).
Proof.
  intros [| | | |id u I Q|id u e I Q|id u m e Q S|id u m c n Q S N P].
  1,3,5,6: split; [auto|]; split; discriminate.
  - split; [auto|]. split; [eauto | discriminate].
  - split; [auto|]. split; [discriminate|]. intros _. left. eauto.
  - destruct inner; (split; [auto|]); split; discriminate.
  - split; [auto|]. split; [discriminate|]. intros _. right.
    exists c, n, m. repeat split; auto.
    right. apply in_or_app. right. now left.
Qed.

(** X18.  Every response of every version has status 200, 404 or 500.
    404 is only the answer "Funder not found" to a request that called
    nothing but the directory; 200 is either a no-op message after the
    directory query alone, or the success response of a request that sent
    a mail. *)
Theorem response_statuses (w : World) (req : emailData) (inner : bool)
    (run : Response * State) :
  In (inner, run) (versions w req) ->
  (status (fst run) = 200%N \/ status (fst run) = 404%N \/ status (fst run) = 500%N) /\
  (status (fst run) = 404%N ->
     fst run = TenantNotFound /\ exists id, trace (snd run) = [Directory_query id]) /\
  (status (fst run) = 200%N ->
     (exists msg id, fst run = NoOp msg /\ trace (snd run) = [Directory_query id]) \/
     (exists counter n m, fst run = success counter n /\ 0 < n /\
                          In (Send_email m) (trace (snd run)))).
Proof. intros V. exact (ended_status (versions_end V)). Qed.

Lemma response_statuses_witness :
  status (fst (Inline.handle Samples.world Scenario.one_pdf)) = 200%N \/
  status (fst (Inline.handle Samples.world Scenario.one_pdf)) = 404%N \/
  status (fst (Inline.handle Samples.world Scenario.one_pdf)) = 500%N.
Proof.
  apply (@response_statuses Samples.world Scenario.one_pdf false).
  left. reflexivity.
Defined.

Lemma ended_success (w : World) (inner : bool) (resp : Response) (t : list Event) :
  Ended w inner resp t ->
  (exists counter n, resp = success counter n) <->
  (exists m, sent t = [m] /\ sendEmail w m = None).
Proof.
  intros [| | | |id u I Q|id u e I Q|id u m e Q S|id u m c n Q S N P].
  1-4: split; [intros (c & n & H); discriminate | intros (m & H & _); discriminate].
  1-2: split; [intros (c & n & H); discriminate|]; intros (m & H & _);
       simpl in H; rewrite (quiet_sent Q) in H; discriminate.
  - split.
    + intros (c & n & H). destruct inner; discriminate.
    + intros (m' & H & A). simpl in H. rewrite sent_app, (quiet_sent Q) in H.
      simpl in H. injection H as ->. congruence.
  - split.
    + intros _. exists m. split; [|exact S].
      simpl. now rewrite sent_app, (quiet_sent Q).
    + intros _. eauto.
Qed.

(** X19.  A version answers with the success response exactly when it has
    handed one mail to Postmark and Postmark has accepted it. *)
Theorem success_iff_delivered (w : World) (req : emailData) (inner : bool)
    (run : Response * State) :
  In (inner, run) (versions w req) ->
  (exists counter n, fst run = success counter n) <->
  (exists m, sent (trace (snd run)) = [m] /\ sendEmail w m = None).
Proof. intros V. exact (ended_success (versions_end V)). Qed.

Lemma success_iff_delivered_witness :
  exists m,
    sent (trace (snd (Staging.handle Samples.world Scenario.one_pdf))) = [m] /\
    sendEmail Samples.world m = None.
Proof.
  apply (proj1 (@success_iff_delivered Samples.world Scenario.one_pdf false
                  (Staging.handle Samples.world Scenario.one_pdf)
                  (or_intror (or_introl eq_refl)))).
  exists "attachments", 1. reflexivity.
Defined.

(** ** Which collaborators a version calls *)

Lemma inline_process_uses {E} `{Element E} w (req : Inbound E) id funder :
  adds (inline_uses w) (Inline.process w req id funder).
Proof. unfold_handler. repeat adds_step; cbn; auto. Qed.

Lemma staging_process_uses {E} `{Element E} w (req : Inbound E) id funder :
  adds (staging_uses w) (Staging.process w req id funder).
Proof. unfold_handler. repeat adds_step; cbn; auto. Qed.

Lemma async_process_uses {E} `{Element E} w (req : Inbound E) id funder :
  adds (async_uses w) (AsyncBatch.process w req id funder).
Proof. unfold_handler. repeat adds_step; cbn; auto. Qed.

(** X20.  What each version calls, and what it never does.  src/index.js
    only reads the public URL of the logo in the bucket [gateway-logos] and
    posts inline payloads: it never uploads, removes, downloads, polls or
    waits.  part_001 keeps all its storage calls in the bucket
    [funder-logos], posts payloads by URL, and never polls or waits.
    part_002 never touches the storage; it posts batches and every wait
    is of 2000 ms.  Every POST goes to [FUNDER_API_URL]. *)
Theorem collaborators_used (w : World) (req : emailData) (e : Event) :
  (In e (trace (snd (Inline.handle w req))) -> inline_uses w e) /\
  (In e (trace (snd (Staging.handle w req))) -> staging_uses w e) /\
  (In e (trace (snd (AsyncBatch.handle w req))) -> async_uses w e).
Proof.
  unfold Staging.handle, AsyncBatch.handle, Inline.handle. rewrite !run_state.
  split; [|split]; intros H.
  - apply (handle_calls (fun _ => inline_uses w) w req _ e
             (fun id funder => inline_process_uses w req id funder)) in H.
    destruct H as (r & _ & [->|(funder & _ & H)]); [exact I | exact H].
  - apply (handle_calls (fun _ => staging_uses w) w req _ e
             (fun id funder => staging_process_uses w req id funder)) in H.
    destruct H as (r & _ & [->|(funder & _ & H)]); [exact I | exact H].
  - apply (handle_calls (fun _ => async_uses w) w req _ e
             (fun id funder => async_process_uses w req id funder)) in H.
    destruct H as (r & _ & [->|(funder & _ & H)]); [exact I | exact H].
Qed.

Lemma collaborators_used_witness :
  In (Set_timeout 2000) (trace (snd (AsyncBatch.handle Samples.world Scenario.one_pdf))) /\
  async_uses Samples.world (Set_timeout 2000).
Proof.
  assert (H : In (Set_timeout 2000)
                (trace (snd (AsyncBatch.handle Samples.world Scenario.one_pdf)))).
  { vm_compute. tauto. }
  split; [exact H|].
  exact (proj2 (proj2 (collaborators_used Samples.world Scenario.one_pdf
                         (Set_timeout 2000))) H).
Defined.

(** ** The text of the mail *)

Lemma nonempty_or_spec (a : option string) (b : string) :
  Js.str (Js.or a (Some b)) = nonempty_or a b.
Proof. now destruct a as [[|c s]|]. Qed.

Lemma nonempty_or_or (a b : option string) (c : string) :
  Js.str (Js.or (Js.or a b) (Some c)) = nonempty_or a (nonempty_or b c).
Proof. destruct a as [[|x s]|]; try reflexivity; now destruct b as [[|y t]|]. Qed.

Lemma inline_process_text {E} `{Element E} w (req : Inbound E) id funder :
  adds inline_text (Inline.process w req id funder).
Proof. unfold_handler. repeat adds_step; cbn; auto. Qed.

Lemma read_senderName_name (req : emailData) (name : string) :
  fst (Staging.read_senderName req initial) = Val name -> sender_name req = Some name.
Proof.
  unfold Staging.read_senderName, sender_name, Js.or, Js.truthy.
  destruct (FromName req) as [[|c n]|];
    destruct (FromFull req) as [[e [[|c' n']|]]|];
    destruct (senderEmail req); cbn; intros [=]; congruence.
Qed.

Lemma adds_bind_pure {A B} (P : Event -> Prop) (m : M A) (k : A -> M B) :
  (forall st, m st = (fst (m initial), st)) ->
  (forall a, fst (m initial) = Val a -> adds P (k a)) ->
  adds P (bind m k).
Proof.
  intros Hm Hk st. unfold bind. rewrite Hm.
  destruct (fst (m initial)) as [a|e|x] eqn:V.
  - apply (Hk a eq_refl).
  - exists []. cbn. rewrite app_nil_r. auto.
  - exists []. cbn. rewrite app_nil_r. auto.
Qed.

Lemma staging_relay_text w (req : emailData) funder senderName :
  adds (staging_text req funder senderName) (Staging.relay w req funder senderName).
Proof.
  unfold Staging.relay, send. repeat adds_step; try exact I.
  split; reflexivity.
Qed.

Lemma staging_process_text w (req : emailData) id funder :
  adds (fun e => forall m, e = Send_email m ->
                   exists senderName,
                     sender_name req = Some senderName /\
                     staging_text req funder senderName e)
       (Staging.process w req id funder).
Proof.
  unfold Staging.process. apply adds_bind_pure; [apply read_senderName_pure|].
  intros name N. apply read_senderName_name in N.
  assert (forall e, staging_text req funder name e ->
                    forall m, e = Send_email m ->
                      exists senderName,
                        sender_name req = Some senderName /\
                        staging_text req funder senderName e) as G.
  { intros e H m _. exists name. split; [exact N | exact H]. }
  intros st.
  assert (adds (staging_text req funder name)
            (no_attachments req ;;;
             for_of (Staging.attempt w funder name) 0 (Attachments req) ;;;
             temps <- get_temp ;;
             for_of (Staging.cleanup w) 0 temps ;;;
             Staging.relay w req funder name)) as H.
  { unfold no_attachments, Staging.attempt, Staging.cleanup.
    repeat adds_step; try exact I. apply staging_relay_text. }
  destruct (H st) as (t & Ht & Pt). exists t. split; [exact Ht|].
  eapply Forall_impl; [|exact Pt]. exact G.
Qed.

Lemma async_process_text w req id funder :
  adds (async_text req) (AsyncBatch.process w req id funder).
Proof.
  unfold_handler. repeat adds_step; cbn; auto.
  unfold AsyncBatch.originalSubject, AsyncBatch.originalBody.
  now rewrite nonempty_or_spec, nonempty_or_or.
Qed.

(** X21.  The text of every mail sent.  src/index.js: subject "New
    Submission" and an empty body.  part_001: subject "New Submission - "
    followed by the company name of the funder found, body "Submitted by:
    <name> (<address>)", where the name is [FromName], else
    [FromFull.Name], else the text before the [@] of the sender address
    (an empty name counting as absent), and a missing sender address is
    printed as [undefined].  part_002: the subject of the inbound mail, or "New
    Submission" when it is absent or empty; the text body of the inbound
    mail, else its HTML body, else the empty text, an empty text counting
    as absent. *)
Theorem mail_text (w : World) (req : emailData) (m : OutboundMessage) :
  (In (Send_email m) (trace (snd (Inline.handle w req))) ->
     msg_Subject m = "New Submission" /\ msg_TextBody m = "") /\
  (In (Send_email m) (trace (snd (Staging.handle w req))) ->
     exists r funder senderName,
       recipientEmail req = Some r /\
       select_funder w (funderId r) = Some funder /\
       sender_name req = Some senderName /\
       msg_Subject m = ("New Submission - " ++ company_name funder)%string /\
       msg_TextBody m
       = ("Submitted by: " ++ senderName ++ " ("
            ++ match senderEmail req with Some a => a | None => "undefined" end
            ++ ")")%string) /\
  (In (Send_email m) (trace (snd (AsyncBatch.handle w req))) ->
     msg_Subject m = nonempty_or (Subject req) "New Submission" /\
     msg_TextBody m = nonempty_or (TextBody req) (nonempty_or (HtmlBody req) "")).
Proof.
  unfold Staging.handle, AsyncBatch.handle, Inline.handle. rewrite !run_state.
  split; [|split]; intros H.
  - apply (handle_calls (fun _ => inline_text) w req _ (Send_email m)
             (fun id funder => inline_process_text w req id funder)) in H.
    destruct H as (r & _ & [H|(funder & _ & H)]); [discriminate | exact H].
  - apply (handle_calls
             (fun funder e => forall m, e = Send_email m ->
                exists senderName,
                  sender_name req = Some senderName /\
                  staging_text req funder senderName e)
             w req _ (Send_email m)
             (fun id funder => staging_process_text w req id funder)) in H.
    destruct H as (r & R & [H|(funder & F & H)]); [discriminate|].
    destruct (H m eq_refl) as (name & N & S & B).
    exists r, funder, name. auto.
  - apply (handle_calls (fun _ => async_text req) w req _ (Send_email m)
             (fun id funder => async_process_text w req id funder)) in H.
    destruct H as (r & _ & [H|(funder & _ & H)]); [discriminate | exact H].
Qed.

Lemma mail_text_witness :
  let req := {| ToFull := []; To := Some "acme@gateway.example";
                From := Some "broker@deals.example"; FromName := Some "";
                FromFull := Some {| Email := None; FullName := Some "Dana Broker" |};
                Subject := Some ""; TextBody := None; HtmlBody := Some "<p>deal</p>";
                Attachments := [Samples.pdf "a.pdf"] |} in
  (exists m,
     sent (trace (snd (Staging.handle Samples.world req))) = [m] /\
     msg_TextBody m = "Submitted by: Dana Broker (broker@deals.example)") /\
  (exists m,
     sent (trace (snd (AsyncBatch.handle Samples.world req))) = [m] /\
     msg_Subject m = "New Submission" /\ msg_TextBody m = "<p>deal</p>").
Proof.
  intros req. split.
  - eexists. split; [vm_compute; reflexivity|].
    match goal with |- msg_TextBody ?m = _ =>
      destruct (proj1 (proj2 (mail_text Samples.world req m)))
        as (r & funder & name & _ & _ & N & _ & B)
    end.
    + vm_compute. tauto.
    + rewrite B. injection N as <-. reflexivity.
  - eexists. split; [vm_compute; reflexivity|].
    match goal with |- msg_Subject ?m = _ /\ _ =>
      destruct (proj2 (proj2 (mail_text Samples.world req m))) as (S & B)
    end.
    + vm_compute. tauto.
    + rewrite S, B. split; reflexivity.
Defined.
